(** * phonopy: the thermal-conductivity driver and the FHI-aims geometry reader

    A shallow embedding of

    - [anharmonic/phonon3/conductivity.py]: class [Conductivity], the
      grid-point iterator that owns the result tensors, and
    - [phonopy/interface/FHIaims.py]: [read_aims], the geometry parser,
      and [write_aims], the geometry writer,

    followed by the properties established about them.

    Conventions.  Python integers are [Z] (counters produced by [len],
    [enumerate] and [range] are [nat]); numpy arrays of C ints carry their
    wrap-around explicitly ([intc], [long]); floating-point numbers are an
    abstract carrier [double] with the few operations the code uses, so every
    statement holds for IEEE doubles as for any other carrier; [None] is
    [option]'s [None]; an exception is an [outcome] that is not [Ok].  The
    driver is Python 2 (print statements), hence [/] on integers is floor
    division.  The FHI-aims module runs under Python 2 and Python 3: a
    string it reads or writes is the list of its characters, a character is
    its code (a byte under Python 2, a Unicode code point under Python 3),
    and what the two interpreters do differently, the white space of
    [str.split()], is a parameter. *)

From Stdlib Require Import ZArith List String Ascii Bool Lia.
From stdpp Require Import base list strings.

Local Open Scope Z_scope.

(** ** Python and numpy primitives *)

Inductive exn : Type :=
| StopIteration
| AssertionError
| IndexError
| ValueError
| TypeError
| RuntimeError
| AttributeError
| UnboundLocalError
| KernelError (code : nat).

Inductive outcome (A : Type) : Type :=
| Ok (a : A)
| Raise (e : exn).
Arguments Ok {A} a.
Arguments Raise {A} e.

Definition obind {A B : Type} (o : outcome A) (k : A -> outcome B) : outcome B :=
  match o with
  | Ok a => k a
  | Raise e => Raise e
  end.

(** [x % y] on numpy integers: the sign follows the divisor, and a zero
    divisor yields 0 (with a RuntimeWarning), not an exception. *)
Definition np_mod (m n : Z) : Z := if n =? 0 then 0 else m mod n.

(** [x / y] on numpy integers under Python 2: floor division, 0 on a zero
    divisor. *)
Definition np_floordiv (m n : Z) : Z := if n =? 0 then 0 else m / n.

(** Two's-complement reduction to [w] bits. *)
Definition wrap (w : Z) (z : Z) : Z := (z + 2 ^ (w - 1)) mod 2 ^ w - 2 ^ (w - 1).

(** [dtype='intc']: a 32-bit C int. *)
Definition intc (z : Z) : Z := wrap 32 z.

(** The accumulator numpy uses for [sum] and [prod] of C ints: a C long. *)
Definition long (z : Z) : Z := wrap 64 z.

Definition np_sum (a : list Z) : Z := long (fold_left Z.add a 0).
Definition np_prod (a : list Z) : Z := long (fold_left Z.mul a 1).

(** Element-wise binary operation with numpy's broadcasting of one-element
    arrays; shapes that do not broadcast raise [ValueError]. *)
Definition np_binop {A B C : Type} (f : A -> B -> C) (a : list A) (b : list B)
  : outcome (list C) :=
  if decide (length a = length b) then Ok (zip_with f a b)
  else match a, b with
       | [x], _ => Ok (map (f x) b)
       | _, [y] => Ok (map (fun x => f x y) a)
       | _, _ => Raise ValueError
       end.

(** [a[i]] for an integer [i]: negative indices count from the end. *)
Definition np_getitem {A : Type} (a : list A) (i : Z) : outcome A :=
  let n := Z.of_nat (length a) in
  let j := if i <? 0 then i + n else i in
  if (0 <=? j) && (j <? n) then
    match a !! Z.to_nat j with
    | Some x => Ok x
    | None => Raise IndexError
    end
  else Raise IndexError.

(** [a[idx]] for an integer array [idx] (fancy indexing). *)
Fixpoint np_take {A : Type} (a : list A) (idx : list Z) : outcome (list A) :=
  match idx with
  | [] => Ok []
  | i :: idx' =>
      obind (np_getitem a i) (fun x =>
      obind (np_take a idx') (fun xs => Ok (x :: xs)))
  end.

(** [np.arange(n, dtype='intc')]. *)
Definition np_arange (n : Z) : list Z :=
  map (fun k => intc (Z.of_nat k)) (seq 0 (Z.to_nat n)).

(** [l[i]] on a Python list indexed by a counter. *)
Definition py_getitem {A : Type} (l : list A) (i : nat) : outcome A :=
  match l !! i with
  | Some x => Ok x
  | None => Raise IndexError
  end.

(** Assignment of [v] to a one-dimensional slice of length [n]: equal
    lengths are copied, a single element is broadcast, anything else is a
    [ValueError]. *)
Definition np_fit {A : Type} (v : list A) (n : nat) : outcome (list A) :=
  if decide (length v = n) then Ok v
  else match v with
       | [x] => Ok (replicate n x)
       | _ => Raise ValueError
       end.

(** What [a[idx]] is for an array [a]: subscripted by an integer array it
    is the rows at those indices, subscripted by [None] it is the array
    itself under one new axis. *)
Inductive subscripted (A : Type) : Type :=
| rows_at (rows : list A)
| new_axis (table : list A).
Arguments rows_at {A} rows.
Arguments new_axis {A} table.

(** ** Strings

    A character is its code, a string the list of its characters.  The
    string literals of the source are ASCII. *)
#[warnings="-notation-for-abbreviation"]
Notation char := N (only parsing).

#[warnings="-notation-for-abbreviation"]
Notation str := (list N) (only parsing).

Definition lit (s : string) : str :=
  map N_of_ascii (list_ascii_of_string s).

(** [a == b] on strings. *)
Fixpoint str_eqb (a b : str) : bool :=
  match a, b with
  | [], [] => true
  | x :: a', y :: b' => (x =? y)%N && str_eqb a' b'
  | _, _ => false
  end.

(** What [str.isspace()] says of a character, and with it where
    [str.split()] splits, depends on the interpreter.  The properties of
    the FHI-aims module are proved for every interpreter; the two below
    serve in the examples. *)
Class Interpreter : Type := {
  is_space : char -> bool
}.

(** Python 2, byte strings in the C locale: tab, line feed, vertical tab,
    form feed, carriage return and the space. *)
Definition python2 : Interpreter :=
  {| is_space := fun c => ((9 <=? c) && (c <=? 13) || (c =? 32))%N |}.

(** Python 3, Unicode strings: those, the separators 28-31, the next-line
    and no-break-space characters (133, 160) and the Unicode spaces U+1680,
    U+2000 to U+200A, U+2028, U+2029, U+202F, U+205F and U+3000. *)
Definition python3 : Interpreter :=
  {| is_space := fun c =>
       ((9 <=? c) && (c <=? 13) || (28 <=? c) && (c <=? 32) ||
        (c =? 133) || (c =? 160) || (c =? 5760) ||
        (8192 <=? c) && (c <=? 8202) || (c =? 8232) || (c =? 8233) ||
        (c =? 8239) || (c =? 8287) || (c =? 12288))%N |}.

(** ** Floating-point numbers

    The driver stores and forwards doubles; the reader parses, multiplies and
    adds them.  Nothing is assumed about these operations. *)

Class Float : Type := {
  double : Type;
  zero : double;                         (* 0.0 *)
  nonzero : double -> bool;              (* the truth value of a float *)
  truediv : Z -> Z -> double;            (* int / float(int) *)
  fadd : double -> double -> double;
  fmul : double -> double -> double;
  float : str -> option double           (* float(s); None is ValueError *)
}.

(** ** Methods as state transformers

    A method takes [self] and gives back an outcome together with [self] as
    the method left it: an exception does not undo the mutations made before
    it was raised. *)

Definition method (Self A : Type) : Type := Self -> outcome A * Self.

Definition ret {Self A : Type} (a : A) : method Self A :=
  fun self => (Ok a, self).

Definition raise {Self A : Type} (e : exn) : method Self A :=
  fun self => (Raise e, self).

Definition bind {Self A B : Type} (m : method Self A) (k : A -> method Self B)
  : method Self B :=
  fun self =>
    match m self with
    | (Ok a, self') => k a self'
    | (Raise e, self') => (Raise e, self')
    end.

Notation "x <- m ;; k" := (bind m (fun x => k))
  (at level 100, m at next level, right associativity).
Notation "m ;; k" := (bind m (fun _ => k))
  (at level 100, right associativity).

Definition gets {Self A : Type} (f : Self -> A) : method Self A :=
  fun self => (Ok (f self), self).

Definition modify {Self : Type} (f : Self -> Self) : method Self unit :=
  fun self => (Ok tt, f self).

Definition lift {Self A : Type} (o : outcome A) : method Self A :=
  fun self => (o, self).

(** Reading an attribute that must not be [None] where it is used. *)
Definition attr {Self A : Type} (f : Self -> option A) : method Self A :=
  fun self =>
    match f self with
    | Some a => (Ok a, self)
    | None => (Raise TypeError, self)
    end.

Definition when {Self : Type} (b : bool) (m : method Self unit)
  : method Self unit := if b then m else ret tt.

(** [for j, x in enumerate(l): body]. *)
Fixpoint for_enumerate_from {Self A : Type} (j : nat) (l : list A)
    (body : nat -> A -> method Self unit) : method Self unit :=
  match l with
  | [] => ret tt
  | x :: l' => body j x ;; for_enumerate_from (S j) l' body
  end.

Definition for_enumerate {Self A : Type} (l : list A)
    (body : nat -> A -> method Self unit) : method Self unit :=
  for_enumerate_from 0 l body.

(** ** The collaborators of the driver

    The interaction object, the symmetry object, the two scattering kernels
    and the grid utilities of [anharmonic.phonon3.triplets] are black boxes.
    The static answers of the interaction and symmetry objects are records;
    the stateful kernels are modelled by the [history] of the calls made to
    them, and every value read back from a kernel is an arbitrary function of
    that history.  A call may raise: [raises] decides it from the history
    that ends with that call. *)

Section Driver.

Context `{F : Float}.

Definition tensor3 : Type := list (list (list double)).
Definition tensor4 : Type := list (list (list (list double))).
Definition tensor5 : Type := list (list (list (list (list double)))).

Record Interaction : Type := mkInteraction {
  pp_mesh_numbers : list Z;              (* get_mesh_numbers() *)
  pp_grid_address : list (list Z);       (* get_grid_address() *)
  pp_number_of_atoms : nat               (* get_primitive().get_number_of_atoms() *)
}.

Record Symmetry : Type := mkSymmetry {
  pointgroup_operations : list (list (list Z))   (* get_pointgroup_operations() *)
}.

Record Isotope : Type := mkIsotope {
  isotope_mesh : option (list Z);
  isotope_mass_variances : list double
}.

(** What the two logging branches print after "Calculating Gamma of ...
    with": decided by [sigma is None]. *)
Inductive sigma_label : Type :=
| tetrahedron_method
| sigma_is (sigma : double).

Inductive message : Type :=
| not_dividable (axis : string) (m n : Z)
| can_not_be_shifted (axis : string)
| lifetime_sampling_mesh (coarse : list Z)
| calculating_gamma_of_ph_ph (l : sigma_label)
| calculating_gamma_of_ph_isotope (l : sigma_label).

Inductive call : Type :=
| print (msg : message)
| ise_set_sigma (sigma : option double)
| ise_set_integration_weights
| ise_set_temperature (t : double)
| ise_run
| isotope_set_sigma (sigma : option double)
| isotope_set_phonons
| isotope_set_grid_point (i : nat)
| isotope_run
| pp_set_phonon (grid_points : list Z).

Class Kernels : Type := {
  raises : list call -> option exn;
  ise_get_imag_self_energy : list call -> list double;
  isotope_get_gamma : list call -> list double;
  pp_get_phonons : list call -> list (list double);
  get_grid_address : list Z -> list (list Z);
  reduce_grid_points :
    list Z -> list (list Z) -> list Z -> option (list bool) -> list Z;
  get_ir_grid_points :
    list Z -> list (list (list Z)) -> list bool ->
    list Z * list Z * list (list Z);
  from_coarse_to_dense_grid_points :
    list Z -> list Z -> list Z -> list (list Z) -> option (list bool) -> list Z
}.

Context `{K : Kernels}.

(** ** The instance

    One field per attribute of [self]; an attribute that is [None] (or not
    yet created) is [None].  The physical constants that only the kernels
    read (dynamical matrix, unit factors, rotations, cutoffs) are part of the
    kernels.  [history] is the model's record of the calls made so far. *)

Record Conductivity : Type := mkConductivity {
  _pp : Interaction;
  _symmetry : Symmetry;
  _temperatures : list double;
  _sigmas : list (option double);
  _no_kappa_stars : bool;
  _log_level : Z;
  _grid_points : option (list Z);
  _grid_weights : option (list Z);
  _grid_address : option (list (list Z));
  _qpoints : option (list (list double));
  _gamma : option tensor4;
  _read_gamma : bool;
  _frequencies : option (list (list double));
  _kappa : option tensor5;
  _cv : option tensor3;
  _gv : option tensor3;
  _gamma_iso : option tensor3;
  _mesh : option (list Z);
  _mesh_divisors : option (list Z);
  _coarse_mesh : option (list Z);
  _coarse_mesh_shifts : option (list bool);
  _sum_num_kstar : option Z;
  _isotope : option Isotope;
  _mass_variances : option (list double);
  _grid_point_count : option nat;
  history : list call
}.

Definition with_grid_points (v : option (list Z)) (self : Conductivity) : Conductivity :=
  mkConductivity (_pp self) (_symmetry self) (_temperatures self)
    (_sigmas self) (_no_kappa_stars self) (_log_level self) v
    (_grid_weights self) (_grid_address self) (_qpoints self) (_gamma self)
    (_read_gamma self) (_frequencies self) (_kappa self) (_cv self)
    (_gv self) (_gamma_iso self) (_mesh self) (_mesh_divisors self)
    (_coarse_mesh self) (_coarse_mesh_shifts self) (_sum_num_kstar self)
    (_isotope self) (_mass_variances self) (_grid_point_count self)
    (history self).

Definition with_grid_weights (v : option (list Z)) (self : Conductivity) : Conductivity :=
  mkConductivity (_pp self) (_symmetry self) (_temperatures self)
    (_sigmas self) (_no_kappa_stars self) (_log_level self)
    (_grid_points self) v (_grid_address self) (_qpoints self) (_gamma self)
    (_read_gamma self) (_frequencies self) (_kappa self) (_cv self)
    (_gv self) (_gamma_iso self) (_mesh self) (_mesh_divisors self)
    (_coarse_mesh self) (_coarse_mesh_shifts self) (_sum_num_kstar self)
    (_isotope self) (_mass_variances self) (_grid_point_count self)
    (history self).

Definition with_grid_address (v : option (list (list Z))) (self : Conductivity) : Conductivity :=
  mkConductivity (_pp self) (_symmetry self) (_temperatures self)
    (_sigmas self) (_no_kappa_stars self) (_log_level self)
    (_grid_points self) (_grid_weights self) v (_qpoints self) (_gamma self)
    (_read_gamma self) (_frequencies self) (_kappa self) (_cv self)
    (_gv self) (_gamma_iso self) (_mesh self) (_mesh_divisors self)
    (_coarse_mesh self) (_coarse_mesh_shifts self) (_sum_num_kstar self)
    (_isotope self) (_mass_variances self) (_grid_point_count self)
    (history self).

Definition with_qpoints (v : option (list (list double))) (self : Conductivity) : Conductivity :=
  mkConductivity (_pp self) (_symmetry self) (_temperatures self)
    (_sigmas self) (_no_kappa_stars self) (_log_level self)
    (_grid_points self) (_grid_weights self) (_grid_address self) v
    (_gamma self) (_read_gamma self) (_frequencies self) (_kappa self)
    (_cv self) (_gv self) (_gamma_iso self) (_mesh self)
    (_mesh_divisors self) (_coarse_mesh self) (_coarse_mesh_shifts self)
    (_sum_num_kstar self) (_isotope self) (_mass_variances self)
    (_grid_point_count self) (history self).

Definition with_gamma (v : option tensor4) (self : Conductivity) : Conductivity :=
  mkConductivity (_pp self) (_symmetry self) (_temperatures self)
    (_sigmas self) (_no_kappa_stars self) (_log_level self)
    (_grid_points self) (_grid_weights self) (_grid_address self)
    (_qpoints self) v (_read_gamma self) (_frequencies self) (_kappa self)
    (_cv self) (_gv self) (_gamma_iso self) (_mesh self)
    (_mesh_divisors self) (_coarse_mesh self) (_coarse_mesh_shifts self)
    (_sum_num_kstar self) (_isotope self) (_mass_variances self)
    (_grid_point_count self) (history self).

Definition with_read_gamma (v : bool) (self : Conductivity) : Conductivity :=
  mkConductivity (_pp self) (_symmetry self) (_temperatures self)
    (_sigmas self) (_no_kappa_stars self) (_log_level self)
    (_grid_points self) (_grid_weights self) (_grid_address self)
    (_qpoints self) (_gamma self) v (_frequencies self) (_kappa self)
    (_cv self) (_gv self) (_gamma_iso self) (_mesh self)
    (_mesh_divisors self) (_coarse_mesh self) (_coarse_mesh_shifts self)
    (_sum_num_kstar self) (_isotope self) (_mass_variances self)
    (_grid_point_count self) (history self).

Definition with_frequencies (v : option (list (list double))) (self : Conductivity) : Conductivity :=
  mkConductivity (_pp self) (_symmetry self) (_temperatures self)
    (_sigmas self) (_no_kappa_stars self) (_log_level self)
    (_grid_points self) (_grid_weights self) (_grid_address self)
    (_qpoints self) (_gamma self) (_read_gamma self) v (_kappa self)
    (_cv self) (_gv self) (_gamma_iso self) (_mesh self)
    (_mesh_divisors self) (_coarse_mesh self) (_coarse_mesh_shifts self)
    (_sum_num_kstar self) (_isotope self) (_mass_variances self)
    (_grid_point_count self) (history self).

Definition with_kappa (v : option tensor5) (self : Conductivity) : Conductivity :=
  mkConductivity (_pp self) (_symmetry self) (_temperatures self)
    (_sigmas self) (_no_kappa_stars self) (_log_level self)
    (_grid_points self) (_grid_weights self) (_grid_address self)
    (_qpoints self) (_gamma self) (_read_gamma self) (_frequencies self) v
    (_cv self) (_gv self) (_gamma_iso self) (_mesh self)
    (_mesh_divisors self) (_coarse_mesh self) (_coarse_mesh_shifts self)
    (_sum_num_kstar self) (_isotope self) (_mass_variances self)
    (_grid_point_count self) (history self).

Definition with_cv (v : option tensor3) (self : Conductivity) : Conductivity :=
  mkConductivity (_pp self) (_symmetry self) (_temperatures self)
    (_sigmas self) (_no_kappa_stars self) (_log_level self)
    (_grid_points self) (_grid_weights self) (_grid_address self)
    (_qpoints self) (_gamma self) (_read_gamma self) (_frequencies self)
    (_kappa self) v (_gv self) (_gamma_iso self) (_mesh self)
    (_mesh_divisors self) (_coarse_mesh self) (_coarse_mesh_shifts self)
    (_sum_num_kstar self) (_isotope self) (_mass_variances self)
    (_grid_point_count self) (history self).

Definition with_gv (v : option tensor3) (self : Conductivity) : Conductivity :=
  mkConductivity (_pp self) (_symmetry self) (_temperatures self)
    (_sigmas self) (_no_kappa_stars self) (_log_level self)
    (_grid_points self) (_grid_weights self) (_grid_address self)
    (_qpoints self) (_gamma self) (_read_gamma self) (_frequencies self)
    (_kappa self) (_cv self) v (_gamma_iso self) (_mesh self)
    (_mesh_divisors self) (_coarse_mesh self) (_coarse_mesh_shifts self)
    (_sum_num_kstar self) (_isotope self) (_mass_variances self)
    (_grid_point_count self) (history self).

Definition with_gamma_iso (v : option tensor3) (self : Conductivity) : Conductivity :=
  mkConductivity (_pp self) (_symmetry self) (_temperatures self)
    (_sigmas self) (_no_kappa_stars self) (_log_level self)
    (_grid_points self) (_grid_weights self) (_grid_address self)
    (_qpoints self) (_gamma self) (_read_gamma self) (_frequencies self)
    (_kappa self) (_cv self) (_gv self) v (_mesh self) (_mesh_divisors self)
    (_coarse_mesh self) (_coarse_mesh_shifts self) (_sum_num_kstar self)
    (_isotope self) (_mass_variances self) (_grid_point_count self)
    (history self).

Definition with_mesh (v : option (list Z)) (self : Conductivity) : Conductivity :=
  mkConductivity (_pp self) (_symmetry self) (_temperatures self)
    (_sigmas self) (_no_kappa_stars self) (_log_level self)
    (_grid_points self) (_grid_weights self) (_grid_address self)
    (_qpoints self) (_gamma self) (_read_gamma self) (_frequencies self)
    (_kappa self) (_cv self) (_gv self) (_gamma_iso self) v
    (_mesh_divisors self) (_coarse_mesh self) (_coarse_mesh_shifts self)
    (_sum_num_kstar self) (_isotope self) (_mass_variances self)
    (_grid_point_count self) (history self).

Definition with_mesh_divisors (v : option (list Z)) (self : Conductivity) : Conductivity :=
  mkConductivity (_pp self) (_symmetry self) (_temperatures self)
    (_sigmas self) (_no_kappa_stars self) (_log_level self)
    (_grid_points self) (_grid_weights self) (_grid_address self)
    (_qpoints self) (_gamma self) (_read_gamma self) (_frequencies self)
    (_kappa self) (_cv self) (_gv self) (_gamma_iso self) (_mesh self) v
    (_coarse_mesh self) (_coarse_mesh_shifts self) (_sum_num_kstar self)
    (_isotope self) (_mass_variances self) (_grid_point_count self)
    (history self).

Definition with_coarse_mesh (v : option (list Z)) (self : Conductivity) : Conductivity :=
  mkConductivity (_pp self) (_symmetry self) (_temperatures self)
    (_sigmas self) (_no_kappa_stars self) (_log_level self)
    (_grid_points self) (_grid_weights self) (_grid_address self)
    (_qpoints self) (_gamma self) (_read_gamma self) (_frequencies self)
    (_kappa self) (_cv self) (_gv self) (_gamma_iso self) (_mesh self)
    (_mesh_divisors self) v (_coarse_mesh_shifts self) (_sum_num_kstar self)
    (_isotope self) (_mass_variances self) (_grid_point_count self)
    (history self).

Definition with_coarse_mesh_shifts (v : option (list bool)) (self : Conductivity) : Conductivity :=
  mkConductivity (_pp self) (_symmetry self) (_temperatures self)
    (_sigmas self) (_no_kappa_stars self) (_log_level self)
    (_grid_points self) (_grid_weights self) (_grid_address self)
    (_qpoints self) (_gamma self) (_read_gamma self) (_frequencies self)
    (_kappa self) (_cv self) (_gv self) (_gamma_iso self) (_mesh self)
    (_mesh_divisors self) (_coarse_mesh self) v (_sum_num_kstar self)
    (_isotope self) (_mass_variances self) (_grid_point_count self)
    (history self).

Definition with_sum_num_kstar (v : option Z) (self : Conductivity) : Conductivity :=
  mkConductivity (_pp self) (_symmetry self) (_temperatures self)
    (_sigmas self) (_no_kappa_stars self) (_log_level self)
    (_grid_points self) (_grid_weights self) (_grid_address self)
    (_qpoints self) (_gamma self) (_read_gamma self) (_frequencies self)
    (_kappa self) (_cv self) (_gv self) (_gamma_iso self) (_mesh self)
    (_mesh_divisors self) (_coarse_mesh self) (_coarse_mesh_shifts self) v
    (_isotope self) (_mass_variances self) (_grid_point_count self)
    (history self).

Definition with_isotope (v : option Isotope) (self : Conductivity) : Conductivity :=
  mkConductivity (_pp self) (_symmetry self) (_temperatures self)
    (_sigmas self) (_no_kappa_stars self) (_log_level self)
    (_grid_points self) (_grid_weights self) (_grid_address self)
    (_qpoints self) (_gamma self) (_read_gamma self) (_frequencies self)
    (_kappa self) (_cv self) (_gv self) (_gamma_iso self) (_mesh self)
    (_mesh_divisors self) (_coarse_mesh self) (_coarse_mesh_shifts self)
    (_sum_num_kstar self) v (_mass_variances self) (_grid_point_count self)
    (history self).

Definition with_mass_variances (v : option (list double)) (self : Conductivity) : Conductivity :=
  mkConductivity (_pp self) (_symmetry self) (_temperatures self)
    (_sigmas self) (_no_kappa_stars self) (_log_level self)
    (_grid_points self) (_grid_weights self) (_grid_address self)
    (_qpoints self) (_gamma self) (_read_gamma self) (_frequencies self)
    (_kappa self) (_cv self) (_gv self) (_gamma_iso self) (_mesh self)
    (_mesh_divisors self) (_coarse_mesh self) (_coarse_mesh_shifts self)
    (_sum_num_kstar self) (_isotope self) v (_grid_point_count self)
    (history self).

Definition with_grid_point_count (v : option nat) (self : Conductivity) : Conductivity :=
  mkConductivity (_pp self) (_symmetry self) (_temperatures self)
    (_sigmas self) (_no_kappa_stars self) (_log_level self)
    (_grid_points self) (_grid_weights self) (_grid_address self)
    (_qpoints self) (_gamma self) (_read_gamma self) (_frequencies self)
    (_kappa self) (_cv self) (_gv self) (_gamma_iso self) (_mesh self)
    (_mesh_divisors self) (_coarse_mesh self) (_coarse_mesh_shifts self)
    (_sum_num_kstar self) (_isotope self) (_mass_variances self) v
    (history self).

Definition with_history (v : list call) (self : Conductivity) : Conductivity :=
  mkConductivity (_pp self) (_symmetry self) (_temperatures self)
    (_sigmas self) (_no_kappa_stars self) (_log_level self)
    (_grid_points self) (_grid_weights self) (_grid_address self)
    (_qpoints self) (_gamma self) (_read_gamma self) (_frequencies self)
    (_kappa self) (_cv self) (_gv self) (_gamma_iso self) (_mesh self)
    (_mesh_divisors self) (_coarse_mesh self) (_coarse_mesh_shifts self)
    (_sum_num_kstar self) (_isotope self) (_mass_variances self)
    (_grid_point_count self) v.

Definition M (A : Type) : Type := method Conductivity A.

(** [print]: recorded, never raises. *)
Definition emit (msg : message) : M unit :=
  modify (fun self => with_history (history self ++ [print msg]) self).

(** A call to a kernel: recorded, and it raises when [raises] says so. *)
Definition extern (c : call) : M unit :=
  fun self =>
    let h := history self ++ [c] in
    match raises h with
    | Some e => (Raise e, with_history h self)
    | None => (Ok tt, with_history h self)
    end.

(** A value read back from a kernel. *)
Definition query {A : Type} (f : list call -> A) : M A :=
  fun self => (Ok (f (history self)), self).

(** ** [Conductivity._set_mesh_numbers] *)

Definition axis_names : list string := ["first"; "second"; "third"]%string.

Definition append_mesh_divisor (n : Z) : M unit :=
  d <- attr _mesh_divisors ;;
  modify (with_mesh_divisors (Some (d ++ [n]))).

(** The body of [for i, (m, n) in enumerate(zip(self._mesh, mesh_divisors))]. *)
Definition check_divisor (i : nat) (mn : Z * Z) : M unit :=
  let '(m, n) := mn in
  if np_mod m n =? 0 then append_mesh_divisor n
  else
    (append_mesh_divisor 1 ;;
     axis <- lift (py_getitem axis_names i) ;;
     emit (not_dividable axis m n)).

(** The body of [for i in range(3)]; [and] evaluates the divisor only for a
    flag that is set.  The assignment goes to the list object the caller
    passed in. *)
Definition check_shift (i : nat) : M unit :=
  shifts <- attr _coarse_mesh_shifts ;;
  flag <- lift (py_getitem shifts i) ;;
  if (flag : bool) then
    (d <- attr _mesh_divisors ;;
     di <- lift (py_getitem d i) ;;
     if negb (np_mod di 2 =? 0) then
       (axis <- lift (py_getitem axis_names i) ;;
        emit (can_not_be_shifted axis) ;;
        modify (with_coarse_mesh_shifts (Some (<[i := false]> shifts))))
     else ret tt)
  else ret tt.

Definition _set_mesh_numbers (mesh_divisors : option (list Z))
    (coarse_mesh_shifts : option (list bool)) : M unit :=
  pp <- gets _pp ;;
  modify (with_mesh (Some (pp_mesh_numbers pp))) ;;
  match mesh_divisors with
  | None => modify (with_mesh_divisors (Some (map intc [1; 1; 1])))
  | Some requested =>
      modify (with_mesh_divisors (Some [])) ;;
      mesh <- attr _mesh ;;
      for_enumerate (zip mesh requested) check_divisor ;;
      d <- attr _mesh_divisors ;;
      modify (with_mesh_divisors (Some (map intc d))) ;;
      modify (with_coarse_mesh_shifts
                (Some (match coarse_mesh_shifts with
                       | None => [false; false; false]
                       | Some given => given
                       end))) ;;
      for_enumerate (seq 0 3) (fun _ i => check_shift i)
  end ;;
  mesh <- attr _mesh ;;
  d <- attr _mesh_divisors ;;
  coarse <- lift (np_binop np_floordiv mesh d) ;;
  modify (with_coarse_mesh (Some coarse)) ;;
  log_level <- gets _log_level ;;
  when (negb (log_level =? 0))
    (q <- lift (np_binop np_floordiv mesh d) ;;
     if decide (length q = 3%nat) then emit (lifetime_sampling_mesh q)
     else raise TypeError).

(** ** [Conductivity._set_isotope] and [Conductivity.__init__] *)

Definition _set_isotope (mass_variances : list double) : M unit :=
  modify (with_mass_variances (Some mass_variances)) ;;
  mesh <- gets _mesh ;;
  modify (with_isotope (Some (mkIsotope mesh mass_variances))).

(** The constructor.  When it raises the caller holds no instance. *)
Definition __init__ (interaction : Interaction) (symmetry : Symmetry)
    (temperatures : list double) (sigmas : list (option double))
    (mass_variances : option (list double))
    (mesh_divisors : option (list Z)) (coarse_mesh_shifts : option (list bool))
    (no_kappa_stars : bool) (log_level : Z) : outcome Conductivity :=
  let self :=
    mkConductivity interaction symmetry temperatures sigmas no_kappa_stars
      log_level None None None None None false None None None None None
      None None None None None None None None [] in
  match
    (_set_mesh_numbers mesh_divisors coarse_mesh_shifts ;;
     modify (with_sum_num_kstar None) ;;
     modify (with_isotope None) ;;
     modify (with_mass_variances None) ;;
     match mass_variances with
     | Some mv => _set_isotope mv
     | None => ret tt
     end ;;
     modify (with_grid_point_count None)) self
  with
  | (Ok _, self') => Ok self'
  | (Raise e, _) => Raise e
  end.

(** ** Accessors *)

Definition get_mesh_divisors (self : Conductivity) := _mesh_divisors self.
Definition get_mesh_numbers (self : Conductivity) := _mesh self.
Definition get_grid_points (self : Conductivity) := _grid_points self.
Definition get_grid_weights (self : Conductivity) := _grid_weights self.
Definition get_gamma (self : Conductivity) := _gamma self.
Definition get_group_velocities (self : Conductivity) := _gv self.
Definition get_mode_heat_capacities (self : Conductivity) := _cv self.
Definition get_number_of_sampling_points (self : Conductivity) :=
  _sum_num_kstar self.
Definition get_grid_point_count (self : Conductivity) := _grid_point_count self.

(** [_kappa] and [_qpoints] are created by [initialize], not by
    [__init__]: until then the attribute is missing ([None] here) and
    reading it is an [AttributeError]. *)
Definition get_kappa (self : Conductivity) : outcome tensor5 :=
  match _kappa self with
  | Some kappa => Ok kappa
  | None => Raise AttributeError
  end.

Definition get_qpoints (self : Conductivity) : outcome (list (list double)) :=
  match _qpoints self with
  | Some qpoints => Ok qpoints
  | None => Raise AttributeError
  end.

Definition get_temperatures (self : Conductivity) := _temperatures self.
Definition get_sigmas (self : Conductivity) := _sigmas self.

(** [self._frequencies[self._grid_points]]: subscripting [None] is a
    [TypeError]. *)
Definition get_frequencies : M (subscripted (list double)) :=
  frequencies <- attr _frequencies ;;
  grid_points <- gets _grid_points ;;
  match grid_points with
  | None => ret (new_axis frequencies)
  | Some grid_points =>
      rows <- lift (np_take frequencies grid_points) ;;
      ret (rows_at rows)
  end.

Definition set_gamma (gamma : tensor4) : M unit :=
  modify (with_gamma (Some gamma)) ;;
  modify (with_read_gamma true).

(** ** [Conductivity._allocate_values] *)

Definition _allocate_values : M unit :=
  pp <- gets _pp ;;
  let num_band := (pp_number_of_atoms pp * 3)%nat in
  grid_points <- attr _grid_points ;;
  let num_grid_points := length grid_points in
  sigmas <- gets _sigmas ;;
  temperatures <- gets _temperatures ;;
  modify (with_kappa (Some
    (replicate (length sigmas) (replicate num_grid_points
      (replicate (length temperatures) (replicate num_band
        (replicate 6 zero))))))) ;;
  read_gamma <- gets _read_gamma ;;
  when (negb read_gamma)
    (modify (with_gamma (Some
      (replicate (length sigmas) (replicate num_grid_points
        (replicate (length temperatures) (replicate num_band zero))))))) ;;
  modify (with_gv (Some
    (replicate num_grid_points (replicate num_band (replicate 3 zero))))) ;;
  modify (with_cv (Some
    (replicate num_grid_points (replicate (length temperatures)
      (replicate num_band zero))))) ;;
  modify (with_gamma_iso (Some
    (replicate (length sigmas) (replicate num_grid_points
      (replicate num_band zero))))).

(** ** [Conductivity.initialize] *)

(** [rows / mesh.astype('double')]. *)
Fixpoint rows_truediv (rows : list (list Z)) (mesh : list Z)
  : outcome (list (list double)) :=
  match rows with
  | [] => Ok []
  | r :: rows' =>
      obind (np_binop truediv r mesh) (fun q =>
      obind (rows_truediv rows' mesh) (fun qs => Ok (q :: qs)))
  end.

(** The branch [grid_points is not None]: the given points, reduced. *)
Definition specified_grid_points (given : list Z) : M unit :=
  d <- attr _mesh_divisors ;;
  address <- attr _grid_address ;;
  shifts <- gets _coarse_mesh_shifts ;;
  modify (with_grid_points (Some (reduce_grid_points d address given shifts))).

(** The branch [self._no_kappa_stars]: all grid points, each of weight 1. *)
Definition all_grid_points : M unit :=
  coarse <- attr _coarse_mesh ;;
  let coarse_grid_address := get_grid_address coarse in
  let coarse_grid_points := np_arange (np_prod coarse) in
  mesh <- attr _mesh ;;
  d <- attr _mesh_divisors ;;
  shifts <- gets _coarse_mesh_shifts ;;
  let dense :=
    from_coarse_to_dense_grid_points mesh d coarse_grid_points
      coarse_grid_address shifts in
  modify (with_grid_points (Some dense)) ;;
  modify (with_grid_weights (Some (replicate (length dense) 1))).

(** The last branch: automatic sampling of the irreducible coarse grid, with
    its assertion on the weights. *)
Definition automatic_sampling : M unit :=
  shifts <- gets _coarse_mesh_shifts ;;
  let mesh_shifts :=
    match shifts with
    | None => [false; false; false]
    | Some s => s
    end in
  coarse <- attr _coarse_mesh ;;
  symmetry <- gets _symmetry ;;
  let '(coarse_grid_points, coarse_grid_weights, coarse_grid_address) :=
    get_ir_grid_points coarse (pointgroup_operations symmetry) mesh_shifts in
  mesh <- attr _mesh ;;
  d <- attr _mesh_divisors ;;
  modify (with_grid_points
            (Some (from_coarse_to_dense_grid_points mesh d
                     coarse_grid_points coarse_grid_address shifts))) ;;
  modify (with_grid_weights (Some coarse_grid_weights)) ;;
  weights <- attr _grid_weights ;;
  q <- lift (np_binop np_floordiv mesh d) ;;
  if np_sum weights =? np_prod q then ret tt else raise AssertionError.

Definition initialize (grid_points : option (list Z)) : M unit :=
  pp <- gets _pp ;;
  modify (with_grid_address (Some (pp_grid_address pp))) ;;
  match grid_points with
  | Some given => specified_grid_points given
  | None =>
      no_kappa_stars <- gets _no_kappa_stars ;;
      if (no_kappa_stars : bool) then all_grid_points
      else automatic_sampling
  end ;;
  address <- attr _grid_address ;;
  selected <- attr _grid_points ;;
  mesh <- attr _mesh ;;
  rows <- lift (np_take address selected) ;;
  qpoints <- lift (rows_truediv rows mesh) ;;
  modify (with_qpoints (Some qpoints)) ;;
  modify (with_sum_num_kstar (Some 0)) ;;
  modify (with_grid_point_count (Some 0%nat)) ;;
  _allocate_values ;;
  selected <- attr _grid_points ;;
  extern (pp_set_phonon selected) ;;
  frequencies <- query pp_get_phonons ;;
  modify (with_frequencies (Some frequencies)).

(** ** [Conductivity._set_gamma_at_sigmas] and
       [Conductivity._set_gamma_isotope_at_sigmas] *)

(** [not sigma]: true for [None] and for a float equal to zero. *)
Definition not_sigma (sigma : option double) : bool :=
  match sigma with
  | None => true
  | Some s => negb (nonzero s)
  end.

(** The logging branches test [sigma is None]. *)
Definition label_of (sigma : option double) : sigma_label :=
  match sigma with
  | None => tetrahedron_method
  | Some s => sigma_is s
  end.

(** [t[j, i, k] = v] on a four-dimensional array. *)
Definition setitem3 (t : tensor4) (j i k : nat) (v : list double)
  : outcome tensor4 :=
  obind (py_getitem t j) (fun tj =>
  obind (py_getitem tj i) (fun tji =>
  obind (py_getitem tji k) (fun row =>
  obind (np_fit v (length row)) (fun v' =>
  Ok (<[j := <[i := <[k := v']> tji]> tj]> t))))).

(** [t[j, i] = v] on a three-dimensional array. *)
Definition setitem2 (t : tensor3) (j i : nat) (v : list double)
  : outcome tensor3 :=
  obind (py_getitem t j) (fun tj =>
  obind (py_getitem tj i) (fun row =>
  obind (np_fit v (length row)) (fun v' =>
  Ok (<[j := <[i := v']> tj]> t)))).

(** The body of [for k, t in enumerate(self._temperatures)]. *)
Definition gamma_at_temperature (i j k : nat) (t : double) : M unit :=
  extern (ise_set_temperature t) ;;
  extern ise_run ;;
  v <- query ise_get_imag_self_energy ;;
  gamma <- attr _gamma ;;
  gamma' <- lift (setitem3 gamma j i k v) ;;
  modify (with_gamma (Some gamma')).

(** The body of [for j, sigma in enumerate(self._sigmas)]. *)
Definition gamma_at_sigma (i j : nat) (sigma : option double) : M unit :=
  log_level <- gets _log_level ;;
  when (negb (log_level =? 0))
    (emit (calculating_gamma_of_ph_ph (label_of sigma))) ;;
  extern (ise_set_sigma sigma) ;;
  when (not_sigma sigma) (extern ise_set_integration_weights) ;;
  temperatures <- gets _temperatures ;;
  for_enumerate temperatures (gamma_at_temperature i j).

Definition _set_gamma_at_sigmas (i : nat) : M unit :=
  sigmas <- gets _sigmas ;;
  for_enumerate sigmas (gamma_at_sigma i).

(** The body of the loop of [_set_gamma_isotope_at_sigmas]. *)
Definition gamma_isotope_at_sigma (i j : nat) (sigma : option double)
  : M unit :=
  log_level <- gets _log_level ;;
  when (negb (log_level =? 0))
    (emit (calculating_gamma_of_ph_isotope (label_of sigma))) ;;
  isotope <- gets _isotope ;;
  match isotope with
  | None => raise AttributeError
  | Some _ =>
      extern (isotope_set_sigma sigma) ;;
      extern isotope_set_phonons ;;
      extern (isotope_set_grid_point i) ;;
      extern isotope_run ;;
      v <- query isotope_get_gamma ;;
      gamma_iso <- attr _gamma_iso ;;
      gamma_iso' <- lift (setitem2 gamma_iso j i v) ;;
      modify (with_gamma_iso (Some gamma_iso'))
  end.

Definition _set_gamma_isotope_at_sigmas (i : nat) : M unit :=
  sigmas <- gets _sigmas ;;
  for_enumerate sigmas (gamma_isotope_at_sigma i).

(** ** The iterator: [__iter__], [next], [run]

    [next] calls [self._run_at_grid_point()], a method the class leaves to
    its subclasses. *)

Class Subclass : Type := { _run_at_grid_point : M unit }.

Context `{Sub : Subclass}.

Definition __iter__ (self : Conductivity) : Conductivity := self.

Definition next : M nat :=
  count <- gets _grid_point_count ;;
  grid_points <- attr _grid_points ;;
  if decide (count = Some (length grid_points)) then raise StopIteration
  else
    (_run_at_grid_point ;;
     count <- attr _grid_point_count ;;
     modify (with_grid_point_count (Some (count + 1)%nat)) ;;
     count' <- attr _grid_point_count ;;
     ret (count' - 1)%nat).

(** [for i in self: pass]: [next] is called until it raises
    [StopIteration], which ends the loop; any other exception leaves it.
    [fuel] bounds the number of calls, [None] means the bound was reached. *)
Fixpoint for_in (fuel : nat) (it : Conductivity)
  : option (outcome unit * Conductivity) :=
  match fuel with
  | O => None
  | S fuel' =>
      match next it with
      | (Ok _, it') => for_in fuel' it'
      | (Raise StopIteration, it') => Some (Ok tt, it')
      | (Raise e, it') => Some (Raise e, it')
      end
  end.

Definition run (fuel : nat) (self : Conductivity)
  : option (outcome unit * Conductivity) :=
  for_in fuel (__iter__ self).

(** Stepping by hand: [n] calls of [next], the indices they return in
    order. *)
Fixpoint step_by_step (n : nat) : M (list nat) :=
  match n with
  | O => ret []
  | S n' =>
      i <- next ;;
      rest <- step_by_step n' ;;
      ret (i :: rest)
  end.

End Driver.

(** ** Per-point processing

    The subclass that defines [_run_at_grid_point], and the accumulation it
    ends with, are not among the sources; they follow the description of the
    per-point processing for grid point index [i] (4.4) and of the
    accumulator (4.5). *)

Section PerPoint.

Context `{F : Float} `{K : !Kernels}.

(** Modelled from the spec: the conductivity accumulator (4.5), whose
    source is missing.  It is an arbitrary function of the instance and of
    the index that yields the new conductivity tensor, group velocities,
    heat capacities and running count of sampled star members. *)
Class Accumulator : Type := {
  accumulate : Conductivity -> nat -> tensor5 * tensor3 * tensor3 * Z
}.

Context `{Acc : Accumulator}.

(** Modelled from the spec: step 3 of the per-point processing, "accumulate
    this grid point's contribution into the final kappa tensor"; the method
    is missing from the sources. *)
Definition _set_kappa_at_sigmas (i : nat) : M unit :=
  self <- gets (fun self => self) ;;
  let '(kappa, gv, cv, num_kstar) := accumulate self i in
  modify (with_kappa (Some kappa)) ;;
  modify (with_gv (Some gv)) ;;
  modify (with_cv (Some cv)) ;;
  modify (with_sum_num_kstar (Some num_kstar)).

(** Modelled from the spec: [_run_at_grid_point], missing from the sources.
    For the grid point index [i] of the counter: the thermal linewidths for
    every sigma and temperature, unless gamma was supplied by the caller, in
    which case this step is skipped entirely; the isotope linewidths when
    isotope scattering is configured; the accumulation. *)
Definition per_point_processing : M unit :=
  i <- attr _grid_point_count ;;
  read_gamma <- gets _read_gamma ;;
  when (negb read_gamma) (_set_gamma_at_sigmas i) ;;
  isotope <- gets _isotope ;;
  match isotope with
  | Some _ => _set_gamma_isotope_at_sigmas i
  | None => ret tt
  end ;;
  _set_kappa_at_sigmas i.

(** Modelled from the spec: the subclass whose [_run_at_grid_point] is the
    per-point processing above. *)
#[export] Instance spec_subclass : Subclass :=
  {| _run_at_grid_point := per_point_processing |}.

End PerPoint.

(** * [phonopy/interface/FHIaims.py] *)

Section FHIaims.

Context `{F : Float} `{Py : Interpreter}.

(** [line.split()]: the fields between runs of white space. *)
Fixpoint split_from (word : str) (s : str) : list str :=
  match s with
  | [] =>
      match word with
      | [] => []
      | _ => [word]
      end
  | c :: s' =>
      if is_space c then
        match word with
        | [] => split_from [] s'
        | _ => word :: split_from [] s'
        end
      else split_from (word ++ [c]) s'
  end.

Definition str_split (line : str) : list str :=
  split_from [] line.

(** [l[a:b]] for [0 <= a <= b]. *)
Definition slice {A : Type} (a b : nat) (l : list A) : list A :=
  take (b - a) (drop a l).

(** [lmap(func, lis)]: the first failing element raises. *)
Fixpoint lmap {A B : Type} (func : A -> outcome B) (lis : list A)
  : outcome (list B) :=
  match lis with
  | [] => Ok []
  | x :: lis' =>
      obind (func x) (fun y =>
      obind (lmap func lis') (fun ys => Ok (y :: ys)))
  end.

Definition py_float (s : str) : outcome double :=
  match float s with
  | Some x => Ok x
  | None => Raise ValueError
  end.

(** [sum(l)]: left to right, from 0. *)
Definition py_sum (l : list double) : double := fold_left fadd l zero.

(** [l[-1] = v]. *)
Definition setitem_last {A : Type} (l : list A) (v : A) : outcome (list A) :=
  match l with
  | [] => Raise IndexError
  | _ => Ok (<[pred (length l) := v]> l)
  end.

(** [PhonopyAtoms(cell=..., symbols=..., positions=..., magmoms=...)]: the
    keyword arguments the object is built from; [magmoms] is [None] when
    the keyword is not passed. *)
Record Atoms : Type := mkAtoms {
  atoms_cell : list (list double);
  atoms_symbols : list str;
  atoms_positions : list (list double);
  atoms_magmoms : option (list double)
}.

(** The local variables of [read_aims]; [frac] is unbound ([None]) until an
    [atom] or [atom_frac] line assigns it, and keeps its value from one
    iteration to the next.  [stdout] collects what is printed. *)
Record locals : Type := mkLocals {
  cell : list (list double);
  is_frac : list bool;
  positions : list (list double);
  symbols : list str;
  magmoms : list (option double);
  constraints : list bool;
  constrain_warning : bool;
  frac : option bool;
  stdout : list string
}.

Definition bind_cell (v : list (list double)) (s : locals) : locals :=
  mkLocals v (is_frac s) (positions s) (symbols s) (magmoms s)
    (constraints s) (constrain_warning s) (frac s) (stdout s).

Definition bind_is_frac (v : list bool) (s : locals) : locals :=
  mkLocals (cell s) v (positions s) (symbols s) (magmoms s) (constraints s)
    (constrain_warning s) (frac s) (stdout s).

Definition bind_positions (v : list (list double)) (s : locals) : locals :=
  mkLocals (cell s) (is_frac s) v (symbols s) (magmoms s) (constraints s)
    (constrain_warning s) (frac s) (stdout s).

Definition bind_symbols (v : list str) (s : locals) : locals :=
  mkLocals (cell s) (is_frac s) (positions s) v (magmoms s) (constraints s)
    (constrain_warning s) (frac s) (stdout s).

Definition bind_magmoms (v : list (option double)) (s : locals) : locals :=
  mkLocals (cell s) (is_frac s) (positions s) (symbols s) v (constraints s)
    (constrain_warning s) (frac s) (stdout s).

Definition bind_constraints (v : list bool) (s : locals) : locals :=
  mkLocals (cell s) (is_frac s) (positions s) (symbols s) (magmoms s) v
    (constrain_warning s) (frac s) (stdout s).

Definition bind_constrain_warning (v : bool) (s : locals) : locals :=
  mkLocals (cell s) (is_frac s) (positions s) (symbols s) (magmoms s)
    (constraints s) v (frac s) (stdout s).

Definition bind_frac (v : option bool) (s : locals) : locals :=
  mkLocals (cell s) (is_frac s) (positions s) (symbols s) (magmoms s)
    (constraints s) (constrain_warning s) v (stdout s).

Definition bind_stdout (v : list string) (s : locals) : locals :=
  mkLocals (cell s) (is_frac s) (positions s) (symbols s) (magmoms s)
    (constraints s) (constrain_warning s) (frac s) v.

Definition R (A : Type) : Type := method locals A.

(** The body of [for line in lines]. *)
Definition read_line (line : str) : R unit :=
  let fields := str_split line in
  match fields with
  | [] => ret tt
  | keyword :: _ =>
      if str_eqb keyword (lit "lattice_vector") then
        (vec <- lift (lmap py_float (slice 1 4 fields)) ;;
         cell <- gets cell ;;
         modify (bind_cell (cell ++ [vec])))
      else if str_eqb (take 4 keyword) (lit "atom") then
        ((if str_eqb keyword (lit "atom") then modify (bind_frac (Some false))
          else if str_eqb keyword (lit "atom_frac") then
            modify (bind_frac (Some true))
          else ret tt) ;;
         pos <- lift (lmap py_float (slice 1 4 fields)) ;;
         sym <- lift (py_getitem fields 4) ;;
         frac <- gets frac ;;
         match frac with
         | None => raise UnboundLocalError
         | Some frac =>
             modify (fun s => bind_is_frac (is_frac s ++ [frac]) s) ;;
             modify (fun s => bind_positions (positions s ++ [pos]) s) ;;
             modify (fun s => bind_symbols (symbols s ++ [sym]) s) ;;
             modify (fun s => bind_magmoms (magmoms s ++ [None]) s) ;;
             modify (fun s => bind_constraints (constraints s ++ [false]) s) ;;
             modify (bind_constrain_warning false)
         end)
      else if str_eqb keyword (lit "initial_moment") then
        (field <- lift (py_getitem fields 1) ;;
         moment <- lift (py_float field) ;;
         magmoms <- gets magmoms ;;
         magmoms' <- lift (setitem_last magmoms (Some moment)) ;;
         modify (bind_magmoms magmoms'))
      else if str_eqb keyword (lit "constrain_relaxation") then
        (warning <- gets constrain_warning ;;
         if (warning : bool) then raise RuntimeError
         else
           (field <- lift (py_getitem fields 1) ;;
            (if str_eqb field (lit ".true.") then
               (constraints <- gets constraints ;;
                constraints' <- lift (setitem_last constraints true) ;;
                modify (bind_constraints constraints'))
             else ret tt) ;;
            modify (bind_constrain_warning true)))
      else ret tt
  end.

Fixpoint for_lines (lines : list str) : R unit :=
  match lines with
  | [] => ret tt
  | line :: lines' => read_line line ;; for_lines lines'
  end.

(** [[sum([pos[l] * cell[l][i] for l in range(3)]) for i in range(3)]]. *)
Definition cartesian (cell : list (list double)) (pos : list double)
  : outcome (list double) :=
  lmap (fun i =>
    obind (lmap (fun l =>
             obind (py_getitem pos l) (fun p =>
             obind (py_getitem cell l) (fun vec =>
             obind (py_getitem vec i) (fun c => Ok (fmul p c)))))
           (seq 0 3))
          (fun terms => Ok (py_sum terms)))
    (seq 0 3).

(** The body of [for (n, frac) in enumerate(is_frac)]. *)
Definition convert (n : nat) (frac : bool) : R unit :=
  if frac then
    (positions <- gets positions ;;
     cell <- gets cell ;;
     old <- lift (py_getitem positions n) ;;
     pos <- lift (cartesian cell old) ;;
     modify (bind_positions (<[n := pos]> positions)))
  else ret tt.

(** [a[mask].tolist()]. *)
Fixpoint select {A : Type} (a : list A) (mask : list bool) : list A :=
  match a, mask with
  | x :: a', b :: mask' => if b then x :: select a' mask' else select a' mask'
  | _, _ => []
  end.

(** The floats of [magmoms] when [None] is not among them. *)
Fixpoint all_floats (magmoms : list (option double)) : option (list double) :=
  match magmoms with
  | [] => Some []
  | None :: _ => None
  | Some x :: rest =>
      match all_floats rest with
      | Some xs => Some (x :: xs)
      | None => None
      end
  end.

Definition read_aims_body (lines : list str)
  : R (Atoms * Atoms * list bool) :=
  for_lines lines ;;
  is_frac <- gets is_frac ;;
  for_enumerate is_frac convert ;;
  symbols <- gets symbols ;;
  positions <- gets positions ;;
  magmoms <- gets magmoms ;;
  constraints <- gets constraints ;;
  (* [~constraints] on the float array that [asarray([])] gives *)
  (if decide (constraints = []) then raise TypeError else ret tt) ;;
  let keep := map negb constraints in
  let reduced_symbols := select symbols keep in
  let reduced_positions := select positions keep in
  let reduced_magmoms := select magmoms keep in
  when (existsb (fun c => c) constraints)
    (modify (fun s => bind_stdout (stdout s ++
       ["geometry.in contains constrained atoms. They will not be included to the Hessian."%string]) s)) ;;
  cell <- gets cell ;;
  match all_floats magmoms with
  | None =>
      ret (mkAtoms cell reduced_symbols reduced_positions None,
           mkAtoms cell symbols positions None,
           constraints)
  | Some _ =>
      ret (mkAtoms cell reduced_symbols reduced_positions
             (all_floats reduced_magmoms),
           mkAtoms cell symbols positions (all_floats magmoms),
           constraints)
  end.

(** [read_aims] applied to the lines of the file. *)
Definition read_aims (lines : list str)
  : outcome (Atoms * Atoms * list bool) * locals :=
  read_aims_body lines (mkLocals [] [] [] [] [] [] true None []).

End FHIaims.

(** ** [write_aims] *)

Section FHIaimsWrite.

Context `{F : Float}.

(** ["%16.16f" % x] and ["%16.6f" % x] for a float [x]. *)
Class Printf : Type := {
  format_16_16f : double -> str;
  format_16_6f : double -> str
}.

Context `{P : Printf}.

(** What [write_aims] asks of the [PhonopyAtoms] object it is given: the
    answers of the five getters it calls. *)
Record PhonopyAtoms : Type := mkPhonopyAtoms {
  get_cell : list (list double);
  get_number_of_atoms : nat;
  get_positions : list (list double);
  get_chemical_symbols : list str;
  get_magnetic_moments : option (list double)
}.

(** The line feed. *)
Definition LF : str := [10%N].

(** [("%16.16f " * 3) % tuple(vec)]: three floats, each followed by a
    blank; any other number of values is a [TypeError]. *)
Definition three_floats (vec : list double) : outcome str :=
  match vec with
  | [x; y; z] =>
      Ok (format_16_16f x ++ lit " " ++ format_16_16f y ++ lit " " ++
          format_16_16f z ++ lit " ")
  | _ => Raise TypeError
  end.

(** The body of [for vec in atoms.get_cell()]. *)
Definition write_vec (vec : list double) (lines : str) : outcome str :=
  obind (three_floats vec) (fun floats =>
  Ok (lines ++ lit "lattice_vector " ++ floats ++ LF)).

Fixpoint for_vecs (cell : list (list double)) (lines : str)
  : outcome str :=
  match cell with
  | [] => Ok lines
  | vec :: cell' => obind (write_vec vec lines) (for_vecs cell')
  end.

(** The body of [for n in range(N)]. *)
Definition write_atom (atoms : PhonopyAtoms) (constraints : option (list bool))
    (n : nat) (lines : str) : outcome str :=
  obind (py_getitem (get_positions atoms) n) (fun pos =>
  obind (py_getitem (get_chemical_symbols atoms) n) (fun sym =>
  obind (three_floats pos) (fun floats =>
  let lines := lines ++ lit "atom " ++ floats ++ sym ++ lit " " ++ LF in
  obind
    match get_magnetic_moments atoms with
    | Some magmoms =>
        obind (py_getitem magmoms n) (fun moment =>
        Ok (lines ++ lit "initial_moment " ++ format_16_6f moment ++ LF))
    | None => Ok lines
    end (fun lines =>
  match constraints with
  | Some constraints =>
      obind (py_getitem constraints n) (fun constrained =>
      Ok (if (constrained : bool)
          then lines ++ lit "constrain_relaxation .true." ++ LF
          else lines))
  | None => Ok lines
  end)))).

Fixpoint for_atoms (atoms : PhonopyAtoms) (constraints : option (list bool))
    (range : list nat) (lines : str) : outcome str :=
  match range with
  | [] => Ok lines
  | n :: range' =>
      obind (write_atom atoms constraints n lines)
        (for_atoms atoms constraints range')
  end.

(** [write_aims]: the text handed to [f.write], or the exception raised
    before the file is opened. *)
Definition write_aims (atoms : PhonopyAtoms) (constraints : option (list bool))
  : outcome str :=
  let lines :=
    lit "" ++ lit "# geometry.in for FHI-aims " ++ LF ++
    lit "# | generated by phonopy.FHIaims.write_aims() " ++ LF in
  obind (for_vecs (get_cell atoms) lines) (fun lines =>
  for_atoms atoms constraints (seq 0 (get_number_of_atoms atoms)) lines).

End FHIaimsWrite.

(** * A small concrete instantiation

    Used to run the definitions on explicit inputs: doubles are rendered by
    integers, [float] reads decimal integers and the two formats print them
    (the second after two blanks), no kernel call raises, the
    self-energy and isotope kernels answer with three bands whose value is
    the number of calls made so far, the irreducible coarse grid has two
    points that share the whole coarse mesh between them, and the
    accumulation counts one star member per point. *)

Fixpoint decimal (s : str) (acc : Z) : option Z :=
  match s with
  | [] => Some acc
  | c :: s' =>
      if ((48 <=? c) && (c <=? 57))%N
      then decimal s' (10 * acc + Z.of_N (c - 48))
      else None
  end.

Definition integer_of_string (s : str) : option Z :=
  match s with
  | [] => None
  | 45%N :: c :: s' => Z.opp <$> decimal (c :: s') 0
  | _ => decimal s 0
  end.

#[export] Instance integer_float : Float := {|
  double := Z;
  zero := 0;
  nonzero := fun x => negb (x =? 0);
  truediv := Z.div;
  fadd := Z.add;
  fmul := Z.mul;
  float := integer_of_string
|}.

#[export] Instance quiet_kernels : Kernels := {|
  raises := fun _ => None;
  ise_get_imag_self_energy := fun h => replicate 3 (Z.of_nat (length h));
  isotope_get_gamma := fun h => replicate 3 (Z.of_nat (length h));
  pp_get_phonons := fun _ => [];
  get_grid_address := fun _ => [[0; 0; 0]; [1; 0; 0]];
  reduce_grid_points := fun _ _ given _ => given;
  get_ir_grid_points := fun coarse _ _ =>
    ([0; 1], [1; fold_left Z.mul coarse 1 - 1], [[0; 0; 0]; [1; 0; 0]]);
  from_coarse_to_dense_grid_points := fun _ _ points _ _ => points
|}.

#[export] Instance counting_accumulator : Accumulator := {|
  accumulate := fun self _ =>
    (default [] (_kappa self), default [] (_gv self), default [] (_cv self),
     default 0 (_sum_num_kstar self) + 1)
|}.

(** A 2 x 2 x 2 mesh with one atom in the primitive cell. *)
Definition cube : Interaction :=
  mkInteraction [2; 2; 2]
    [[0; 0; 0]; [1; 0; 0]; [0; 1; 0]; [1; 1; 0];
     [0; 0; 1]; [1; 0; 1]; [0; 1; 1]; [1; 1; 1]] 1.

Definition identity_only : Symmetry :=
  mkSymmetry [[[1; 0; 0]; [0; 1; 0]; [0; 0; 1]]].

(** Decimal digits of a natural number, most significant first. *)
Fixpoint digits_from (fuel : nat) (n : Z) (acc : str) : str :=
  match fuel with
  | O => acc
  | S fuel' =>
      let acc' := (48 + Z.to_N (n mod 10))%N :: acc in
      if n / 10 =? 0 then acc' else digits_from fuel' (n / 10) acc'
  end.

Definition print_integer (x : Z) : str :=
  if x <? 0
  then 45%N :: digits_from (S (Z.to_nat (- x))) (- x) []
  else digits_from (S (Z.to_nat x)) x [].

#[export] Instance integer_printf : Printf (F := integer_float) := {|
  format_16_16f := print_integer;
  format_16_6f := fun x => lit "  " ++ print_integer x
|}.

(** * The vocabulary of the statements

    Definitions that the properties below are stated with: invariants of
    methods, the closed forms of the loops, the instances used in the
    examples and the reading of a geometry file that [read_aims] is compared
    with. *)

Section MethodsTerms.

Context {Self : Type}.

(** An invariant that a method keeps whatever its outcome. *)
Definition stable {A : Type} (I : Self -> Prop) (m : method Self A) : Prop :=
  forall self, I self -> I (snd (m self)).

End MethodsTerms.

Section CallsTerms.

Context `{F : Float} `{K : !Kernels}.

Definition ignores_history (I : Conductivity -> Prop) : Prop :=
  forall self h, I self -> I (with_history h self).

End CallsTerms.

Section MeshNumbersTerms.

Context `{F : Float} `{K : !Kernels}.

(** The divisor the loop keeps for one axis. *)
Definition effective (m n : Z) : Z := if np_mod m n =? 0 then n else 1.

(** The diagnostic of the divisor loop for axis [i]. *)
Definition divisor_message (i : nat) (m n : Z) : list call :=
  if np_mod m n =? 0 then []
  else match axis_names !! i with
       | Some axis => [print (not_dividable axis m n)]
       | None => []
       end.

Fixpoint divisor_messages (i : nat) (pairs : list (Z * Z)) : list call :=
  match pairs with
  | [] => []
  | (m, n) :: rest => divisor_message i m n ++ divisor_messages (S i) rest
  end.

(** The flag the shift loop leaves on an axis, and its diagnostic. *)
Definition kept_shift (flag : bool) (d : Z) : bool :=
  flag && (np_mod d 2 =? 0).

Definition shift_message (i : nat) (flag : bool) (d : Z) : list call :=
  if flag && negb (np_mod d 2 =? 0) then
    match axis_names !! i with
    | Some axis => [print (can_not_be_shifted axis)]
    | None => []
    end
  else [].

Definition log_message (log_level : Z) (coarse : list Z) : list call :=
  if negb (log_level =? 0) then [print (lifetime_sampling_mesh coarse)]
  else [].

End MeshNumbersTerms.

Section MeshFoldingTerms.

Context `{F : Float} `{K : !Kernels}.

(** What is claimed of the divisors: on every axis the kept divisor is the
    requested one when the remainder is zero and 1 otherwise, the rejection
    is reported under the axis name, and coarse mesh times kept divisor gives
    the mesh back. *)
Definition mesh_folding (mesh requested : list Z) (self : Conductivity)
  : Prop :=
  exists divisors coarse,
    get_mesh_divisors self = Some divisors /\
    _coarse_mesh self = Some coarse /\
    forall i m n,
      mesh !! i = Some m -> requested !! i = Some n ->
      exists axis e c,
        axis_names !! i = Some axis /\
        divisors !! i = Some e /\
        coarse !! i = Some c /\
        e = (if np_mod m n =? 0 then n else 1) /\
        (In (print (not_dividable axis m n)) (history self) <->
         np_mod m n <> 0) /\
        c * e = m.

(** What is claimed of the shifts: a flag on an axis whose kept divisor is
    odd is stored as False, with a diagnostic if it was set, and a stored
    flag is True only over an even divisor. *)
Definition shifts_validated (flags : list bool) (self : Conductivity)
  : Prop :=
  exists stored divisors,
    _coarse_mesh_shifts self = Some stored /\
    get_mesh_divisors self = Some divisors /\
    forall i flag d,
      flags !! i = Some flag -> divisors !! i = Some d ->
      exists axis kept,
        axis_names !! i = Some axis /\
        stored !! i = Some kept /\
        (Z.odd d = true ->
         kept = false /\
         (flag = true ->
          In (print (can_not_be_shifted axis)) (history self))) /\
        (kept = true -> Z.even d = true).

End MeshFoldingTerms.

Section InitializeTerms.

Context `{F : Float} `{K : !Kernels}.

(** What holds of every instance the constructor returns. *)
Definition constructed (pp : Interaction) (sym : Symmetry) (nks : bool)
    (mesh d coarse : list Z) (self : Conductivity) : Prop :=
  _pp self = pp /\ _symmetry self = sym /\ _no_kappa_stars self = nks /\
  _mesh self = Some mesh /\ _mesh_divisors self = Some d /\
  _coarse_mesh self = Some coarse /\
  np_binop np_floordiv mesh d = Ok coarse /\
  _read_gamma self = false /\ _grid_point_count self = None.

(** The mesh shifts handed to the irreducible-grid routine. *)
Definition mesh_shifts_of (self : Conductivity) : list bool :=
  match _coarse_mesh_shifts self with
  | None => [false; false; false]
  | Some s => s
  end.

(** The weights the irreducible-grid routine returns for an instance. *)
Definition ir_weights (coarse : list Z) (self : Conductivity) : list Z :=
  snd (fst (get_ir_grid_points coarse (pointgroup_operations (_symmetry self))
              (mesh_shifts_of self))).

End InitializeTerms.

(** The instance the constructor returns for the 2 x 2 x 2 mesh, the
    temperatures 0 and 300 and the tetrahedron method. *)
Definition cube_instance : Conductivity :=
  mkConductivity (F := integer_float) cube identity_only [0; 300] [None]
    false 0 None None None None None false None None None None None
    (Some [2; 2; 2]) (Some [1; 1; 1]) (Some [2; 2; 2]) None None None None
    None [].

Section IteratorTerms.

Context `{F : Float} `{K : !Kernels} `{Sub : !Subclass}.

(** A per-point method that leaves the cursor of the iterator alone: it
    assigns neither [_grid_point_count] nor [_grid_points]. *)
Definition keeps_cursor (m : M unit) : Prop :=
  forall self,
    _grid_point_count (snd (m self)) = _grid_point_count self /\
    _grid_points (snd (m self)) = _grid_points self.

(** How [for i in self: pass] ends on what the calls of [next] gave:
    [StopIteration] ends the loop normally, another exception leaves it. *)
Definition end_of_loop {A : Type} (r : outcome A * Conductivity)
  : outcome unit * Conductivity :=
  match r with
  | (Ok _, it) => (Ok tt, it)
  | (Raise StopIteration, it) => (Ok tt, it)
  | (Raise e, it) => (Raise e, it)
  end.

(** The instance after [n] calls of [next], whatever they returned. *)
Definition after_calls (n : nat) (self : Conductivity) : Conductivity :=
  Nat.iter n (fun it => snd (next it)) self.

(** An observable that tells how many grid points have been processed:
    every call of the per-point method that returns raises it by one, and
    assigning the counter does not change it. *)
Definition counts_points (tally : Conductivity -> Z) (m : M unit) : Prop :=
  (forall self u, fst (m self) = Ok u -> tally (snd (m self)) = tally self + 1) /\
  (forall self v, tally (with_grid_point_count v self) = tally self).

End IteratorTerms.

Section SuppliedGammaTerms.

Context `{F : Float} `{K : !Kernels} `{Acc : !Accumulator}.

(** The calls that drive the self-energy kernel. *)
Definition is_ise_call (c : call) : bool :=
  match c with
  | ise_set_sigma _ | ise_set_integration_weights | ise_set_temperature _
  | ise_run => true
  | _ => false
  end.

(** The state of an externally supplied linewidth array [g], with the
    self-energy calls made so far. *)
Definition supplied (g : tensor4) (ise : list call) (self : Conductivity)
  : Prop :=
  _read_gamma self = true /\ _gamma self = Some g /\
  filter is_ise_call (history self) = ise.

End SuppliedGammaTerms.

Section IntegrationWeightsTerms.

Context `{F : Float} `{K : !Kernels}.

Definition is_weights_request (c : call) : bool :=
  match c with
  | ise_set_integration_weights => true
  | _ => false
  end.

(** The number of requests for tetrahedron integration weights made so
    far. *)
Definition requests (self : Conductivity) : nat :=
  length (filter is_weights_request (history self)).

(** What [not sigma] adds to that number for one entry of [sigmas]. *)
Definition request_of (sigma : option double) : nat :=
  if not_sigma sigma then 1%nat else 0%nat.

(** A call that has been made stays in the history. *)
Definition made (c : call) (self : Conductivity) : Prop :=
  In c (history self).

End IntegrationWeightsTerms.

Section AllocationTerms.

Context `{F : Float} `{K : !Kernels}.

(** A four-dimensional array of shape [a x b x c x d]. *)
Definition has_shape4 (a b c d : nat) (t : tensor4) : Prop :=
  length t = a /\
  Forall (fun x =>
    length x = b /\
    Forall (fun y =>
      length y = c /\ Forall (fun z => length z = d) y) x) t.

(** The shape [_allocate_values] gives to the array it creates itself. *)
Definition expected_shape (self : Conductivity) (t : tensor4) : Prop :=
  has_shape4 (length (_sigmas self))
    (length (default [] (_grid_points self)))
    (length (_temperatures self))
    (pp_number_of_atoms (_pp self) * 3) t.

(** A method that does not look at the linewidth array of an instance
    whose array was supplied: it gives the same outcome for any array, and
    carries the array along. *)
Definition blind {A : Type} (m : M A) : Prop :=
  forall self v,
    _read_gamma self = true ->
    m (with_gamma v self) = (fst (m self), with_gamma v (snd (m self))) /\
    _read_gamma (snd (m self)) = true.

End AllocationTerms.

(** The instance of the examples after [initialize(None)] and two steps
    with the per-point method of the spec and the counting accumulator. *)
Definition cube_done : Conductivity :=
  snd (step_by_step (Sub := spec_subclass) 2
         (snd (initialize None cube_instance))).

(** An instance with the single smearing width 0 and logging on, after
    [initialize(None)]. *)
Definition zero_width_instance : Conductivity :=
  mkConductivity (F := integer_float) cube identity_only [0; 300] [Some 0]
    false 1 None None None None None false None None None None None
    (Some [2; 2; 2]) (Some [1; 1; 1]) (Some [2; 2; 2]) None None None None
    None [print (lifetime_sampling_mesh [2; 2; 2])].

Definition zero_width_ready : Conductivity :=
  snd (initialize None zero_width_instance).

Section GeometryTerms.

Context `{F : Float} `{Py : !Interpreter}.

(** ** The geometry file as the claim reads it

    A line whose first field begins with [atom] is an atom line; the lines
    after it, up to the next atom line, are its followers; the atom is
    marked when a follower reads [constrain_relaxation .true.]. *)

Definition is_atom_line (fields : list str) : bool :=
  match fields with
  | keyword :: _ => (str_eqb (take 4 keyword) (lit "atom"))
  | [] => false
  end.

Definition is_constrain_true (fields : list str) : bool :=
  match fields with
  | keyword :: value :: _ =>
      (str_eqb keyword (lit "constrain_relaxation")) && (str_eqb value (lit ".true."))
  | _ => false
  end.

Fixpoint followers (file : list (list str)) : list (list str) :=
  match file with
  | [] => []
  | fields :: file' =>
      if is_atom_line fields then [] else fields :: followers file'
  end.

Record atom_entry : Type := mkEntry {
  entry_keyword : str;
  entry_coordinates : list str;
  entry_symbol : str;
  entry_marked : bool
}.

Fixpoint atom_entries (file : list (list str)) : list atom_entry :=
  match file with
  | [] => []
  | fields :: file' =>
      if is_atom_line fields then
        mkEntry (hd [] fields) (slice 1 4 fields)
          (default [] (fields !! 4%nat))
          (existsb is_constrain_true (followers file'))
        :: atom_entries file'
      else atom_entries file'
  end.

(** The [frac] flag the parser records for an entry of a known kind. *)
Definition flag_of (e : atom_entry) (flag : bool) : Prop :=
  (entry_keyword e = lit "atom" -> flag = false) /\
  (entry_keyword e = lit "atom_frac" -> flag = true).

(** The coordinates of an entry as floats. *)
Definition given_of (e : atom_entry) (pos : list double) : Prop :=
  lmap py_float (entry_coordinates e) = Ok pos.



(** [constraints[-1] = True] when [b], on a list that may be empty. *)
Definition mark_last (cs : list bool) (b : bool) : list bool :=
  if b then <[pred (length cs) := true]> cs else cs.

End GeometryTerms.


Section SelectionTerms.

Context `{F : Float} `{K : !Kernels}.

(** The tensors [_allocate_values] creates for [n] grid points. *)
Definition zeros3 (a b c : nat) : tensor3 :=
  replicate a (replicate b (replicate c zero)).

Definition zeros4 (a b c d : nat) : tensor4 :=
  replicate a (replicate b (replicate c (replicate d zero))).

Definition zeros5 (a b c d e : nat) : tensor5 :=
  replicate a (replicate b (replicate c (replicate d (replicate e zero)))).

(** The three ways [initialize] selects the grid points. *)
Definition select_grid_points (grid_points : option (list Z)) : M unit :=
  match grid_points with
  | Some given => specified_grid_points given
  | None =>
      no_kappa_stars <- gets _no_kappa_stars ;;
      if (no_kappa_stars : bool) then all_grid_points
      else automatic_sampling
  end.

(** The instance [_allocate_values] leaves for [n] grid points. *)
Definition allocated (n : nat) (self : Conductivity) : Conductivity :=
  let ns := length (_sigmas self) in
  let nt := length (_temperatures self) in
  let nb := (pp_number_of_atoms (_pp self) * 3)%nat in
  with_gamma_iso (Some (zeros3 ns n nb))
    (with_cv (Some (zeros3 n nt nb))
       (with_gv (Some (zeros3 n nb 3))
          ((if _read_gamma self then (fun it => it)
            else with_gamma (Some (zeros4 ns n nt nb)))
             (with_kappa (Some (zeros5 ns n nt nb 6)) self)))).

(** The instance [initialize] returns, from the one its selection of grid
    points [gps] left and the q-points computed for them. *)
Definition made_ready (s1 : Conductivity) (gps : list Z)
    (qpoints : list (list double)) : Conductivity :=
  let s2 :=
    allocated (length gps)
      (with_grid_point_count (Some 0%nat)
         (with_sum_num_kstar (Some 0)
            (with_qpoints (Some qpoints) s1))) in
  let s3 := with_history (history s2 ++ [pp_set_phonon gps]) s2 in
  with_frequencies (Some (pp_get_phonons (history s3))) s3.

End SelectionTerms.

(** ** Subscripting by grid points: q-points and frequencies *)

(** An index numpy accepts for an axis of length [n]. *)
Definition in_range (n : nat) (i : Z) : Prop :=
  - Z.of_nat n <= i < Z.of_nat n.

(** The position an accepted index stands for. *)
Definition position (n : nat) (i : Z) : nat :=
  Z.to_nat (if i <? 0 then i + Z.of_nat n else i).

Section LinewidthCallsTerms.

Context `{F : Float} `{K : !Kernels}.

(** The calls of one pass of the temperature loop. *)
Definition temperature_calls (t : double) : list call :=
  [ise_set_temperature t; ise_run].

(** What a logging branch prints for one sigma at a log level. *)
Definition logged (log_level : Z) (msg : message) : list call :=
  if negb (log_level =? 0) then [print msg] else [].

(** The calls of one pass of the sigma loop of [_set_gamma_at_sigmas]. *)
Definition sigma_calls (log_level : Z) (temperatures : list double)
    (sigma : option double) : list call :=
  logged log_level (calculating_gamma_of_ph_ph (label_of sigma)) ++
  [ise_set_sigma sigma] ++
  (if not_sigma sigma then [ise_set_integration_weights] else []) ++
  flat_map temperature_calls temperatures.

(** The calls of one pass of the loop of [_set_gamma_isotope_at_sigmas]. *)
Definition isotope_calls (log_level : Z) (i : nat) (sigma : option double)
  : list call :=
  logged log_level (calculating_gamma_of_ph_isotope (label_of sigma)) ++
  [isotope_set_sigma sigma; isotope_set_phonons; isotope_set_grid_point i;
   isotope_run].

End LinewidthCallsTerms.

Section WritesTerms.

Context `{F : Float}.

(** The lengths along every axis. *)
Definition shape3 (t : tensor3) : list (list nat) :=
  fmap (M := list) (fmap (M := list) length) t.
Definition shape4 (t : tensor4) : list (list (list nat)) :=
  fmap (M := list) (fmap (M := list) (fmap (M := list) length)) t.

(** The part of a tensor at sigma [j] and grid point [i]. *)
Definition at_point {A : Type} (t : list (list A)) (j i : nat) : option A :=
  match t !! j with
  | Some tj => tj !! i
  | None => None
  end.

(** Tensors that differ at most at grid point [i]. *)
Definition same_elsewhere {A : Type} (i : nat) (t t0 : list (list A)) : Prop :=
  forall j i', i' <> i -> at_point t j i' = at_point t0 j i'.

End WritesTerms.

Section LinewidthFramesTerms.

Context `{F : Float} `{K : !Kernels}.

(** What the linewidth loops leave alone besides the tensor they fill. *)
Definition results_kept (self0 it : Conductivity) : Prop :=
  _kappa it = _kappa self0 /\ _gv it = _gv self0 /\ _cv it = _cv self0 /\
  _grid_point_count it = _grid_point_count self0 /\
  _sum_num_kstar it = _sum_num_kstar self0 /\
  _grid_points it = _grid_points self0 /\
  _grid_weights it = _grid_weights self0 /\
  _frequencies it = _frequencies self0 /\
  _read_gamma it = _read_gamma self0.

(** The thermal linewidths written for grid point [i] only. *)
Definition thermal_frame (i : nat) (self0 it : Conductivity) : Prop :=
  results_kept self0 it /\
  _gamma_iso it = _gamma_iso self0 /\
  match _gamma self0 with
  | Some g0 =>
      exists g, _gamma it = Some g /\ shape4 g = shape4 g0 /\
                same_elsewhere i g g0
  | None => _gamma it = None
  end.

(** The isotope linewidths written for grid point [i] only, and no call
    to the self-energy kernel. *)
Definition isotope_frame (i : nat) (self0 it : Conductivity) : Prop :=
  results_kept self0 it /\
  _gamma it = _gamma self0 /\
  filter is_ise_call (history it) = filter is_ise_call (history self0) /\
  match _gamma_iso self0 with
  | Some g0 =>
      exists g, _gamma_iso it = Some g /\ shape3 g = shape3 g0 /\
                same_elsewhere i g g0
  | None => _gamma_iso it = None
  end.

End LinewidthFramesTerms.

Section LinewidthPropertiesTerms.

Context `{F : Float} `{K : !Kernels}.

Definition is_run (c : call) : bool :=
  match c with
  | ise_run => true
  | _ => false
  end.

End LinewidthPropertiesTerms.

Section LinesTerms.

Context `{F : Float} `{Py : !Interpreter}.

(** The kinds of lines [read_aims] tells apart, by the first field. *)
Definition is_atom (line : str) : bool := is_atom_line (str_split line).

Definition has_keyword (keyword : str) (line : str) : bool :=
  match str_split line with
  | first :: _ => str_eqb first keyword
  | [] => false
  end.

(** A line [read_aims] passes over: a blank one, or one whose first field
    is none of the four keywords (a comment, say). *)
Definition is_ignored (line : str) : bool :=
  match str_split line with
  | [] => true
  | first :: _ =>
      negb (str_eqb first (lit "lattice_vector")) &&
      negb (str_eqb (take 4 first) (lit "atom")) &&
      negb (str_eqb first (lit "initial_moment")) &&
      negb (str_eqb first (lit "constrain_relaxation"))
  end.

(** The local variables of [read_aims] before its loop, and the loop
    getting through some lines from there. *)
Definition start : locals := mkLocals [] [] [] [] [] [] true None [].

Definition reads_through (lines : list str) : Prop :=
  fst (for_lines lines start) = Ok tt.

(** The local variables as long as no atom line was read. *)
Definition atomless (s : locals) : Prop :=
  is_frac s = [] /\ positions s = [] /\ symbols s = [] /\ magmoms s = [] /\
  constraints s = [] /\ constrain_warning s = true /\ frac s = None /\
  stdout s = [].

(** The value of [constrain_warning] after some lines, from its value
    [w] before them: an atom line clears it, a [constrain_relaxation] line
    sets it, no other line assigns it. *)
Fixpoint warned_from (w : bool) (lines : list str) : bool :=
  match lines with
  | [] => w
  | line :: rest =>
      warned_from
        (if is_atom line then false
         else if has_keyword (lit "constrain_relaxation") line then true
         else w)
        rest
  end.

End LinesTerms.

Section MomentsTerms.

Context `{F : Float} `{Py : !Interpreter}.

(** The value field of an [initial_moment] line. *)
Definition moment_field (fields : list str) : option str :=
  match fields with
  | keyword :: value :: _ =>
      if (str_eqb keyword (lit "initial_moment")) then Some value else None
  | _ => None
  end.

(** The value of the last [initial_moment] line among some lines, [acc]
    when there is none. *)
Fixpoint last_moment (acc : option str) (lines : list (list str))
  : option str :=
  match lines with
  | [] => acc
  | fields :: rest =>
      last_moment
        (match moment_field fields with
         | Some value => Some value
         | None => acc
         end)
        rest
  end.

(** For each atom line of the file, in order, the value of the last
    [initial_moment] line among its followers. *)
Fixpoint atom_moments (file : list (list str)) : list (option str) :=
  match file with
  | [] => []
  | fields :: file' =>
      if is_atom_line fields then
        last_moment None (followers file') :: atom_moments file'
      else atom_moments file'
  end.

Definition moment_of (field : option str) : option double :=
  match field with
  | Some value => float value
  | None => None
  end.

(** [magmoms[-1] = float(value)] when there is a value. *)
Definition set_last (l : list (option double)) (field : option str)
  : list (option double) :=
  match field with
  | Some value => <[pred (length l) := float value]> l
  | None => l
  end.

Definition parses (field : option str) : Prop :=
  match field with
  | Some value => is_Some (float value)
  | None => True
  end.

End MomentsTerms.

(** ** The examples run on the small instantiation *)

(** A per-point method that fails at once. *)
Definition failing_subclass : Subclass (F := integer_float) :=
  {| _run_at_grid_point := raise ValueError |}.

(** The instance of the examples after [initialize(None)]. *)
Definition cube_ready : Conductivity :=
  snd (initialize None cube_instance).

(** The instance the constructor returns for the 2 x 2 x 2 mesh with
    [no_kappa_stars] set. *)
Definition cube_all_points : Conductivity :=
  mkConductivity (F := integer_float) cube identity_only [0; 300] [None]
    true 0 None None None None None false None None None None None
    (Some [2; 2; 2]) (Some [1; 1; 1]) (Some [2; 2; 2]) None None None None
    None [].

(** A geometry file in which every atom has a moment. *)
Definition moments_in : list str :=
  map lit
    ["lattice_vector 1 0 0"; "atom 0 0 0 H"; "initial_moment 1";
     "atom 1 1 1 O"; "initial_moment 2"; "initial_moment 3";
     "constrain_relaxation .true."].

Section SplittingTerms.

Context `{Py : Interpreter}.

(** No white space; blanks only; neither line feed nor carriage return. *)
Definition no_space (s : str) : bool :=
  forallb (fun c => negb (is_space c)) s.

Definition blanks (s : str) : bool :=
  forallb (fun c => (c =? 32)%N) s.

Definition no_newline (s : str) : bool :=
  forallb (fun c => negb (c =? 10)%N && negb (c =? 13)%N) s.

(** A field of a line: not empty and without white space. *)
Definition word (s : str) : Prop :=
  s <> [] /\ no_space s = true.

(** Printable ASCII other than the blank. *)
Definition printable (s : str) : bool :=
  forallb (fun c => (33 <=? c)%N && (c <=? 126)%N) s.

(** What both interpreters agree on: the blank, the line feed and the
    carriage return are white space, the printable ASCII characters are
    not. *)
Definition usual_white_space : Prop :=
  is_space 32%N = true /\ is_space 10%N = true /\ is_space 13%N = true /\
  forall c, (33 <=? c)%N && (c <=? 126)%N = true -> is_space c = false.

End SplittingTerms.

Section WriteLayoutTerms.

Context `{F : Float} `{P : !Printf}.

(** The lines of the file, each with its line feed. *)
Definition floats_text (vec : list double) : str :=
  fold_right (fun x rest => format_16_16f x ++ lit " " ++ rest) [] vec.

Definition header_lines : list str :=
  [lit "# geometry.in for FHI-aims " ++ LF;
   lit "# | generated by phonopy.FHIaims.write_aims() " ++ LF].

Definition lattice_vector_line (vec : list double) : str :=
  lit "lattice_vector " ++ floats_text vec ++ LF.

Definition atom_line (pos : list double) (sym : str) : str :=
  lit "atom " ++ floats_text pos ++ sym ++ lit " " ++ LF.

Definition initial_moment_line (moment : double) : str :=
  lit "initial_moment " ++ format_16_6f moment ++ LF.

Definition constrain_relaxation_line : str :=
  lit "constrain_relaxation .true." ++ LF.

(** The lines written for one atom. *)
Definition atom_block (pos : list double) (sym : str)
    (moment : option double) (constrained : bool) : list str :=
  atom_line pos sym ::
  match moment with
  | Some m => [initial_moment_line m]
  | None => []
  end ++
  (if constrained then [constrain_relaxation_line] else []).

(** The data of atom [n], when all of it is there: its position of three
    numbers, its symbol, its moment when the object has moments, its flag
    when constraints are given. *)
Definition atom_data (atoms : PhonopyAtoms) (constraints : option (list bool))
    (n : nat) : option (list double * str * option double * bool) :=
  match get_positions atoms !! n, get_chemical_symbols atoms !! n with
  | Some pos, Some sym =>
      match
        match get_magnetic_moments atoms with
        | Some magmoms => option_map Some (magmoms !! n)
        | None => Some None
        end,
        match constraints with
        | Some constraints => constraints !! n
        | None => Some false
        end
      with
      | Some moment, Some constrained =>
          if decide (length pos = 3%nat)
          then Some (pos, sym, moment, constrained)
          else None
      | _, _ => None
      end
  | _, _ => None
  end.

Definition block_of (d : list double * str * option double * bool)
  : list str :=
  let '(pos, sym, moment, constrained) := d in
  atom_block pos sym moment constrained.

(** The data of the atoms of a range, when all of it is there. *)
Fixpoint all_data (atoms : PhonopyAtoms) (constraints : option (list bool))
    (range : list nat)
  : option (list (list double * str * option double * bool)) :=
  match range with
  | [] => Some []
  | n :: range' =>
      match atom_data atoms constraints n,
            all_data atoms constraints range' with
      | Some d, Some ds => Some (d :: ds)
      | _, _ => None
      end
  end.

(** The lines [write_aims] writes for a cell and the data of the atoms. *)
Definition file_lines (cell : list (list double))
    (ds : list (list double * str * option double * bool)) : list str :=
  header_lines ++ map lattice_vector_line cell ++ flat_map block_of ds.

(** A line of a file: text without a line feed or a carriage return, then
    the line feed. *)
Definition is_line (line : str) : Prop :=
  exists content, line = content ++ LF /\ no_newline content = true.

(** Data whose formatted floats and symbol hold no line break. *)
Definition clean (d : list double * str * option double * bool) : Prop :=
  let '(pos, sym, moment, _) := d in
  Forall (fun x => no_newline (format_16_16f x) = true) pos /\
  no_newline sym = true /\
  match moment with
  | Some m => no_newline (format_16_6f m) = true
  | None => True
  end.

End WriteLayoutTerms.

Section RoundTripTerms.

Context `{F : Float} `{Py : !Interpreter} `{P : !Printf}.

(** The field a format prints a number as: after blanks, a word that
    [float] reads as the same number. *)
Definition token (format : double -> str) (x : double) (t : str) : Prop :=
  exists pad : str,
    format x = pad ++ t /\ blanks pad = true /\ word t /\
    float t = Some x.

(** A number survives a format when it is printed as such a field. *)
Definition survives (format : double -> str) (x : double) : Prop :=
  exists t : str, token format x t.

(** Data that is read back: three numbers that survive, a symbol that is
    a word, a moment that survives. *)
Definition readable (d : list double * str * option double * bool)
  : Prop :=
  let '(pos, sym, moment, _) := d in
  length pos = 3%nat /\ Forall (survives format_16_16f) pos /\ word sym /\
  match moment with
  | Some m => survives format_16_6f m
  | None => True
  end.

(** The local variables after the lines of some atoms. *)
Definition after_atom (s : locals)
    (d : list double * str * option double * bool) : locals :=
  let '(pos, sym, moment, constrained) := d in
  mkLocals (cell s) (is_frac s ++ [false]) (positions s ++ [pos])
    (symbols s ++ [sym]) (magmoms s ++ [moment])
    (constraints s ++ [constrained]) constrained (Some false) (stdout s).

Definition after_atoms (ds : list (list double * str * option double * bool))
    (s : locals) : locals :=
  fold_left after_atom ds s.

(** Three numbers that survive ["%16.16f"]. *)
Definition triple (vec : list double) : Prop :=
  length vec = 3%nat /\ Forall (survives format_16_16f) vec.

End RoundTripTerms.

(** Two atoms in an orthorhombic cell, with moments. *)
Definition written : PhonopyAtoms (F := integer_float) :=
  mkPhonopyAtoms [[1; 0; 0]; [0; 2; 0]; [0; 0; 3]] 2
    [[0; 0; 0]; [1; 2; 3]] (map lit ["H"; "O"]) (Some [1; -2]).

(** * Properties *)

(** ** Reasoning about methods *)

Section Methods.

Context {Self : Type}.

Lemma stable_ret {A : Type} (I : Self -> Prop) (a : A) : stable I (ret a).
Proof. intros self H. exact H. Qed.

Lemma stable_raise {A : Type} (I : Self -> Prop) (e : exn) :
  stable I (raise (A := A) e).
Proof. intros self H. exact H. Qed.

Lemma stable_gets {A : Type} (I : Self -> Prop) (f : Self -> A) :
  stable I (gets f).
Proof. intros self H. exact H. Qed.

Lemma stable_lift {A : Type} (I : Self -> Prop) (o : outcome A) :
  stable I (lift o).
Proof. intros self H. exact H. Qed.

Lemma stable_attr {A : Type} (I : Self -> Prop) (f : Self -> option A) :
  stable I (attr f).
Proof. intros self H. unfold attr. destruct (f self); exact H. Qed.

Lemma stable_modify (I : Self -> Prop) (f : Self -> Self) :
  (forall self, I self -> I (f self)) -> stable I (modify f).
Proof. intros Hf self H. apply Hf, H. Qed.

Lemma stable_bind {A B : Type} (I : Self -> Prop) (m : method Self A)
    (k : A -> method Self B) :
  stable I m -> (forall a, stable I (k a)) -> stable I (bind m k).
Proof.
  intros Hm Hk self H. unfold bind.
  specialize (Hm self H). destruct (m self) as [[a|e] self']; simpl in *.
  - apply Hk, Hm.
  - exact Hm.
Qed.

Lemma stable_when (I : Self -> Prop) (b : bool) (m : method Self unit) :
  stable I m -> stable I (when b m).
Proof. intros Hm. destruct b; [exact Hm | apply stable_ret]. Qed.

Lemma stable_for_enumerate_from {A : Type} (I : Self -> Prop) (l : list A)
    (body : nat -> A -> method Self unit) :
  (forall j x, stable I (body j x)) ->
  forall j, stable I (for_enumerate_from j l body).
Proof.
  intros Hbody. induction l as [|x l IH]; intros j; simpl.
  - apply stable_ret.
  - apply stable_bind; [apply Hbody | intros _; apply IH].
Qed.

Lemma stable_for_enumerate {A : Type} (I : Self -> Prop) (l : list A)
    (body : nat -> A -> method Self unit) :
  (forall j x, stable I (body j x)) -> stable I (for_enumerate l body).
Proof. intros H. apply stable_for_enumerate_from, H. Qed.

(** What a successful sequence consists of. *)
Lemma bind_Ok {A B : Type} (m : method Self A) (k : A -> method Self B)
    (self self' : Self) (b : B) :
  bind m k self = (Ok b, self') ->
  exists a mid, m self = (Ok a, mid) /\ k a mid = (Ok b, self').
Proof.
  unfold bind. destruct (m self) as [[a|e] mid]; intros H.
  - exists a, mid. split; [reflexivity | exact H].
  - discriminate H.
Qed.

Lemma bind_eq {A B : Type} (m : method Self A) (k : A -> method Self B)
    (self mid : Self) (a : A) :
  m self = (Ok a, mid) -> bind m k self = k a mid.
Proof. intros H. unfold bind. rewrite H. reflexivity. Qed.

Lemma bind_raise {A B : Type} (m : method Self A) (k : A -> method Self B)
    (self mid : Self) (e : exn) :
  m self = (Raise e, mid) -> bind m k self = (Raise e, mid).
Proof. intros H. unfold bind. rewrite H. reflexivity. Qed.

(** One step of a sequence whose first action is elementary. *)
Lemma bind_ret {A B : Type} (a : A) (k : A -> method Self B) (self : Self) :
  bind (ret a) k self = k a self.
Proof. reflexivity. Qed.

Lemma bind_gets {A B : Type} (f : Self -> A) (k : A -> method Self B)
    (self : Self) :
  bind (gets f) k self = k (f self) self.
Proof. reflexivity. Qed.

Lemma bind_modify {B : Type} (f : Self -> Self) (k : unit -> method Self B)
    (self : Self) :
  bind (modify f) k self = k tt (f self).
Proof. reflexivity. Qed.

Lemma bind_lift {A B : Type} (a : A) (k : A -> method Self B) (self : Self) :
  bind (lift (Ok a)) k self = k a self.
Proof. reflexivity. Qed.

Lemma bind_attr {A B : Type} (f : Self -> option A) (a : A)
    (k : A -> method Self B) (self : Self) :
  f self = Some a -> bind (attr f) k self = k a self.
Proof. intros H. unfold bind, attr. rewrite H. reflexivity. Qed.

Lemma bind_assoc {A B C : Type} (m : method Self A) (k : A -> method Self B)
    (k' : B -> method Self C) (self : Self) :
  bind (bind m k) k' self = bind m (fun a => bind (k a) k') self.
Proof. unfold bind. destruct (m self) as [[a|e] mid]; reflexivity. Qed.

(** What a successful elementary action did. *)
Lemma attr_Ok {A : Type} (f : Self -> option A) (self self' : Self) (a : A) :
  attr f self = (Ok a, self') -> f self = Some a /\ self' = self.
Proof.
  unfold attr. destruct (f self); intros H; inversion H; subst; auto.
Qed.

Lemma lift_Ok {A : Type} (o : outcome A) (self self' : Self) (a : A) :
  lift o self = (Ok a, self') -> o = Ok a /\ self' = self.
Proof. unfold lift. intros H; inversion H; subst; auto. Qed.

Lemma gets_Ok {A : Type} (f : Self -> A) (self self' : Self) (a : A) :
  gets f self = (Ok a, self') -> a = f self /\ self' = self.
Proof. unfold gets. intros H; inversion H; subst; auto. Qed.

Lemma modify_Ok (f : Self -> Self) (self self' : Self) (u : unit) :
  modify f self = (Ok u, self') -> self' = f self.
Proof. unfold modify. intros H; inversion H; subst; auto. Qed.

End Methods.

Ltac mstep :=
  first [ rewrite bind_ret | rewrite bind_gets | rewrite bind_modify
        | rewrite bind_lift | rewrite bind_assoc ].

Section Loops.

Context {Self : Type}.

(** A quantity that each successful iteration raises by an amount that
    depends on the element only. *)
Lemma for_enumerate_from_sum {A : Type} (f : Self -> nat) (g : A -> nat)
    (body : nat -> A -> method Self unit) :
  (forall j x self u self',
     body j x self = (Ok u, self') -> f self' = (f self + g x)%nat) ->
  forall l j self u self',
    for_enumerate_from j l body self = (Ok u, self') ->
    f self' = (f self + sum_list_with g l)%nat.
Proof.
  intros Hbody. induction l as [|x l IH]; intros j self u self' H.
  - simpl in H. inversion H; subst. simpl. lia.
  - cbn [for_enumerate_from] in H.
    apply bind_Ok in H. destruct H as (u1 & mid & H1 & H2).
    apply Hbody in H1. apply IH in H2. simpl. lia.
Qed.

End Loops.

Section Calls.

Context `{F : Float} `{K : !Kernels}.

Lemma stable_emit (I : Conductivity -> Prop) (msg : message) :
  ignores_history I -> stable I (emit msg).
Proof. intros HI self H. apply HI, H. Qed.

Lemma stable_extern (I : Conductivity -> Prop) (c : call) :
  ignores_history I -> stable I (extern c).
Proof.
  intros HI self H. unfold extern.
  destruct (raises (history self ++ [c])); apply HI, H.
Qed.

Lemma stable_query {A : Type} (I : Conductivity -> Prop)
    (f : list call -> A) :
  stable I (query f).
Proof. intros self H. exact H. Qed.

End Calls.

(** Invariants of straight-line and looping methods, by their structure. *)
Ltac stable_step :=
  first
    [ apply stable_ret | apply stable_raise | apply stable_gets
    | apply stable_lift | apply stable_attr | apply stable_query
    | apply stable_when | apply stable_for_enumerate
    | apply stable_for_enumerate_from
    | apply stable_emit; [solve [intros ? ? ?; assumption]]
    | apply stable_extern; [solve [intros ? ? ?; assumption]]
    | apply stable_modify; [solve [intros ? ?; assumption]]
    | apply stable_bind
    | match goal with
      | |- stable _ (match ?x with _ => _ end) => destruct x
      end
    | match goal with
      | |- forall _, _ => intro
      end ].

Ltac stable_auto := repeat stable_step.

(** Taking a successful sequence apart, one action at a time. *)
Ltac inv_bind H :=
  let a := fresh "a" in
  let s := fresh "s" in
  let H1 := fresh "Hs" in
  apply bind_Ok in H; destruct H as (a & s & H1 & H);
  first [ apply attr_Ok in H1; destruct H1 as [H1 ->]
        | apply modify_Ok in H1; subst s
        | apply gets_Ok in H1; destruct H1 as [-> ->]
        | apply lift_Ok in H1; destruct H1 as [H1 ->]
        | idtac ].

(** ** The mesh numbers: [_set_mesh_numbers] in closed form *)

Section MeshNumbers.

Context `{F : Float} `{K : !Kernels}.

Lemma check_divisor_step (i : nat) (m n : Z) (acc : list Z)
    (self : Conductivity) :
  _mesh_divisors self = Some acc ->
  (i < 3)%nat ->
  check_divisor i (m, n) self =
  (Ok tt,
   with_history (history self ++ divisor_message i m n)
     (with_mesh_divisors (Some (acc ++ [effective m n])) self)).
Proof.
  intros Hacc Hi.
  unfold check_divisor, divisor_message, effective.
  destruct (np_mod m n =? 0).
  - unfold append_mesh_divisor, bind, attr, modify. rewrite Hacc.
    rewrite app_nil_r. destruct self; reflexivity.
  - unfold append_mesh_divisor, bind, attr, modify, lift, emit, py_getitem.
    rewrite Hacc.
    destruct (axis_names !! i) as [axis|] eqn:Haxis.
    + reflexivity.
    + apply lookup_ge_None in Haxis. simpl in Haxis. lia.
Qed.

Lemma divisor_loop (pairs : list (Z * Z)) :
  forall (i : nat) (acc : list Z) (self : Conductivity),
    _mesh_divisors self = Some acc ->
    (i + length pairs <= 3)%nat ->
    for_enumerate_from i pairs check_divisor self =
    (Ok tt,
     with_history (history self ++ divisor_messages i pairs)
       (with_mesh_divisors
          (Some (acc ++ map (fun mn => effective (fst mn) (snd mn)) pairs))
          self)).
Proof.
  induction pairs as [|[m n] rest IH]; intros i acc self Hacc Hlen.
  - simpl. rewrite !app_nil_r. destruct self; simpl in *. subst. reflexivity.
  - simpl in Hlen.
    change (for_enumerate_from i ((m, n) :: rest) check_divisor)
      with (bind (check_divisor i (m, n))
              (fun _ => for_enumerate_from (S i) rest check_divisor)).
    erewrite bind_eq by (apply check_divisor_step; [exact Hacc | lia]).
    rewrite (IH (S i) (acc ++ [effective m n])); [| reflexivity | lia].
    simpl. rewrite <- !app_assoc. reflexivity.
Qed.

Lemma check_shift_step (i : nat) (flag : bool) (di : Z) (shifts : list bool)
    (d : list Z) (self : Conductivity) :
  _coarse_mesh_shifts self = Some shifts ->
  _mesh_divisors self = Some d ->
  shifts !! i = Some flag ->
  d !! i = Some di ->
  (i < 3)%nat ->
  check_shift i self =
  (Ok tt,
   with_history (history self ++ shift_message i flag di)
     (with_coarse_mesh_shifts (Some (<[i := kept_shift flag di]> shifts))
        self)).
Proof.
  intros Hs Hd Hflag Hdi Hi.
  unfold check_shift, shift_message, kept_shift, bind, attr, lift, py_getitem.
  rewrite Hs, Hflag. destruct flag; simpl.
  - rewrite Hd, Hdi. destruct (np_mod di 2 =? 0); simpl.
    + rewrite app_nil_r, list_insert_id by exact Hflag.
      destruct self; simpl in *; subst; reflexivity.
    + destruct (axis_names !! i) as [axis|] eqn:Haxis.
      * reflexivity.
      * apply lookup_ge_None in Haxis. simpl in Haxis. lia.
  - rewrite app_nil_r, list_insert_id by exact Hflag.
    destruct self; simpl in *; subst; reflexivity.
Qed.

Lemma shift_loop (f0 f1 f2 : bool) (d0 d1 d2 : Z) (self : Conductivity) :
  _coarse_mesh_shifts self = Some [f0; f1; f2] ->
  _mesh_divisors self = Some [d0; d1; d2] ->
  for_enumerate (seq 0 3) (fun _ i => check_shift i) self =
  (Ok tt,
   with_history
     (history self ++ shift_message 0 f0 d0 ++ shift_message 1 f1 d1 ++
      shift_message 2 f2 d2)
     (with_coarse_mesh_shifts
        (Some [kept_shift f0 d0; kept_shift f1 d1; kept_shift f2 d2]) self)).
Proof.
  intros Hs Hd. unfold for_enumerate. simpl.
  erewrite bind_eq
    by (eapply (check_shift_step 0 f0 d0); [exact Hs | exact Hd | | | lia];
        reflexivity).
  erewrite bind_eq
    by (eapply (check_shift_step 1 f1 d1);
        [reflexivity | exact Hd | | | lia]; reflexivity).
  erewrite bind_eq
    by (eapply (check_shift_step 2 f2 d2);
        [reflexivity | exact Hd | | | lia]; reflexivity).
  unfold ret. simpl. rewrite <- !app_assoc. reflexivity.
Qed.

Lemma intc_small (z : Z) : - 2 ^ 31 <= z < 2 ^ 31 -> intc z = z.
Proof.
  intros H. unfold intc, wrap.
  change (2 ^ (32 - 1)) with (2 ^ 31).
  rewrite Z.mod_small; lia.
Qed.

Lemma effective_bounds (m n : Z) :
  0 < m < 2 ^ 31 -> - 2 ^ 31 <= effective m n < 2 ^ 31.
Proof.
  intros Hm. unfold effective, np_mod.
  destruct (n =? 0) eqn:Hn.
  - apply Z.eqb_eq in Hn. subst. simpl. lia.
  - apply Z.eqb_neq in Hn.
    destruct (m mod n =? 0) eqn:Hdiv; [| lia].
    apply Z.eqb_eq in Hdiv.
    assert (Hdvd : (n | m)) by (apply Z.mod_divide; assumption).
    destruct Hdvd as [k Hk].
    assert (Hk1 : 1 <= Z.abs k) by (destruct k; simpl in *; lia).
    assert (Habs : Z.abs n <= m).
    { rewrite <- (Z.abs_eq m) by lia. rewrite Hk, Z.abs_mul.
      pose proof (Z.abs_nonneg n). nia. }
    lia.
Qed.

(** [_set_mesh_numbers] with a requested triple, in closed form. *)
Lemma set_mesh_numbers_given (self : Conductivity) (m0 m1 m2 n0 n1 n2 : Z)
    (coarse_mesh_shifts : option (list bool)) (f0 f1 f2 : bool) :
  pp_mesh_numbers (_pp self) = [m0; m1; m2] ->
  0 < m0 < 2 ^ 31 -> 0 < m1 < 2 ^ 31 -> 0 < m2 < 2 ^ 31 ->
  match coarse_mesh_shifts with
  | None => [false; false; false]
  | Some given => given
  end = [f0; f1; f2] ->
  let e0 := effective m0 n0 in
  let e1 := effective m1 n1 in
  let e2 := effective m2 n2 in
  let coarse := [np_floordiv m0 e0; np_floordiv m1 e1; np_floordiv m2 e2] in
  _set_mesh_numbers (Some [n0; n1; n2]) coarse_mesh_shifts self =
  (Ok tt,
   with_history
     (history self ++
      divisor_messages 0 [(m0, n0); (m1, n1); (m2, n2)] ++
      (shift_message 0 f0 e0 ++ shift_message 1 f1 e1 ++
       shift_message 2 f2 e2) ++
      log_message (_log_level self) coarse)
     (with_coarse_mesh (Some coarse)
        (with_coarse_mesh_shifts
           (Some [kept_shift f0 e0; kept_shift f1 e1; kept_shift f2 e2])
           (with_mesh_divisors (Some [e0; e1; e2])
              (with_mesh (Some [m0; m1; m2]) self))))).
Proof.
  intros Hmesh H0 H1 H2 Hshifts e0 e1 e2 coarse.
  unfold _set_mesh_numbers.
  rewrite bind_gets, bind_modify, Hmesh.
  rewrite bind_assoc, bind_modify.
  rewrite bind_assoc. erewrite bind_attr by reflexivity.
  rewrite bind_assoc. unfold for_enumerate.
  erewrite bind_eq
    by (apply (divisor_loop _ 0%nat []); [reflexivity | simpl; lia]).
  rewrite bind_assoc. erewrite bind_attr by reflexivity.
  rewrite bind_assoc, bind_modify.
  rewrite bind_assoc, bind_modify.
  rewrite Hshifts.
  cbn [app map fst snd zip zip_with].
  fold e0 e1 e2.
  rewrite !intc_small by (apply effective_bounds; assumption).
  erewrite bind_eq by (apply (shift_loop f0 f1 f2 e0 e1 e2); reflexivity).
  erewrite bind_attr by reflexivity.
  erewrite bind_attr by reflexivity.
  unfold np_binop. cbn [length decide]. 
  rewrite decide_True by reflexivity.
  rewrite bind_lift, bind_modify, bind_gets.
  cbn [zip_with]. fold coarse.
  unfold log_message, when.
  cbn [_log_level with_coarse_mesh with_history with_coarse_mesh_shifts
       with_mesh_divisors with_mesh].
  destruct (negb (_log_level self =? 0)).
  - rewrite bind_lift. rewrite decide_True by reflexivity.
    unfold emit, modify. cbn. rewrite <- !app_assoc. reflexivity.
  - unfold ret. cbn. rewrite <- !app_assoc, !app_nil_r. reflexivity.
Qed.

(** [_set_mesh_numbers] without requested divisors, in closed form: the
    shifts are not looked at. *)
Lemma set_mesh_numbers_omitted (self : Conductivity) (m0 m1 m2 : Z)
    (coarse_mesh_shifts : option (list bool)) :
  pp_mesh_numbers (_pp self) = [m0; m1; m2] ->
  _set_mesh_numbers None coarse_mesh_shifts self =
  (Ok tt,
   with_history (history self ++ log_message (_log_level self) [m0; m1; m2])
     (with_coarse_mesh (Some [m0; m1; m2])
        (with_mesh_divisors (Some [1; 1; 1])
           (with_mesh (Some [m0; m1; m2]) self)))).
Proof.
  intros Hmesh. unfold _set_mesh_numbers.
  rewrite bind_gets, bind_modify, Hmesh, bind_modify.
  erewrite bind_attr by reflexivity.
  erewrite bind_attr by reflexivity.
  change (map intc [1; 1; 1]) with [1; 1; 1].
  unfold np_binop. rewrite decide_True by reflexivity.
  rewrite bind_lift, bind_modify, bind_gets.
  cbn [zip_with]. unfold np_floordiv. cbn [Z.eqb].
  rewrite !Z.div_1_r.
  unfold log_message, when.
  cbn [_log_level with_coarse_mesh with_history with_mesh_divisors with_mesh].
  destruct (negb (_log_level self =? 0)).
  - rewrite bind_lift. rewrite decide_True by reflexivity. reflexivity.
  - unfold ret. rewrite app_nil_r. destruct self; reflexivity.
Qed.

End MeshNumbers.

(** ** Divisors and shifts (C2, C3) *)

Section MeshFolding.

Context `{F : Float} `{K : !Kernels}.

Lemma init_given (pp : Interaction) (sym : Symmetry) (temps : list double)
    (sigmas : list (option double)) (mv : option (list double))
    (cms : option (list bool)) (nks : bool) (log : Z)
    (m0 m1 m2 n0 n1 n2 : Z) (f0 f1 f2 : bool) :
  pp_mesh_numbers pp = [m0; m1; m2] ->
  0 < m0 < 2 ^ 31 -> 0 < m1 < 2 ^ 31 -> 0 < m2 < 2 ^ 31 ->
  match cms with
  | None => [false; false; false]
  | Some given => given
  end = [f0; f1; f2] ->
  let e0 := effective m0 n0 in
  let e1 := effective m1 n1 in
  let e2 := effective m2 n2 in
  let coarse := [np_floordiv m0 e0; np_floordiv m1 e1; np_floordiv m2 e2] in
  exists self,
    __init__ pp sym temps sigmas mv (Some [n0; n1; n2]) cms nks log = Ok self /\
    _mesh self = Some [m0; m1; m2] /\
    _mesh_divisors self = Some [e0; e1; e2] /\
    _coarse_mesh self = Some coarse /\
    _coarse_mesh_shifts self =
      Some [kept_shift f0 e0; kept_shift f1 e1; kept_shift f2 e2] /\
    history self =
      divisor_messages 0 [(m0, n0); (m1, n1); (m2, n2)] ++
      (shift_message 0 f0 e0 ++ shift_message 1 f1 e1 ++
       shift_message 2 f2 e2) ++
      log_message log coarse.
Proof.
  intros Hmesh H0 H1 H2 Hcms e0 e1 e2 coarse.
  unfold __init__.
  erewrite bind_eq.
  2:{ eapply (set_mesh_numbers_given _ m0 m1 m2 n0 n1 n2 cms f0 f1 f2);
      [exact Hmesh | assumption ..]. }
  destruct mv; eexists; (split; [reflexivity |]); cbn; auto.
Qed.

Lemma floordiv_effective (m n : Z) :
  n <> 0 -> np_floordiv m (effective m n) * effective m n = m.
Proof.
  intros Hn. unfold effective, np_floordiv, np_mod.
  destruct (n =? 0) eqn:E; [apply Z.eqb_eq in E; contradiction |].
  destruct (m mod n =? 0) eqn:Hdiv.
  - rewrite E. apply Z.eqb_eq in Hdiv.
    rewrite Z.mul_comm. symmetry. apply Z.div_exact; assumption.
  - simpl. rewrite Z.div_1_r. lia.
Qed.

Lemma in_divisor_message (axis : string) (m n : Z) (i : nat) (m' n' : Z) :
  In (print (not_dividable axis m n)) (divisor_message i m' n') <->
  np_mod m' n' <> 0 /\ axis_names !! i = Some axis /\ m = m' /\ n = n'.
Proof.
  unfold divisor_message.
  destruct (np_mod m' n' =? 0) eqn:E.
  - apply Z.eqb_eq in E. simpl. intuition.
  - apply Z.eqb_neq in E.
    destruct (axis_names !! i) as [a|]; simpl.
    + split.
      * intros [H|[]]. inversion H; subst. auto.
      * intros (_ & H & -> & ->). inversion H; subst. auto.
    + split; [intros [] | intros (_ & H & _); discriminate H].
Qed.

Lemma not_in_shift_message (axis : string) (m n : Z) (i : nat) (f : bool)
    (e : Z) :
  ~ In (print (not_dividable axis m n)) (shift_message i f e).
Proof.
  unfold shift_message.
  destruct (f && negb (np_mod e 2 =? 0)); [| intros []].
  destruct (axis_names !! i); simpl; intuition discriminate.
Qed.

Lemma not_in_log_message (axis : string) (m n : Z) (log : Z)
    (coarse : list Z) :
  ~ In (print (not_dividable axis m n)) (log_message log coarse).
Proof.
  unfold log_message. destruct (negb (log =? 0)); simpl; intuition discriminate.
Qed.

Lemma in_shift_message (i : nat) (f : bool) (e : Z) (axis : string) :
  axis_names !! i = Some axis -> f = true -> Z.odd e = true ->
  In (print (can_not_be_shifted axis)) (shift_message i f e).
Proof.
  intros Haxis -> Hodd. unfold shift_message, np_mod. simpl.
  rewrite Zmod_even, <- Z.negb_odd, Hodd. simpl. rewrite Haxis. left. reflexivity.
Qed.

Lemma kept_shift_spec (f : bool) (e : Z) : kept_shift f e = f && Z.even e.
Proof.
  unfold kept_shift, np_mod. simpl. rewrite Zmod_even.
  destruct (Z.even e); reflexivity.
Qed.

(** C2: for a mesh of three positive C ints and a requested triple of
    divisors, none of them zero (mesh divisors are positive integers), the
    constructor does not raise, keeps on each axis the requested divisor when
    it divides the mesh number and 1 otherwise, reports each rejection under
    the axis name, and the coarse mesh times the kept divisors is the
    mesh. *)
Theorem C2_mesh_folding (pp : Interaction) (sym : Symmetry)
    (temps : list double) (sigmas : list (option double))
    (mv : option (list double)) (cms : option (list bool)) (nks : bool)
    (log : Z) (m0 m1 m2 n0 n1 n2 : Z) :
  pp_mesh_numbers pp = [m0; m1; m2] ->
  0 < m0 < 2 ^ 31 -> 0 < m1 < 2 ^ 31 -> 0 < m2 < 2 ^ 31 ->
  n0 <> 0 -> n1 <> 0 -> n2 <> 0 ->
  (cms = None \/ exists f0 f1 f2, cms = Some [f0; f1; f2]) ->
  exists self,
    __init__ pp sym temps sigmas mv (Some [n0; n1; n2]) cms nks log = Ok self /\
    mesh_folding [m0; m1; m2] [n0; n1; n2] self.
Proof.
  intros Hmesh H0 H1 H2 Hn0 Hn1 Hn2 Hcms.
  assert (exists f0 f1 f2,
            match cms with
            | None => [false; false; false]
            | Some given => given
            end = [f0; f1; f2]) as (f0 & f1 & f2 & Hf).
  { destruct Hcms as [-> | (f0 & f1 & f2 & ->)]; eauto. }
  destruct (init_given pp sym temps sigmas mv cms nks log
              m0 m1 m2 n0 n1 n2 f0 f1 f2 Hmesh H0 H1 H2 Hf)
    as (self & Hinit & _ & Hd & Hc & _ & Hh).
  exists self. split; [exact Hinit |].
  eexists _, _. split; [exact Hd |]. split; [exact Hc |].
  intros i m n Hm Hn. rewrite Hh.
  pose proof not_in_shift_message as Hshift.
  pose proof not_in_log_message as Hlog.
  destruct i as [|[|[|i]]]; simpl in Hm, Hn; [| | | discriminate Hm];
    inversion Hm; inversion Hn; subst m n;
    (eexists _, _, _; split; [reflexivity |]; split; [reflexivity |];
     split; [reflexivity |]; split; [reflexivity |]; split;
     [| apply floordiv_effective; assumption]);
    cbn [divisor_messages]; rewrite !in_app_iff, !in_divisor_message;
    cbn [axis_names lookup list_lookup];
    (split; [| intros Hne; left; auto 10]);
    intros [[H|[H|[H|[]]]] | [[H|[H|H]] | H]];
    try (exfalso; eapply Hshift; exact H);
    try (exfalso; eapply Hlog; exact H);
    destruct H as (Hne & Hax & _ & _);
    first [exact Hne | discriminate Hax].
Qed.

Lemma init_omitted (pp : Interaction) (sym : Symmetry) (temps : list double)
    (sigmas : list (option double)) (mv : option (list double))
    (cms : option (list bool)) (nks : bool) (log : Z) (m0 m1 m2 : Z) :
  pp_mesh_numbers pp = [m0; m1; m2] ->
  exists self,
    __init__ pp sym temps sigmas mv None cms nks log = Ok self /\
    _mesh self = Some [m0; m1; m2] /\
    _mesh_divisors self = Some [1; 1; 1] /\
    _coarse_mesh self = Some [m0; m1; m2] /\
    _coarse_mesh_shifts self = None /\
    history self = log_message log [m0; m1; m2].
Proof.
  intros Hmesh. unfold __init__.
  erewrite bind_eq.
  2:{ eapply (set_mesh_numbers_omitted _ m0 m1 m2 cms). exact Hmesh. }
  destruct mv; eexists; (split; [reflexivity |]); cbn; auto.
Qed.

(** C3, amended: when divisors are requested, every supplied shift flag over
    an odd kept divisor is stored as False, with a diagnostic under the axis
    name if it was set, and the stored flag is the supplied one where the
    kept divisor is even; when no divisors are requested the supplied shifts
    are not looked at: no flag is stored and no shift diagnostic is made. *)
Theorem C3_shift_flags (pp : Interaction) (sym : Symmetry)
    (temps : list double) (sigmas : list (option double))
    (mv : option (list double)) (nks : bool) (log : Z) (m0 m1 m2 : Z) :
  pp_mesh_numbers pp = [m0; m1; m2] ->
  0 < m0 < 2 ^ 31 -> 0 < m1 < 2 ^ 31 -> 0 < m2 < 2 ^ 31 ->
  (forall n0 n1 n2 f0 f1 f2,
     exists self,
       __init__ pp sym temps sigmas mv (Some [n0; n1; n2])
         (Some [f0; f1; f2]) nks log = Ok self /\
       shifts_validated [f0; f1; f2] self /\
       exists e0 e1 e2,
         get_mesh_divisors self = Some [e0; e1; e2] /\
         _coarse_mesh_shifts self =
           Some [f0 && Z.even e0; f1 && Z.even e1; f2 && Z.even e2]) /\
  (forall cms,
     exists self,
       __init__ pp sym temps sigmas mv None cms nks log = Ok self /\
       get_mesh_divisors self = Some [1; 1; 1] /\
       _coarse_mesh_shifts self = None /\
       forall axis, ~ In (print (can_not_be_shifted axis)) (history self)).
Proof.
  intros Hmesh H0 H1 H2. split.
  - intros n0 n1 n2 f0 f1 f2.
    destruct (init_given pp sym temps sigmas mv (Some [f0; f1; f2]) nks log
                m0 m1 m2 n0 n1 n2 f0 f1 f2 Hmesh H0 H1 H2 eq_refl)
      as (self & Hinit & _ & Hd & _ & Hs & Hh).
    exists self. split; [exact Hinit |]. split.
    + eexists _, _. split; [exact Hs |]. split; [exact Hd |].
      intros i flag d Hflag Hdi. rewrite Hh.
      destruct i as [|[|[|i]]]; simpl in Hflag, Hdi; [| | | discriminate Hflag];
        inversion Hflag; inversion Hdi; subst flag d;
        (eexists _, _; split; [reflexivity |]; split; [reflexivity |];
         rewrite kept_shift_spec; split;
         [ intros Hodd; split;
           [ rewrite <- Z.negb_odd, Hodd; apply andb_false_r
           | intros Hset; rewrite !in_app_iff; right; left;
             eauto 6 using in_shift_message ]
         | intros Hk; apply andb_true_iff in Hk; apply Hk ]).
    + eexists _, _, _. split; [exact Hd |].
      rewrite Hs, !kept_shift_spec. reflexivity.
  - intros cms.
    destruct (init_omitted pp sym temps sigmas mv cms nks log m0 m1 m2 Hmesh)
      as (self & Hinit & _ & Hd & _ & Hs & Hh).
    exists self. split; [exact Hinit |]. split; [exact Hd |].
    split; [exact Hs |].
    intros axis. rewrite Hh. unfold log_message.
    destruct (negb (log =? 0)); simpl; intuition discriminate.
Qed.

End MeshFolding.

Lemma C2_mesh_folding_witness :
  (pp_mesh_numbers cube = [2; 2; 2] /\ 0 < 2 < 2 ^ 31 /\
   2 <> 0 /\ 3 <> 0 /\ 1 <> 0) /\
  (exists self,
     __init__ (F := integer_float) cube identity_only [0; 300] [None] None
       (Some [2; 3; 1]) (Some [true; true; true]) false 1 = Ok self /\
     mesh_folding [2; 2; 2] [2; 3; 1] self).
Proof.
  split; [repeat split; (reflexivity || lia) |].
  apply (C2_mesh_folding (F := integer_float) cube identity_only [0; 300]
           [None] None (Some [true; true; true]) false 1 2 2 2 2 3 1);
    first [reflexivity | lia | right; eauto].
Defined.

(** C3 as stated fails when no divisors are requested: a set flag over the
    divisor 1 is neither stored as False nor reported. *)
Lemma C3_omitted_divisors :
  ~ (exists self,
       __init__ (F := integer_float) cube identity_only [] [] None None
         (Some [true; false; false]) false 0 = Ok self /\
       shifts_validated [true; false; false] self).
Proof.
  intros (self & Hinit & stored & divisors & Hs & _).
  destruct (init_omitted (F := integer_float) cube identity_only [] [] None
              (Some [true; false; false]) false 0 2 2 2 eq_refl)
    as (self' & Hinit' & _ & _ & _ & Hs' & _).
  rewrite Hinit' in Hinit. injection Hinit as <-.
  rewrite Hs' in Hs. discriminate Hs.
Qed.

Lemma C3_shift_flags_witness :
  (pp_mesh_numbers cube = [2; 2; 2] /\ 0 < 2 < 2 ^ 31) /\
  (exists self,
     __init__ (F := integer_float) cube identity_only [0; 300] [None] None
       (Some [2; 1; 2]) (Some [true; true; false]) false 0 = Ok self /\
     shifts_validated [true; true; false] self).
Proof.
  split; [split; [reflexivity | lia] |].
  destruct (C3_shift_flags (F := integer_float) cube identity_only [0; 300]
              [None] None false 0 2 2 2) as [Hgiven _];
    [reflexivity | lia | lia | lia |].
  destruct (Hgiven 2 1 2 true true false) as (self & Hinit & Hval & _).
  exists self. split; assumption.
Defined.

(** ** The constructor and [initialize] (C1) *)

Section Initialize.

Context `{F : Float} `{K : !Kernels}.

Lemma set_mesh_numbers_keeps (I : Conductivity -> Prop)
    (md : option (list Z)) (cms : option (list bool)) :
  ignores_history I ->
  (forall self v, I self -> I (with_mesh v self)) ->
  (forall self v, I self -> I (with_mesh_divisors v self)) ->
  (forall self v, I self -> I (with_coarse_mesh v self)) ->
  (forall self v, I self -> I (with_coarse_mesh_shifts v self)) ->
  stable I (_set_mesh_numbers md cms).
Proof.
  intros Hh Hm Hd Hc Hs.
  unfold _set_mesh_numbers, check_divisor, check_shift, append_mesh_divisor.
  repeat first
    [ stable_step
    | apply stable_emit; [exact Hh]
    | apply stable_modify; intros ? ?; auto ].
Qed.

Lemma set_mesh_numbers_Ok (md : option (list Z)) (cms : option (list bool))
    (self self' : Conductivity) (u : unit) :
  _set_mesh_numbers md cms self = (Ok u, self') ->
  exists mesh d coarse,
    _mesh self' = Some mesh /\ _mesh_divisors self' = Some d /\
    _coarse_mesh self' = Some coarse /\
    np_binop np_floordiv mesh d = Ok coarse.
Proof.
  unfold _set_mesh_numbers. intros H.
  apply bind_Ok in H. destruct H as (pp & s1 & _ & H).
  apply bind_Ok in H. destruct H as (u1 & s2 & _ & H).
  apply bind_Ok in H. destruct H as (u2 & s3 & _ & H).
  apply bind_Ok in H. destruct H as (mesh & s4 & Hmesh & H).
  apply attr_Ok in Hmesh. destruct Hmesh as [Hmesh ->].
  apply bind_Ok in H. destruct H as (d & s5 & Hd & H).
  apply attr_Ok in Hd. destruct Hd as [Hd ->].
  apply bind_Ok in H. destruct H as (coarse & s6 & Hq & H).
  apply lift_Ok in Hq. destruct Hq as [Hq ->].
  apply bind_Ok in H. destruct H as (u3 & s7 & Hset & H).
  apply modify_Ok in Hset. subst s7.
  exists mesh, d, coarse.
  assert (Hkeep : stable
            (fun s => _mesh s = Some mesh /\ _mesh_divisors s = Some d /\
                      _coarse_mesh s = Some coarse)
            (log_level <- gets _log_level ;;
             when (negb (log_level =? 0))
               (q <- lift (np_binop np_floordiv mesh d) ;;
                if decide (length q = 3%nat)
                then emit (lifetime_sampling_mesh q)
                else raise TypeError))).
  { stable_auto. }
  specialize (Hkeep (with_coarse_mesh (Some coarse) s3)).
  rewrite H in Hkeep. simpl in Hkeep.
  destruct Hkeep as (H1 & H2 & H3); [auto |]. auto.
Qed.

Lemma init_constructed (pp : Interaction) (sym : Symmetry)
    (temps : list double) (sigmas : list (option double))
    (mv : option (list double)) (md : option (list Z))
    (cms : option (list bool)) (nks : bool) (log : Z)
    (self : Conductivity) :
  __init__ pp sym temps sigmas mv md cms nks log = Ok self ->
  exists mesh d coarse, constructed pp sym nks mesh d coarse self.
Proof.
  unfold __init__. intros H.
  match type of H with
  | match ?m ?s0 with _ => _ end = _ =>
      destruct (m s0) as [[u|e] s] eqn:E; inversion H; subst s; clear H
  end.
  apply bind_Ok in E. destruct E as (u1 & mid & Hset & Hrest).
  destruct (set_mesh_numbers_Ok _ _ _ _ _ Hset)
    as (mesh & d & coarse & Hm & Hd & Hc & Hq).
  exists mesh, d, coarse.
  assert (Hcfg : _pp mid = pp /\ _symmetry mid = sym /\
                 _no_kappa_stars mid = nks /\ _read_gamma mid = false).
  { pose proof (set_mesh_numbers_keeps
                  (fun s => _pp s = pp /\ _symmetry s = sym /\
                            _no_kappa_stars s = nks /\ _read_gamma s = false)
                  md cms) as Hkeep.
    match type of Hset with
    | _ ?s0 = _ =>
        specialize (Hkeep ltac:(intros ? ? ?; assumption)
                      ltac:(intros ? ? ?; assumption)
                      ltac:(intros ? ? ?; assumption)
                      ltac:(intros ? ? ?; assumption)
                      ltac:(intros ? ? ?; assumption) s0)
    end.
    rewrite Hset in Hkeep. apply Hkeep. cbn. auto. }
  destruct Hcfg as (Hpp & Hsym & Hnks & Hrg).
  unfold constructed.
  destruct mv; cbn in Hrest; inversion Hrest; subst self; cbn; auto 10.
Qed.

Lemma automatic_sampling_eq (self : Conductivity) (mesh d coarse q : list Z) :
  _coarse_mesh self = Some coarse ->
  _mesh self = Some mesh ->
  _mesh_divisors self = Some d ->
  np_binop np_floordiv mesh d = Ok q ->
  exists dense,
    automatic_sampling self =
    (if np_sum (ir_weights coarse self) =? np_prod q then Ok tt
     else Raise AssertionError,
     with_grid_weights (Some (ir_weights coarse self))
       (with_grid_points (Some dense) self)).
Proof.
  intros Hc Hm Hd Hq. unfold automatic_sampling, ir_weights, mesh_shifts_of.
  rewrite bind_gets. erewrite bind_attr by exact Hc. rewrite bind_gets.
  destruct (get_ir_grid_points coarse (pointgroup_operations (_symmetry self))
              match _coarse_mesh_shifts self with
              | Some s => s
              | None => [false; false; false]
              end) as [[cgp cgw] cga].
  erewrite bind_attr by exact Hm. erewrite bind_attr by exact Hd.
  rewrite !bind_modify. erewrite bind_attr by reflexivity.
  rewrite Hq, bind_lift. eexists. cbn [fst snd].
  destruct (np_sum cgw =? np_prod q); reflexivity.
Qed.

(** C1: for an instance built with [no_kappa_stars] false, [initialize(None)]
    takes the automatic-sampling branch; when it returns, the weights it
    stored are those of the irreducible coarse grid and their sum is the
    product of the coarse mesh [mesh / mesh_divisors]; when the two differ
    it raises [AssertionError] and the point counter is never set. *)
Theorem C1_weight_sum (pp : Interaction) (sym : Symmetry)
    (temps : list double) (sigmas : list (option double))
    (mv : option (list double)) (md : option (list Z))
    (cms : option (list bool)) (log : Z) (self : Conductivity) :
  __init__ pp sym temps sigmas mv md cms false log = Ok self ->
  exists mesh d coarse,
    get_mesh_numbers self = Some mesh /\
    get_mesh_divisors self = Some d /\
    np_binop np_floordiv mesh d = Ok coarse /\
    _coarse_mesh self = Some coarse /\
    (fst (initialize None self) = Ok tt ->
     get_grid_weights (snd (initialize None self)) =
       Some (ir_weights coarse self) /\
     np_sum (ir_weights coarse self) = np_prod coarse) /\
    (np_sum (ir_weights coarse self) <> np_prod coarse ->
     fst (initialize None self) = Raise AssertionError /\
     get_grid_point_count (snd (initialize None self)) = None).
Proof.
  intros Hinit.
  destruct (init_constructed _ _ _ _ _ _ _ _ _ _ Hinit)
    as (mesh & d & coarse & Hpp & Hsym & Hnks & Hm & Hd & Hc & Hq & Hrg & Hcount).
  exists mesh, d, coarse. repeat (split; [assumption |]).
  destruct (automatic_sampling_eq
              (with_grid_address (Some (pp_grid_address (_pp self))) self)
              mesh d coarse coarse Hc Hm Hd Hq) as [dense Hauto].
  change (ir_weights coarse
            (with_grid_address (Some (pp_grid_address (_pp self))) self))
    with (ir_weights coarse self) in Hauto.
  unfold initialize.
  rewrite bind_gets, bind_modify, bind_assoc, bind_gets.
  cbn [_no_kappa_stars with_grid_address]. rewrite Hnks.
  split.
  - intros H.
    match type of H with
    | fst ?r = _ => destruct r as [o self'] eqn:E
    end.
    simpl in H. subst o. rename E into H. cbn [snd].
    apply bind_Ok in H. destruct H as (u & s2 & Hsel & Htail).
    rewrite Hauto in Hsel.
    destruct (np_sum (ir_weights coarse self) =? np_prod coarse) eqn:Hsum;
      [| discriminate Hsel].
    inversion Hsel; subst s2; clear Hsel.
    split; [| apply Z.eqb_eq, Hsum].
    match type of Htail with
    | ?tail ?s2 = _ =>
        assert (Hkeep : stable
                  (fun s => _grid_weights s = Some (ir_weights coarse self))
                  tail)
          by (unfold _allocate_values; stable_auto);
        specialize (Hkeep s2)
    end.
    rewrite Htail in Hkeep. apply Hkeep. reflexivity.
  - intros Hne. apply Z.eqb_neq in Hne.
    erewrite bind_raise by (rewrite Hauto, Hne; reflexivity).
    split; [reflexivity | exact Hcount].
Qed.

End Initialize.

Section Ready.

Context `{F : Float} `{K : !Kernels}.

(** What [initialize] leaves behind when it returns. *)
Lemma initialize_ready (grid_points : option (list Z)) (self : Conductivity) :
  fst (initialize grid_points self) = Ok tt ->
  exists gps,
    _grid_points (snd (initialize grid_points self)) = Some gps /\
    _grid_point_count (snd (initialize grid_points self)) = Some 0%nat /\
    _sum_num_kstar (snd (initialize grid_points self)) = Some 0.
Proof.
  destruct (initialize grid_points self) as [o self'] eqn:E.
  simpl. intros ->. unfold initialize in E.
  do 11 inv_bind E.
  match goal with
  | Hsel : _grid_points _ = Some ?selected |- _ =>
      exists selected; rename Hsel into Hselected
  end.
  match type of E with
  | ?rest ?s = _ =>
      assert (Hkeep : stable
                (fun it => _grid_points it = _grid_points s /\
                           _grid_point_count it = Some 0%nat /\
                           _sum_num_kstar it = Some 0)
                rest)
        by (unfold _allocate_values; stable_auto);
      specialize (Hkeep s)
  end.
  rewrite E in Hkeep. simpl in Hkeep.
  destruct Hkeep as (H1 & H2 & H3); [cbn; auto |].
  rewrite H1. simpl. auto.
Qed.

End Ready.

Lemma C1_weight_sum_witness :
  __init__ (F := integer_float) cube identity_only [0; 300] [None] None
    None None false 0 = Ok cube_instance /\
  fst (initialize None cube_instance) = Ok tt /\
  get_grid_weights (snd (initialize None cube_instance)) = Some [1; 7] /\
  np_sum [1; 7] = np_prod [2; 2; 2].
Proof.
  split; [reflexivity |]. split; [reflexivity |].
  destruct (C1_weight_sum (F := integer_float) cube identity_only
              [0; 300] [None] None None None 0 cube_instance eq_refl)
    as (mesh & d & coarse & _ & _ & _ & Hc & Hok & _).
  change (Some [2; 2; 2] = Some coarse) in Hc. injection Hc as <-.
  exact (Hok eq_refl).
Defined.

(** ** The iterator (C6, C7, C9) *)

Section Iterator.

Context `{F : Float} `{K : !Kernels} `{Sub : !Subclass}.

Lemma next_exhausted (self : Conductivity) (gps : list Z) :
  _grid_points self = Some gps ->
  _grid_point_count self = Some (length gps) ->
  next self = (Raise StopIteration, self).
Proof.
  intros Hg Hc. unfold next.
  rewrite bind_gets. erewrite bind_attr by exact Hg.
  rewrite Hc, decide_True by reflexivity. reflexivity.
Qed.

Lemma next_advance (self : Conductivity) (gps : list Z) (c : nat) :
  keeps_cursor _run_at_grid_point ->
  _grid_points self = Some gps ->
  _grid_point_count self = Some c ->
  c <> length gps ->
  next self =
  match _run_at_grid_point self with
  | (Ok _, mid) => (Ok c, with_grid_point_count (Some (S c)) mid)
  | (Raise e, mid) => (Raise e, mid)
  end.
Proof.
  intros Hkeep Hg Hc Hne. unfold next.
  rewrite bind_gets. erewrite bind_attr by exact Hg.
  rewrite Hc, decide_False by congruence.
  destruct (Hkeep self) as [Hcount _].
  unfold bind at 1.
  destruct (_run_at_grid_point self) as [[u|e] mid]; [| reflexivity].
  simpl in Hcount. rewrite Hc in Hcount.
  erewrite bind_attr by exact Hcount.
  rewrite bind_modify. erewrite bind_attr by reflexivity.
  unfold ret. repeat f_equal; lia.
Qed.

(** C6: in the exhausted state every call of [next] raises [StopIteration]
    and gives the instance back as it was (tensors, counters and history of
    kernel calls), after any number of earlier calls in that state. *)
Theorem C6_exhausted (self : Conductivity) (gps : list Z) :
  get_grid_points self = Some gps ->
  get_grid_point_count self = Some (length gps) ->
  forall n,
    after_calls n self = self /\
    next (after_calls n self) = (Raise StopIteration, self).
Proof.
  intros Hg Hc n.
  assert (Hn : after_calls n self = self).
  { induction n as [|n IH]; [reflexivity |].
    unfold after_calls in *. simpl. rewrite IH.
    rewrite (next_exhausted self gps Hg Hc). reflexivity. }
  split; [exact Hn |]. rewrite Hn. apply (next_exhausted self gps Hg Hc).
Qed.

Lemma step_by_step_succ (n : nat) (self : Conductivity) :
  step_by_step (S n) self =
  match next self with
  | (Ok i, mid) =>
      match step_by_step n mid with
      | (Ok rest, self') => (Ok (i :: rest), self')
      | (Raise e, self') => (Raise e, self')
      end
  | (Raise e, mid) => (Raise e, mid)
  end.
Proof.
  simpl. unfold bind at 1. destruct (next self) as [[i|e] mid]; [| reflexivity].
  unfold bind. destruct (step_by_step n mid) as [[rest|e] self']; reflexivity.
Qed.

(** [k] advances from a cursor at [c]. *)
Lemma step_by_step_count (k : nat) :
  keeps_cursor _run_at_grid_point ->
  forall (self : Conductivity) (gps : list Z) (c : nat) (idxs : list nat),
    _grid_points self = Some gps ->
    _grid_point_count self = Some c ->
    (c <= length gps)%nat ->
    fst (step_by_step k self) = Ok idxs ->
    idxs = seq c k /\
    _grid_point_count (snd (step_by_step k self)) = Some (c + k)%nat /\
    _grid_points (snd (step_by_step k self)) = Some gps /\
    (c + k <= length gps)%nat.
Proof.
  intros Hkeep. induction k as [|k IH]; intros self gps c idxs Hg Hc Hle Hok.
  - simpl in *. inversion Hok. rewrite Nat.add_0_r. auto.
  - rewrite step_by_step_succ in *.
    destruct (decide (c = length gps)) as [-> | Hne].
    + rewrite (next_exhausted self gps Hg Hc) in Hok. discriminate Hok.
    + rewrite (next_advance self gps c Hkeep Hg Hc Hne) in *.
      destruct (Hkeep self) as [Hcount Hpoints].
      destruct (_run_at_grid_point self) as [[u|e] mid];
        [| discriminate Hok].
      simpl in Hcount, Hpoints.
      specialize (IH (with_grid_point_count (Some (S c)) mid) gps (S c)).
      destruct (step_by_step k (with_grid_point_count (Some (S c)) mid))
        as [[rest|e] self'] eqn:E; [| discriminate Hok].
      simpl in Hok. inversion Hok; subst idxs.
      destruct (IH rest) as (Hrest & Hc' & Hg' & Hle');
        [ simpl; congruence | reflexivity | lia | reflexivity |].
      simpl in *. subst rest.
      rewrite Hc', Hg'. repeat split; try reflexivity; try lia.
      f_equal. f_equal. lia.
Qed.

(** The loop of [run] from a cursor at [c], against stepping by hand. *)
Lemma for_in_steps (k : nat) :
  keeps_cursor _run_at_grid_point ->
  forall (self : Conductivity) (gps : list Z) (c fuel : nat),
    _grid_points self = Some gps ->
    _grid_point_count self = Some c ->
    (c + k = length gps)%nat ->
    (k < fuel)%nat ->
    for_in fuel self = Some (end_of_loop (step_by_step k self)).
Proof.
  intros Hkeep. induction k as [|k IH]; intros self gps c fuel Hg Hc Hk Hfuel.
  - destruct fuel as [|fuel]; [lia |]. simpl.
    rewrite (next_exhausted self gps Hg) by (rewrite Hc; f_equal; lia).
    reflexivity.
  - destruct fuel as [|fuel]; [lia |].
    rewrite step_by_step_succ.
    cbn [for_in].
    rewrite (next_advance self gps c Hkeep Hg Hc) by lia.
    destruct (Hkeep self) as [Hcount Hpoints].
    destruct (_run_at_grid_point self) as [[u|e] mid].
    + simpl in Hcount, Hpoints.
      rewrite (IH (with_grid_point_count (Some (S c)) mid) gps (S c) fuel);
        [| simpl; congruence | reflexivity | lia | lia ].
      destruct (step_by_step k (with_grid_point_count (Some (S c)) mid))
        as [[rest|e] self']; [reflexivity |].
      destruct e; reflexivity.
    + destruct e; reflexivity.
Qed.

(** [k] advances raise such an observable by [k]. *)
Lemma step_by_step_tally (tally : Conductivity -> Z) (k : nat) :
  keeps_cursor _run_at_grid_point ->
  counts_points tally _run_at_grid_point ->
  forall (self : Conductivity) (gps : list Z) (c : nat) (idxs : list nat),
    _grid_points self = Some gps ->
    _grid_point_count self = Some c ->
    fst (step_by_step k self) = Ok idxs ->
    tally (snd (step_by_step k self)) = tally self + Z.of_nat k.
Proof.
  intros Hkeep [Hcall Hcount].
  induction k as [|k IH]; intros self gps c idxs Hg Hc Hok.
  - simpl. lia.
  - rewrite step_by_step_succ in *.
    destruct (decide (c = length gps)) as [-> | Hne].
    + rewrite (next_exhausted self gps Hg Hc) in Hok. discriminate Hok.
    + rewrite (next_advance self gps c Hkeep Hg Hc Hne) in *.
      destruct (Hkeep self) as [_ Hpoints].
      pose proof (Hcall self) as Hone.
      destruct (_run_at_grid_point self) as [[u|e] mid];
        [| discriminate Hok].
      simpl in Hpoints, Hone.
      specialize (IH (with_grid_point_count (Some (S c)) mid) gps (S c)).
      destruct (step_by_step k (with_grid_point_count (Some (S c)) mid))
        as [[rest|e] self'] eqn:E; [| discriminate Hok].
      simpl in *.
      rewrite (IH rest) by (simpl; congruence).
      rewrite Hcount, (Hone u eq_refl). lia.
Qed.

(** The loop of [run] from a cursor at [c]: it ends after [k] advances,
    on exhaustion or on the per-point call that raises. *)
Lemma for_in_count (n : nat) :
  keeps_cursor _run_at_grid_point ->
  forall (self : Conductivity) (gps : list Z) (c fuel : nat),
    _grid_points self = Some gps ->
    _grid_point_count self = Some c ->
    (c + n = length gps)%nat ->
    (n < fuel)%nat ->
    exists k r done,
      for_in fuel self = Some (r, done) /\
      fst (step_by_step k self) = Ok (seq c k) /\
      _grid_point_count done = Some (c + k)%nat /\
      (k = n /\ r = Ok tt /\ done = snd (step_by_step k self) \/
       (k < n)%nat /\
       exists e,
         fst (_run_at_grid_point (snd (step_by_step k self))) = Raise e /\
         done = snd (_run_at_grid_point (snd (step_by_step k self)))).
Proof.
  intros Hkeep. induction n as [|n IH]; intros self gps c fuel Hg Hc Hn Hfuel.
  - destruct fuel as [|fuel]; [lia |]. exists 0%nat, (Ok tt), self.
    cbn [for_in].
    rewrite (next_exhausted self gps Hg) by (rewrite Hc; f_equal; lia).
    rewrite Nat.add_0_r. simpl.
    split; [reflexivity |]. split; [reflexivity |]. split; [exact Hc |].
    left. auto.
  - destruct fuel as [|fuel]; [lia |]. cbn [for_in].
    rewrite (next_advance self gps c Hkeep Hg Hc) by lia.
    destruct (Hkeep self) as [Hcount Hpoints].
    destruct (_run_at_grid_point self) as [[u|e] mid] eqn:Hrun.
    + simpl in Hcount, Hpoints.
      destruct (IH (with_grid_point_count (Some (S c)) mid) gps (S c) fuel)
        as (k & r & done & Hfor & Hsteps & Hdone & Hend);
        [simpl; congruence | reflexivity | lia | lia |].
      exists (S k), r, done.
      rewrite step_by_step_succ.
      rewrite (next_advance self gps c Hkeep Hg Hc) by lia.
      rewrite Hrun.
      destruct (step_by_step k (with_grid_point_count (Some (S c)) mid))
        as [[rest|e] self'] eqn:E; [| discriminate Hsteps].
      simpl in Hsteps, Hend |- *. injection Hsteps as ->.
      split; [exact Hfor |]. split; [reflexivity |].
      split; [rewrite Hdone; f_equal; lia |].
      destruct Hend as [(-> & -> & ->) | (Hk & e & He & ->)].
      * left. auto.
      * right. split; [lia |]. exists e. auto.
    + simpl in Hcount.
      exists 0%nat, (end_of_loop (Raise (A := unit) e, mid)).1, mid.
      rewrite Nat.add_0_r. simpl.
      split; [destruct e; reflexivity |]. split; [reflexivity |].
      split; [congruence |].
      right. split; [lia |]. exists e. rewrite Hrun. auto.
Qed.

(** C7: after a successful [initialize], [run] (with enough fuel for one
    call of [next] per selected point and one more) ends with exactly the
    outcome and the instance that stepping by hand through all selected
    points reaches; when all those steps succeed they returned the indices
    in order and the next call raises [StopIteration]. *)
Theorem C7_run_is_stepping :
  keeps_cursor _run_at_grid_point ->
  forall (grid_points : option (list Z)) (self : Conductivity),
    fst (initialize grid_points self) = Ok tt ->
    let ready := snd (initialize grid_points self) in
    exists gps,
      get_grid_points ready = Some gps /\
      (forall fuel,
         (length gps < fuel)%nat ->
         run fuel ready =
         Some (end_of_loop (step_by_step (length gps) ready))) /\
      (forall idxs,
         fst (step_by_step (length gps) ready) = Ok idxs ->
         idxs = seq 0 (length gps) /\
         next (snd (step_by_step (length gps) ready)) =
         (Raise StopIteration, snd (step_by_step (length gps) ready))).
Proof.
  intros Hkeep grid_points self Hok ready.
  destruct (initialize_ready grid_points self Hok) as (gps & Hg & Hc & _).
  fold ready in Hg, Hc.
  exists gps. split; [exact Hg |]. split.
  - intros fuel Hfuel. unfold run, __iter__.
    apply (for_in_steps (length gps) Hkeep ready gps 0%nat fuel);
      [exact Hg | exact Hc | reflexivity | exact Hfuel].
  - intros idxs Hsteps.
    destruct (step_by_step_count (length gps) Hkeep ready gps 0%nat idxs
                Hg Hc ltac:(lia) Hsteps) as (Hidx & Hc' & Hg' & _).
    split; [exact Hidx |].
    apply (next_exhausted _ gps Hg'). rewrite Hc'. reflexivity.
Qed.

(** C9: the counter is the number of grid points processed.  The counter
    is 0 after [initialize].  A call of [next] on an iterator that is not
    exhausted is one call of the per-point method followed, when that call
    returns, by raising the counter by one: it returns the counter it
    found and leaves it one higher, and when the per-point call raises the
    counter stays.  After [k] successful calls from a fresh [initialize]
    the returned indices are [0 .. k-1] and the counter is [k], which never
    exceeds the number of selected points and, when it reaches it, the
    iterator is exhausted.  [run] returns (given fuel for one call of
    [next] per selected point and one more) after some [k] successful
    advances with the counter at [k]: either all selected points were
    processed, or the per-point call for point [k] raised.  Whatever
    observable each returning per-point call raises by one, every
    successful advance raises it by one, so that it has grown by the
    counter. *)
Theorem C9_grid_point_count :
  keeps_cursor _run_at_grid_point ->
  (forall grid_points self,
     fst (initialize grid_points self) = Ok tt ->
     get_grid_point_count (snd (initialize grid_points self)) = Some 0%nat) /\
  (forall self gps c,
     get_grid_points self = Some gps ->
     get_grid_point_count self = Some c ->
     (c <> length gps ->
      next self =
      match _run_at_grid_point self with
      | (Ok _, mid) => (Ok c, with_grid_point_count (Some (S c)) mid)
      | (Raise e, mid) => (Raise e, mid)
      end) /\
     (forall i,
        fst (next self) = Ok i ->
        i = c /\ get_grid_point_count (snd (next self)) = Some (S c)) /\
     (forall e,
        fst (next self) = Raise e ->
        get_grid_point_count (snd (next self)) = Some c)) /\
  (forall grid_points self k idxs,
     fst (initialize grid_points self) = Ok tt ->
     let ready := snd (initialize grid_points self) in
     fst (step_by_step k ready) = Ok idxs ->
     idxs = seq 0 k /\
     get_grid_point_count (snd (step_by_step k ready)) = Some k /\
     exists gps,
       get_grid_points ready = Some gps /\
       (k <= length gps)%nat /\
       (k = length gps ->
        fst (next (snd (step_by_step k ready))) = Raise StopIteration)) /\
  (forall grid_points self fuel,
     fst (initialize grid_points self) = Ok tt ->
     let ready := snd (initialize grid_points self) in
     exists gps,
       get_grid_points ready = Some gps /\
       ((length gps < fuel)%nat ->
        exists k r done,
          run fuel ready = Some (r, done) /\
          fst (step_by_step k ready) = Ok (seq 0 k) /\
          get_grid_point_count done = Some k /\
          (k = length gps /\ r = Ok tt /\
           done = snd (step_by_step k ready) \/
           (k < length gps)%nat /\
           exists e,
             fst (_run_at_grid_point (snd (step_by_step k ready))) =
             Raise e))) /\
  (forall tally : Conductivity -> Z,
     counts_points tally _run_at_grid_point ->
     (forall self gps c i,
        get_grid_points self = Some gps ->
        get_grid_point_count self = Some c ->
        fst (next self) = Ok i ->
        tally (snd (next self)) = tally self + 1) /\
     (forall grid_points self k idxs,
        fst (initialize grid_points self) = Ok tt ->
        let ready := snd (initialize grid_points self) in
        fst (step_by_step k ready) = Ok idxs ->
        tally (snd (step_by_step k ready)) = tally ready + Z.of_nat k)).
Proof.
  intros Hkeep. split; [| split; [| split; [| split]]].
  - intros grid_points self Hok.
    destruct (initialize_ready grid_points self Hok) as (gps & _ & Hc & _).
    exact Hc.
  - intros self gps c Hg Hc.
    split; [intros Hne; apply (next_advance self gps c Hkeep Hg Hc Hne) |].
    destruct (decide (c = length gps)) as [-> | Hne].
    + rewrite (next_exhausted self gps Hg Hc). simpl.
      split; [intros i Hok; discriminate Hok | intros e _; exact Hc].
    + rewrite (next_advance self gps c Hkeep Hg Hc Hne).
      destruct (Hkeep self) as [Hcount _].
      destruct (_run_at_grid_point self) as [[u|e] mid]; simpl in *.
      * split; [| intros e He; discriminate He].
        intros i Hi. injection Hi as <-. auto.
      * split; [intros i Hi; discriminate Hi |].
        intros e' _. unfold get_grid_point_count in *. congruence.
  - intros grid_points self k idxs Hok ready Hsteps.
    destruct (initialize_ready grid_points self Hok) as (gps & Hg & Hc & _).
    fold ready in Hg, Hc.
    destruct (step_by_step_count k Hkeep ready gps 0%nat idxs
                Hg Hc ltac:(lia) Hsteps) as (Hidx & Hc' & Hg' & Hle).
    split; [exact Hidx |]. split; [exact Hc' |].
    exists gps. split; [exact Hg |]. split; [exact Hle |].
    intros ->. rewrite (next_exhausted _ gps Hg' Hc'). reflexivity.
  - intros grid_points self fuel Hok ready.
    destruct (initialize_ready grid_points self Hok) as (gps & Hg & Hc & _).
    fold ready in Hg, Hc.
    exists gps. split; [exact Hg |]. intros Hfuel.
    destruct (for_in_count (length gps) Hkeep ready gps 0%nat fuel
                Hg Hc eq_refl Hfuel)
      as (k & r & done & Hrun & Hsteps & Hdone & Hend).
    exists k, r, done. split; [exact Hrun |]. split; [exact Hsteps |].
    split; [exact Hdone |].
    destruct Hend as [(-> & -> & ->) | (Hk & e & He & _)].
    + left. auto.
    + right. split; [exact Hk |]. exists e. exact He.
  - intros tally Htally. split.
    + intros self gps c i Hg Hc Hi.
      destruct (decide (c = length gps)) as [-> | Hne].
      * rewrite (next_exhausted self gps Hg Hc) in Hi. discriminate Hi.
      * rewrite (next_advance self gps c Hkeep Hg Hc Hne) in *.
        destruct Htally as [Hcall Hassign].
        pose proof (Hcall self) as Hone.
        destruct (_run_at_grid_point self) as [[u|e] mid]; simpl in *;
          [| discriminate Hi].
        rewrite Hassign, (Hone u eq_refl). reflexivity.
    + intros grid_points self k idxs Hok ready Hsteps.
      destruct (initialize_ready grid_points self Hok)
        as (gps & Hg & Hc & _).
      fold ready in Hg, Hc.
      apply (step_by_step_tally tally k Hkeep Htally ready gps 0%nat
               idxs Hg Hc Hsteps).
Qed.

(** Invariants of the per-point method that do not read the counter are
    invariants of the iterator. *)
Lemma stable_next (I : Conductivity -> Prop) :
  stable I _run_at_grid_point ->
  (forall self v, I self -> I (with_grid_point_count v self)) ->
  stable I next.
Proof.
  intros Hrun Hcount. unfold next.
  repeat first [ stable_step | exact Hrun | apply stable_modify; auto ].
Qed.

Lemma stable_step_by_step (I : Conductivity -> Prop) (n : nat) :
  stable I _run_at_grid_point ->
  (forall self v, I self -> I (with_grid_point_count v self)) ->
  stable I (step_by_step n).
Proof.
  intros Hrun Hcount. induction n as [|n IH]; cbn [step_by_step].
  - apply stable_ret.
  - apply stable_bind; [apply stable_next; assumption |].
    intros i. apply stable_bind; [exact IH |].
    intros rest. apply stable_ret.
Qed.

Lemma stable_for_in (I : Conductivity -> Prop) (fuel : nat) :
  stable I _run_at_grid_point ->
  (forall self v, I self -> I (with_grid_point_count v self)) ->
  forall self r self',
    I self -> for_in fuel self = Some (r, self') -> I self'.
Proof.
  intros Hrun Hcount. induction fuel as [|fuel IH]; intros self r self' HI H.
  - discriminate H.
  - simpl in H.
    pose proof (stable_next I Hrun Hcount self HI) as Hnext.
    destruct (next self) as [[i|e] mid]; simpl in Hnext.
    + apply (IH mid r self' Hnext H).
    + destruct e; inversion H; subst; exact Hnext.
Qed.

End Iterator.

(** ** A supplied linewidth array (C4) *)

Section SuppliedGamma.

Context `{F : Float} `{K : !Kernels} `{Acc : !Accumulator}.

Lemma per_point_keeps_cursor : keeps_cursor per_point_processing.
Proof.
  intros self.
  assert (H : stable
            (fun it => _grid_point_count it = _grid_point_count self /\
                       _grid_points it = _grid_points self)
            per_point_processing).
  { unfold per_point_processing, _set_gamma_at_sigmas, gamma_at_sigma,
      gamma_at_temperature, _set_gamma_isotope_at_sigmas,
      gamma_isotope_at_sigma, _set_kappa_at_sigmas.
    stable_auto. }
  apply H. auto.
Qed.

Lemma supplied_emit (g : tensor4) (ise : list call) (msg : message) :
  stable (supplied g ise) (emit msg).
Proof.
  intros self (Hr & Hg & Hh). unfold supplied. cbn.
  rewrite filter_app. cbn. rewrite app_nil_r. auto.
Qed.

Lemma supplied_extern (g : tensor4) (ise : list call) (c : call) :
  is_ise_call c = false -> stable (supplied g ise) (extern c).
Proof.
  intros Hc self (Hr & Hg & Hh). unfold supplied, extern.
  destruct (raises (history self ++ [c])); cbn;
    rewrite filter_app; cbn; rewrite Hc; cbn; rewrite app_nil_r; auto.
Qed.

Ltac supplied_auto :=
  repeat first
    [ stable_step
    | apply supplied_emit
    | apply supplied_extern; reflexivity ].

Lemma supplied_per_point (g : tensor4) (ise : list call) :
  stable (supplied g ise) per_point_processing.
Proof.
  intros self Hs. pose proof Hs as (Hr & Hg & Hh).
  unfold per_point_processing.
  unfold bind at 1, attr.
  destruct (_grid_point_count self) as [i|]; [| exact Hs].
  rewrite bind_gets, Hr. cbn [negb when]. rewrite bind_ret.
  revert self Hs Hr Hg Hh.
  match goal with
  | |- forall self, _ -> _ -> _ -> _ -> supplied _ _ (snd (?rest self)) =>
      assert (Hrest : stable (supplied g ise) rest)
  end.
  { unfold _set_gamma_isotope_at_sigmas, gamma_isotope_at_sigma,
      _set_kappa_at_sigmas.
    supplied_auto. }
  intros self Hs _ _ _. apply Hrest, Hs.
Qed.

Lemma supplied_allocate (g : tensor4) (ise : list call) :
  stable (supplied g ise) _allocate_values.
Proof.
  intros self Hs. pose proof Hs as (Hr & Hg & Hh).
  unfold _allocate_values. rewrite bind_gets.
  unfold bind at 1, attr.
  destruct (_grid_points self) as [gps|]; [| exact Hs].
  rewrite !bind_gets, bind_modify, bind_gets.
  cbn [_read_gamma with_kappa]. rewrite Hr. cbn [negb when].
  rewrite bind_ret, !bind_modify. unfold modify. cbn. exact Hs.
Qed.

Lemma supplied_initialize (g : tensor4) (ise : list call)
    (grid_points : option (list Z)) :
  stable (supplied g ise) (initialize grid_points).
Proof.
  unfold initialize, specified_grid_points, all_grid_points,
    automatic_sampling.
  repeat first
    [ apply supplied_allocate
    | stable_step
    | apply supplied_emit
    | apply supplied_extern; reflexivity ].
Qed.

(** C4: a linewidth array supplied through [set_gamma] before [initialize]
    is still the array of the instance after [initialize], after any number
    of steps taken by hand and at the end of [run], and the self-energy
    kernel has not been called in between; [run] does end.  The per-point
    method is the one the spec describes. *)
Theorem C4_supplied_gamma_untouched (g : tensor4)
    (grid_points : option (list Z)) (self : Conductivity) :
  let supplied_to := snd (set_gamma g self) in
  let ready := snd (initialize grid_points supplied_to) in
  let ise := filter is_ise_call (history self) in
  supplied g ise ready /\
  (forall k, supplied g ise (snd (step_by_step (Sub := spec_subclass) k ready))) /\
  (forall fuel r done,
     run (Sub := spec_subclass) fuel ready = Some (r, done) ->
     supplied g ise done) /\
  (fst (initialize grid_points supplied_to) = Ok tt ->
   exists gps r done,
     get_grid_points ready = Some gps /\
     run (Sub := spec_subclass) (S (length gps)) ready = Some (r, done) /\
     get_gamma done = Some g).
Proof.
  intros supplied_to ready ise.
  assert (H0 : supplied g ise supplied_to) by (repeat split).
  assert (H1 : supplied g ise ready)
    by (apply supplied_initialize, H0).
  assert (Hcount : forall it v,
            supplied g ise it -> supplied g ise (with_grid_point_count v it))
    by (intros ? ? ?; assumption).
  assert (Hrun : forall fuel r done,
            run (Sub := spec_subclass) fuel ready = Some (r, done) ->
            supplied g ise done).
  { intros fuel r done Hr.
    apply (stable_for_in (Sub := spec_subclass) (supplied g ise) fuel
             (supplied_per_point g ise) Hcount ready r done H1 Hr). }
  split; [exact H1 |]. split; [| split; [exact Hrun |]].
  - intros k.
    apply (stable_step_by_step (Sub := spec_subclass) (supplied g ise) k
             (supplied_per_point g ise) Hcount ready H1).
  - intros Hok.
    destruct (initialize_ready grid_points supplied_to Hok)
      as (gps & Hg & Hc & _).
    fold ready in Hg, Hc.
    pose proof (for_in_steps (Sub := spec_subclass) (length gps)
                  per_point_keeps_cursor ready gps 0%nat (S (length gps))
                  Hg Hc eq_refl ltac:(lia)) as Hsteps.
    change (for_in (S (length gps)) ready)
      with (run (Sub := spec_subclass) (S (length gps)) ready) in Hsteps.
    destruct (end_of_loop (step_by_step (length gps) ready)) as [r done].
    exists gps, r, done. split; [exact Hg |]. split; [exact Hsteps |].
    apply (Hrun _ _ _ Hsteps).
Qed.

End SuppliedGamma.

(** ** Requests for integration weights (C8) *)

Section IntegrationWeights.

Context `{F : Float} `{K : !Kernels}.

Lemma extern_Ok (c : call) (self self' : Conductivity) (u : unit) :
  extern c self = (Ok u, self') ->
  self' = with_history (history self ++ [c]) self.
Proof.
  unfold extern. destruct (raises (history self ++ [c]));
    intros H; inversion H; reflexivity.
Qed.

Lemma query_Ok {A : Type} (f : list call -> A) (self self' : Conductivity)
    (a : A) :
  query f self = (Ok a, self') -> a = f (history self) /\ self' = self.
Proof. unfold query. intros H; inversion H; auto. Qed.

Lemma requests_call (c : call) (self : Conductivity) :
  requests (with_history (history self ++ [c]) self) =
  (requests self + (if is_weights_request c then 1 else 0))%nat.
Proof.
  unfold requests. cbn [history with_history].
  rewrite filter_app, length_app. f_equal.
  destruct (is_weights_request c) eqn:E.
  - rewrite filter_cons_True by (rewrite E; exact I). reflexivity.
  - rewrite filter_cons_False by (rewrite E; exact id). reflexivity.
Qed.

Lemma gamma_at_temperature_requests (i j k : nat) (t : double)
    (self self' : Conductivity) (u : unit) :
  gamma_at_temperature i j k t self = (Ok u, self') ->
  requests self' = (requests self + 0)%nat.
Proof.
  unfold gamma_at_temperature. intros H.
  apply bind_Ok in H. destruct H as (u1 & s1 & H1 & H).
  apply extern_Ok in H1. subst s1.
  apply bind_Ok in H. destruct H as (u2 & s2 & H2 & H).
  apply extern_Ok in H2. subst s2.
  apply bind_Ok in H. destruct H as (v & s3 & H3 & H).
  apply query_Ok in H3. destruct H3 as [_ ->].
  do 2 inv_bind H. apply modify_Ok in H. subst self'.
  change (requests (with_gamma (Some a0) ?s)) with (requests s).
  rewrite !requests_call. simpl. lia.
Qed.

Lemma gamma_at_sigma_requests (i j : nat) (sigma : option double)
    (self self' : Conductivity) (u : unit) :
  gamma_at_sigma i j sigma self = (Ok u, self') ->
  requests self' = (requests self + request_of sigma)%nat.
Proof.
  unfold gamma_at_sigma. intros H.
  inv_bind H.
  apply bind_Ok in H. destruct H as (u0 & s0 & H0 & H).
  assert (Hlog : requests s0 = requests self).
  { unfold when in H0. destruct (negb _).
    - unfold emit in H0. apply modify_Ok in H0. subst s0.
      rewrite requests_call. simpl. lia.
    - inversion H0; reflexivity. }
  apply bind_Ok in H. destruct H as (u1 & s1 & H1 & H).
  apply extern_Ok in H1. subst s1.
  apply bind_Ok in H. destruct H as (u2 & s2 & H2 & H).
  inv_bind H.
  apply (for_enumerate_from_sum requests (fun _ => 0%nat)) in H;
    [| intros; eapply gamma_at_temperature_requests; eassumption].
  rewrite H. clear H.
  assert (Hzero : forall l : list double,
            sum_list_with (fun _ => 0%nat) l = 0%nat)
    by (induction l; simpl; auto).
  rewrite Hzero, Nat.add_0_r.
  unfold request_of. unfold when in H2. destruct (not_sigma sigma).
  - apply extern_Ok in H2. subst s2.
    rewrite !requests_call. simpl. lia.
  - inversion H2; subst s2. rewrite requests_call. simpl. lia.
Qed.

(** The requests [_set_gamma_at_sigmas] makes when it returns: one for
    each entry of [sigmas] that is [None] or a zero float, whatever the
    number of temperatures. *)
Lemma set_gamma_at_sigmas_requests (i : nat) (self self' : Conductivity)
    (u : unit) :
  _set_gamma_at_sigmas i self = (Ok u, self') ->
  requests self' =
  (requests self + sum_list_with request_of (_sigmas self))%nat.
Proof.
  unfold _set_gamma_at_sigmas. intros H. inv_bind H.
  apply (for_enumerate_from_sum requests request_of) in H; [exact H |].
  intros; eapply gamma_at_sigma_requests; eassumption.
Qed.

Lemma made_emit (c : call) (msg : message) : stable (made c) (emit msg).
Proof. intros self H. unfold made. cbn. apply in_or_app. left. exact H. Qed.

Lemma made_extern (c c' : call) : stable (made c) (extern c').
Proof.
  intros self H. unfold made, extern.
  destruct (raises (history self ++ [c'])); cbn; apply in_or_app; left;
    exact H.
Qed.

Lemma made_gamma_at_sigma_rest (c : call) (i j : nat)
    (sigma : option double) :
  stable (made c)
    (extern (ise_set_sigma sigma) ;;
     when (not_sigma sigma) (extern ise_set_integration_weights) ;;
     temperatures <- gets _temperatures ;;
     for_enumerate temperatures (gamma_at_temperature i j)).
Proof.
  unfold gamma_at_temperature.
  repeat first [ stable_step | apply made_emit | apply made_extern ].
Qed.

(** C8, at the failing input: with the single numeric width [z] equal to
    zero, a successful [_set_gamma_at_sigmas] has requested tetrahedron
    integration weights once, while its own logging branch, when enabled,
    announced the entry as a numeric sigma. *)
Theorem C8_zero_width_requests_weights (self : Conductivity) (i : nat)
    (z : double) :
  _sigmas self = [Some z] ->
  nonzero z = false ->
  fst (_set_gamma_at_sigmas i self) = Ok tt ->
  requests (snd (_set_gamma_at_sigmas i self)) = (requests self + 1)%nat /\
  (_log_level self <> 0 ->
   made (print (calculating_gamma_of_ph_ph (sigma_is z)))
     (snd (_set_gamma_at_sigmas i self))).
Proof.
  intros Hsigmas Hzero Hok.
  destruct (_set_gamma_at_sigmas i self) as [o self'] eqn:E.
  simpl in Hok. subst o. cbn [snd]. split.
  - rewrite (set_gamma_at_sigmas_requests i self self' tt E), Hsigmas.
    cbn [sum_list_with]. unfold request_of, not_sigma.
    rewrite Hzero. reflexivity.
  - intros Hlog. unfold _set_gamma_at_sigmas in E.
    rewrite bind_gets, Hsigmas in E. unfold for_enumerate in E.
    cbn [for_enumerate_from] in E.
    apply bind_Ok in E. destruct E as (u & mid & E & Hret).
    inversion Hret; subst self'; clear Hret.
    unfold gamma_at_sigma in E. rewrite bind_gets in E.
    apply Z.eqb_neq in Hlog. rewrite Hlog in E. cbn [negb when] in E.
    unfold emit in E at 1. rewrite bind_modify in E.
    pose proof (made_gamma_at_sigma_rest
                  (print (calculating_gamma_of_ph_ph (sigma_is z)))
                  i 0 (Some z)) as Hrest.
    match type of E with
    | _ ?s = _ => specialize (Hrest s)
    end.
    rewrite E in Hrest. apply Hrest.
    unfold made. cbn. apply in_or_app. right. left. reflexivity.
Qed.

End IntegrationWeights.

(** ** Allocation with a supplied array (C5) *)

Section Allocation.

Context `{F : Float} `{K : !Kernels}.

Lemma blind_ret {A : Type} (a : A) : blind (ret a).
Proof. intros self v H. split; [reflexivity | exact H]. Qed.

Lemma blind_raise {A : Type} (e : exn) : blind (raise (A := A) e).
Proof. intros self v H. split; [reflexivity | exact H]. Qed.

Lemma blind_lift {A : Type} (o : outcome A) : blind (lift o).
Proof. intros self v H. split; [reflexivity | exact H]. Qed.

Lemma blind_gets {A : Type} (f : Conductivity -> A) :
  (forall self v, f (with_gamma v self) = f self) -> blind (gets f).
Proof.
  intros Hf self v H. unfold gets. rewrite Hf. split; [reflexivity | exact H].
Qed.

Lemma blind_attr {A : Type} (f : Conductivity -> option A) :
  (forall self v, f (with_gamma v self) = f self) -> blind (attr f).
Proof.
  intros Hf self v H. unfold attr. rewrite Hf.
  destruct (f self); (split; [reflexivity | exact H]).
Qed.

Lemma blind_modify (f : Conductivity -> Conductivity) :
  (forall self v, f (with_gamma v self) = with_gamma v (f self)) ->
  (forall self, _read_gamma (f self) = _read_gamma self) ->
  blind (modify f).
Proof.
  intros Hf Hr self v H. unfold modify. rewrite Hf. cbn [fst snd].
  split; [reflexivity | rewrite Hr; exact H].
Qed.

Lemma blind_extern (c : call) : blind (extern c).
Proof.
  intros self v H. unfold extern. cbn [history with_gamma].
  destruct (raises (history self ++ [c])); (split; [reflexivity | exact H]).
Qed.

Lemma blind_query {A : Type} (f : list call -> A) : blind (query f).
Proof. intros self v H. split; [reflexivity | exact H]. Qed.

Lemma blind_bind {A B : Type} (m : M A) (k : A -> M B) :
  blind m -> (forall a, blind (k a)) -> blind (bind m k).
Proof.
  intros Hm Hk self v H. unfold bind.
  destruct (Hm self v H) as [Hrun Hread]. rewrite Hrun.
  destruct (m self) as [[a|e] mid]; cbn [fst snd] in *.
  - apply Hk, Hread.
  - split; [reflexivity | exact Hread].
Qed.

(** The one place where the flag is read: with a supplied array the
    allocation of gamma is skipped. *)
Lemma blind_skip {B : Type} (allocate : M unit) (rest : M B) :
  blind rest ->
  blind (read_gamma <- gets _read_gamma ;;
         when (negb read_gamma) allocate ;;
         rest).
Proof.
  intros Hrest self v H. rewrite !bind_gets.
  cbn [_read_gamma with_gamma]. rewrite H. cbn [negb when].
  rewrite !bind_ret. apply Hrest, H.
Qed.

Ltac blind_step :=
  first
    [ apply blind_ret | apply blind_raise | apply blind_lift
    | apply blind_query | apply blind_extern | apply blind_skip
    | apply blind_gets; intros ? ?; reflexivity
    | apply blind_attr; intros ? ?; reflexivity
    | apply blind_modify; [intros ? ?; reflexivity | intros ?; reflexivity]
    | apply blind_bind
    | match goal with
      | |- blind (match ?x with _ => _ end) => destruct x
      end
    | match goal with
      | |- forall _, _ => intro
      end ].

Lemma blind_initialize (grid_points : option (list Z)) :
  blind (initialize grid_points).
Proof.
  unfold initialize, specified_grid_points, all_grid_points,
    automatic_sampling, _allocate_values.
  repeat blind_step.
Qed.

(** C5, amended: allocation does not look at a supplied array.  Whatever
    its shape, [_allocate_values] returns normally once the grid points are
    selected, the array stays the linewidth array of the instance through
    [_allocate_values] and through [initialize], and [initialize] ends in
    the same way for any other supplied array. *)
Theorem C5_allocation_keeps_any_supplied_gamma (g : tensor4)
    (self : Conductivity) :
  _read_gamma self = true ->
  _gamma self = Some g ->
  (forall gps,
     _grid_points self = Some gps -> fst (_allocate_values self) = Ok tt) /\
  get_gamma (snd (_allocate_values self)) = Some g /\
  (forall grid_points,
     get_gamma (snd (initialize grid_points self)) = Some g) /\
  (forall grid_points g',
     fst (initialize grid_points (snd (set_gamma g' self))) =
     fst (initialize grid_points self)).
Proof.
  intros Hr Hg.
  assert (Hs : supplied g (filter is_ise_call (history self)) self)
    by (repeat split; assumption).
  split; [| split; [| split]].
  - intros gps Hgps. unfold _allocate_values.
    rewrite bind_gets. erewrite bind_attr by exact Hgps.
    rewrite !bind_gets, bind_modify, bind_gets.
    cbn [_read_gamma with_kappa]. rewrite Hr. reflexivity.
  - apply (supplied_allocate g _ self Hs).
  - intros grid_points. apply (supplied_initialize g _ grid_points self Hs).
  - intros grid_points g'.
    assert (Hset : snd (set_gamma g' self) = with_gamma (Some g') self).
    { destruct self. cbn in Hr. subst. reflexivity. }
    rewrite Hset.
    destruct (blind_initialize grid_points self (Some g') Hr) as [Hrun _].
    rewrite Hrun. reflexivity.
Qed.

End Allocation.

(** C5 as stated fails: an empty array, supplied where the shape is
    1 x 2 x 2 x 3, passes [initialize]. *)
Lemma C5_wrong_shape_accepted :
  let supplied_to := snd (set_gamma [] cube_instance) in
  let ready := snd (initialize None supplied_to) in
  ~ (~ expected_shape ready [] ->
     exists e, fst (initialize None supplied_to) = Raise e).
Proof.
  intros supplied_to ready H.
  destruct H as [e He].
  - intros [Hlen _]. discriminate Hlen.
  - discriminate He.
Qed.

Lemma C5_allocation_keeps_any_supplied_gamma_witness :
  let supplied_to := snd (set_gamma [[[[7]]]] cube_instance) in
  (_read_gamma supplied_to = true /\ _gamma supplied_to = Some [[[[7]]]]) /\
  get_gamma (snd (initialize None supplied_to)) = Some [[[[7]]]].
Proof.
  intros supplied_to. split; [split; reflexivity |].
  destruct (C5_allocation_keeps_any_supplied_gamma (F := integer_float)
              [[[[7]]]] supplied_to eq_refl eq_refl) as (_ & _ & Hinit & _).
  apply Hinit.
Defined.

Lemma C6_exhausted_witness :
  (get_grid_points cube_done = Some [0; 1] /\
   get_grid_point_count cube_done = Some 2%nat) /\
  next (Sub := spec_subclass) (after_calls 3 cube_done) =
  (Raise StopIteration, cube_done).
Proof.
  assert (Hg : get_grid_points cube_done = Some [0; 1]) by reflexivity.
  assert (Hc : get_grid_point_count cube_done = Some (length [0; 1]))
    by reflexivity.
  split; [split; assumption |].
  apply (C6_exhausted (Sub := spec_subclass) cube_done [0; 1] Hg Hc 3).
Defined.

Lemma C7_run_is_stepping_witness :
  fst (initialize None cube_instance) = Ok tt /\
  run (Sub := spec_subclass) 3 (snd (initialize None cube_instance)) =
  Some (end_of_loop
          (step_by_step (Sub := spec_subclass) 2
             (snd (initialize None cube_instance)))).
Proof.
  assert (Hok : fst (initialize None cube_instance) = Ok tt) by reflexivity.
  split; [exact Hok |].
  destruct (C7_run_is_stepping (Sub := spec_subclass) per_point_keeps_cursor
              None cube_instance Hok) as (gps & Hg & Hrun & _).
  change (Some [0; 1] = Some gps) in Hg. injection Hg as <-.
  apply (Hrun 3%nat). cbn [length]. lia.
Defined.

(** The running count of sampled star members tells the points processed
    when the accumulation adds one per point. *)
Lemma per_point_counts_points :
  counts_points (F := integer_float)
    (fun self => default 0 (_sum_num_kstar self))
    (per_point_processing (K := quiet_kernels) (Acc := counting_accumulator)).
Proof.
  split; [| intros self v; destruct self; reflexivity].
  intros self u H.
  destruct (per_point_processing self) as [o s'] eqn:E.
  simpl in H |- *. subst o. unfold per_point_processing in E.
  do 2 inv_bind E.
  apply bind_Ok in E. destruct E as (u1 & s1 & Hthermal & E).
  inv_bind E.
  apply bind_Ok in E. destruct E as (u2 & s2 & Hisotope & E).
  assert (H1 : _sum_num_kstar s1 = _sum_num_kstar self).
  { assert (Hst : stable
                    (fun it => _sum_num_kstar it = _sum_num_kstar self)
                    (when (negb (_read_gamma self))
                       (_set_gamma_at_sigmas a))).
    { unfold _set_gamma_at_sigmas, gamma_at_sigma, gamma_at_temperature.
      stable_auto. }
    specialize (Hst self eq_refl). rewrite Hthermal in Hst. exact Hst. }
  assert (H2 : _sum_num_kstar s2 = _sum_num_kstar s1).
  { assert (Hst : stable
                    (fun it => _sum_num_kstar it = _sum_num_kstar s1)
                    (match _isotope s1 with
                     | Some _ => _set_gamma_isotope_at_sigmas a
                     | None => ret tt
                     end)).
    { unfold _set_gamma_isotope_at_sigmas, gamma_isotope_at_sigma.
      stable_auto. }
    specialize (Hst s1 eq_refl). rewrite Hisotope in Hst. exact Hst. }
  unfold _set_kappa_at_sigmas in E. rewrite bind_gets in E.
  cbn [accumulate counting_accumulator] in E.
  do 3 inv_bind E. apply modify_Ok in E. subst s'.
  cbn. rewrite H2, H1. reflexivity.
Qed.

Lemma C9_grid_point_count_witness :
  (fst (initialize None cube_instance) = Ok tt /\
   fst (step_by_step (Sub := spec_subclass) 1
          (snd (initialize None cube_instance))) = Ok [0%nat]) /\
  get_grid_point_count (snd (initialize None cube_instance)) = Some 0%nat /\
  get_grid_point_count
    (snd (step_by_step (Sub := spec_subclass) 1
            (snd (initialize None cube_instance)))) = Some 1%nat /\
  default 0
    (_sum_num_kstar
       (snd (step_by_step (Sub := spec_subclass) 1
               (snd (initialize None cube_instance))))) =
  default 0 (_sum_num_kstar (snd (initialize None cube_instance))) + 1.
Proof.
  assert (Hok : fst (initialize None cube_instance) = Ok tt) by reflexivity.
  assert (Hone : fst (step_by_step (Sub := spec_subclass) 1
                        (snd (initialize None cube_instance))) = Ok [0%nat])
    by reflexivity.
  split; [split; assumption |].
  destruct (C9_grid_point_count (Sub := spec_subclass)
              per_point_keeps_cursor)
    as (Hinit & _ & Hsteps & _ & Htally).
  split; [exact (Hinit None cube_instance Hok) |].
  destruct (Hsteps None cube_instance 1%nat [0%nat] Hok Hone)
    as (_ & Hcount & _).
  split; [exact Hcount |].
  destruct (Htally (fun self => default 0 (_sum_num_kstar self))
              per_point_counts_points) as [_ Hgrown].
  exact (Hgrown None cube_instance 1%nat [0%nat] Hok Hone).
Defined.

Lemma C4_supplied_gamma_untouched_witness :
  fst (initialize None (snd (set_gamma [[[[7]]]] cube_instance))) = Ok tt /\
  exists r done,
    run (Sub := spec_subclass) 3
      (snd (initialize None (snd (set_gamma [[[[7]]]] cube_instance)))) =
    Some (r, done) /\
    get_gamma done = Some [[[[7]]]].
Proof.
  assert (Hok : fst (initialize None
                       (snd (set_gamma [[[[7]]]] cube_instance))) = Ok tt)
    by reflexivity.
  split; [exact Hok |].
  destruct (C4_supplied_gamma_untouched (F := integer_float) [[[[7]]]] None
              cube_instance) as (_ & _ & _ & Hrun).
  destruct (Hrun Hok) as (gps & r & done & Hg & Hdone & Hgamma).
  change (Some [0; 1] = Some gps) in Hg. injection Hg as <-.
  exists r, done. split; assumption.
Defined.

Lemma C8_zero_width_requests_weights_witness :
  (_sigmas zero_width_ready = [Some 0] /\ nonzero 0 = false /\
   fst (_set_gamma_at_sigmas 0 zero_width_ready) = Ok tt) /\
  requests (snd (_set_gamma_at_sigmas 0 zero_width_ready)) =
    (requests zero_width_ready + 1)%nat /\
  made (print (calculating_gamma_of_ph_ph (sigma_is 0)))
    (snd (_set_gamma_at_sigmas 0 zero_width_ready)).
Proof.
  assert (Hs : _sigmas zero_width_ready = [Some 0]) by reflexivity.
  assert (Hok : fst (_set_gamma_at_sigmas 0 zero_width_ready) = Ok tt)
    by reflexivity.
  split; [repeat split; solve [reflexivity | assumption] |].
  destruct (C8_zero_width_requests_weights (F := integer_float)
              zero_width_ready 0%nat 0 Hs eq_refl Hok) as [Hreq Hlog].
  split; [exact Hreq |]. apply Hlog.
  change (1 <> 0). discriminate.
Defined.

(** ** Strings *)

Lemma str_eqb_eq (a b : str) : str_eqb a b = true <-> a = b.
Proof.
  revert b. induction a as [|x a IH]; intros [|y b]; cbn [str_eqb];
    try (split; [discriminate | discriminate]); [tauto |].
  rewrite andb_true_iff, N.eqb_eq, IH.
  split; [intros [-> ->]; reflexivity | intros H; inversion H; auto].
Qed.

Lemma str_eqb_neq (a b : str) : str_eqb a b = false <-> a <> b.
Proof.
  rewrite <- str_eqb_eq. destruct (str_eqb a b); split; congruence.
Qed.

Lemma str_eqb_refl (a : str) : str_eqb a a = true.
Proof. apply str_eqb_eq. reflexivity. Qed.

(** Comparisons between literals, evaluated. *)
Ltac eval_literals :=
  repeat match goal with
  | |- context [str_eqb (take ?n (lit ?a)) (lit ?b)] =>
      let v := eval vm_compute in (str_eqb (take n (lit a)) (lit b)) in
      change (str_eqb (take n (lit a)) (lit b)) with v
  | |- context [str_eqb (lit ?a) (lit ?b)] =>
      let v := eval vm_compute in (str_eqb (lit a) (lit b)) in
      change (str_eqb (lit a) (lit b)) with v
  end.

(** ** The geometry reader (C10) *)

Section Geometry.

Context `{F : Float} `{Py : !Interpreter}.

Lemma mark_last_snoc (cs : list bool) (b : bool) :
  mark_last (cs ++ [false]) b = cs ++ [b].
Proof.
  unfold mark_last. destruct b; [| reflexivity].
  rewrite length_app. simpl. rewrite Nat.add_1_r. simpl.
  replace (length cs) with (length cs + 0)%nat by lia.
  rewrite insert_app_r. reflexivity.
Qed.

Lemma mark_last_twice (cs : list bool) (b : bool) :
  mark_last (mark_last cs true) b = mark_last cs (true || b).
Proof.
  unfold mark_last. simpl. destruct b; [| reflexivity].
  rewrite length_insert. apply list_insert_insert_eq.
Qed.


(** What one line does to the lists the claim is about. *)
Lemma read_line_Ok (line : str) (s s1 : locals) (u : unit) :
  read_line line s = (Ok u, s1) ->
  let fields := str_split line in
  if is_atom_line fields then
    exists pos sym flag,
      lmap py_float (slice 1 4 fields) = Ok pos /\
      fields !! 4%nat = Some sym /\
      (hd [] fields = lit "atom" -> flag = false) /\
      (hd [] fields = lit "atom_frac" -> flag = true) /\
      is_frac s1 = is_frac s ++ [flag] /\
      positions s1 = positions s ++ [pos] /\
      symbols s1 = symbols s ++ [sym] /\
      constraints s1 = constraints s ++ [false]
  else
    is_frac s1 = is_frac s /\
    positions s1 = positions s /\
    symbols s1 = symbols s /\
    constraints s1 = mark_last (constraints s) (is_constrain_true fields).
Proof.
  intros H. unfold read_line in H. cbv zeta in *.
  destruct (str_split line) as [|keyword rest] eqn:Hl.
  { inversion H; subst. simpl. auto. }
  destruct (str_eqb keyword (lit "lattice_vector")) eqn:E1.
  { apply str_eqb_eq in E1. subst keyword.
    do 2 inv_bind H. apply modify_Ok in H. subst s1.
    cbn [is_atom_line]. eval_literals.
    cbn. destruct rest; cbn; auto. }
  cbn [is_atom_line].
  destruct (str_eqb (take 4 keyword) (lit "atom")) eqn:E2.
  { apply bind_Ok in H. destruct H as (u0 & s0 & H0 & H).
    assert (Hs0 : is_frac s0 = is_frac s /\ positions s0 = positions s /\
                  symbols s0 = symbols s /\ constraints s0 = constraints s /\
                  (keyword = lit "atom" -> frac s0 = Some false) /\
                  (keyword = lit "atom_frac" -> frac s0 = Some true)).
    { destruct (str_eqb keyword (lit "atom")) eqn:Ea.
      - apply str_eqb_eq in Ea. subst keyword.
        apply modify_Ok in H0. subst s0. cbn.
        repeat split; auto; discriminate.
      - destruct (str_eqb keyword (lit "atom_frac")) eqn:Ef.
        + apply str_eqb_eq in Ef. subst keyword.
          apply modify_Ok in H0. subst s0. cbn.
          repeat split; auto; discriminate.
        + inversion H0; subst s0.
          apply str_eqb_neq in Ea, Ef.
          repeat split; auto; intros; contradiction. }
    destruct Hs0 as (Hf & Hp & Hsy & Hc & Ha & Hfr).
    do 3 inv_bind H.
    destruct (frac s0) as [flag|] eqn:Hflag; [| discriminate H].
    do 5 inv_bind H. apply modify_Ok in H. subst s1.
    match goal with
    | Hpos : lmap py_float _ = Ok ?p, Hsym : py_getitem _ _ = Ok ?y |- _ =>
        exists p, y, flag; split; [exact Hpos |]; split;
          [ unfold py_getitem in Hsym;
            destruct ((keyword :: rest) !! 4%nat); inversion Hsym; reflexivity |]
    end.
    cbn. rewrite Hf, Hp, Hsy, Hc.
    repeat split; try reflexivity.
    - intros Hk. specialize (Ha Hk). congruence.
    - intros Hk. specialize (Hfr Hk). congruence. }
  destruct (str_eqb keyword (lit "initial_moment")) eqn:E3.
  { apply str_eqb_eq in E3. subst keyword.
    do 4 inv_bind H. apply modify_Ok in H. subst s1.
    cbn. destruct rest; cbn; auto. }
  destruct (str_eqb keyword (lit "constrain_relaxation")) eqn:E4.
  { apply str_eqb_eq in E4. subst keyword.
    inv_bind H.
    destruct (constrain_warning s) eqn:Hw; [discriminate H |].
    inv_bind H.
    apply bind_Ok in H. destruct H as (u1 & s2 & H1 & H).
    apply modify_Ok in H. subst s1.
    unfold py_getitem in Hs.
    destruct rest as [|value rest']; [discriminate Hs |].
    cbn in Hs. inversion Hs; subst a.
    cbn [is_constrain_true]. eval_literals. cbn [andb].
    destruct (str_eqb value (lit ".true.")) eqn:Ev.
    - do 2 inv_bind H1. apply modify_Ok in H1. subst s2.
      match goal with
      | Hlast : setitem_last _ true = Ok _ |- _ =>
          unfold setitem_last in Hlast;
          destruct (constraints s) eqn:Hcs; [discriminate Hlast |];
          inversion Hlast; subst
      end.
      cbn. auto.
    - inversion H1; subst s2. cbn. auto. }
  inversion H; subst s1.
  assert (Hnot : is_constrain_true (keyword :: rest) = false).
  { destruct rest; cbn [is_constrain_true]; [reflexivity |].
    rewrite E4. reflexivity. }
  rewrite Hnot. cbn. auto.
Qed.

(** The first loop, against the entries of the file. *)
Lemma for_lines_Ok (lines : list str) :
  forall (s s' : locals) (u : unit),
    for_lines lines s = (Ok u, s') ->
    exists flags given,
      is_frac s' = is_frac s ++ flags /\
      positions s' = positions s ++ given /\
      symbols s' =
        symbols s ++ map entry_symbol (atom_entries (map str_split lines)) /\
      constraints s' =
        mark_last (constraints s)
          (existsb is_constrain_true (followers (map str_split lines))) ++
        map entry_marked (atom_entries (map str_split lines)) /\
      Forall2 flag_of (atom_entries (map str_split lines)) flags /\
      Forall2 given_of (atom_entries (map str_split lines)) given.
Proof.
  induction lines as [|line lines IH]; intros s s' u H.
  - inversion H; subst. exists [], []. cbn. rewrite !app_nil_r.
    repeat split; constructor.
  - cbn [for_lines] in H.
    apply bind_Ok in H. destruct H as (u1 & s1 & Hline & Hrest).
    apply read_line_Ok in Hline. cbv zeta in Hline.
    destruct (IH s1 s' u Hrest) as (flags & given & Hf & Hp & Hs & Hc & Hfl & Hg).
    cbn [map atom_entries followers].
    destruct (is_atom_line (str_split line)) eqn:Hatom.
    + destruct Hline as (pos & sym & flag & Hpos & Hsym & Ha & Hfr &
                         Hf1 & Hp1 & Hs1 & Hc1).
      exists (flag :: flags), (pos :: given).
      rewrite Hf, Hf1, Hp, Hp1, Hs, Hs1, Hc, Hc1, mark_last_snoc, Hsym.
      cbn. rewrite <- !app_assoc. cbn.
      repeat split; try reflexivity.
      * constructor; [split; assumption | exact Hfl].
      * constructor; [exact Hpos | exact Hg].
    + destruct Hline as (Hf1 & Hp1 & Hs1 & Hc1).
      exists flags, given.
      rewrite Hf, Hf1, Hp, Hp1, Hs, Hs1, Hc, Hc1.
      repeat split; try assumption.
      f_equal. cbn [existsb].
      destruct (is_constrain_true (str_split line)).
      * apply mark_last_twice.
      * reflexivity.
Qed.

(** The second loop: the positions recorded as fractional are converted,
    the others and everything else are left as they are. *)
Lemma convert_loop (flags : list bool) :
  forall (j : nat) (s s' : locals) (u : unit),
    for_enumerate_from j flags convert s = (Ok u, s') ->
    cell s' = cell s /\ symbols s' = symbols s /\ magmoms s' = magmoms s /\
    constraints s' = constraints s /\ stdout s' = stdout s /\
    length (positions s') = length (positions s) /\
    (forall n, (n < j)%nat -> positions s' !! n = positions s !! n) /\
    (forall n (flag : bool),
       flags !! n = Some flag ->
       if flag then
         exists old pos,
           positions s !! (j + n)%nat = Some old /\
           cartesian (cell s) old = Ok pos /\
           positions s' !! (j + n)%nat = Some pos
       else positions s' !! (j + n)%nat = positions s !! (j + n)%nat).
Proof.
  induction flags as [|flag flags IH]; intros j s s' u H.
  - inversion H; subst. repeat split; auto. intros n flag Hn. discriminate Hn.
  - cbn [for_enumerate_from] in H.
    apply bind_Ok in H. destruct H as (u1 & s1 & Hstep & Hrest).
    destruct (IH (S j) s1 s' u Hrest)
      as (Hcell & Hsym & Hmag & Hcon & Hout & Hlen & Hbelow & Hflags).
    assert (Hs1 : cell s1 = cell s /\ symbols s1 = symbols s /\
                  magmoms s1 = magmoms s /\ constraints s1 = constraints s /\
                  stdout s1 = stdout s /\
                  length (positions s1) = length (positions s) /\
                  (forall n, n <> j -> positions s1 !! n = positions s !! n) /\
                  if flag then
                    exists old pos,
                      positions s !! j = Some old /\
                      cartesian (cell s) old = Ok pos /\
                      positions s1 !! j = Some pos
                  else positions s1 !! j = positions s !! j).
    { unfold convert in Hstep. destruct flag.
      - do 4 inv_bind Hstep. apply modify_Ok in Hstep. subst s1. cbn.
        match goal with
        | Hold : py_getitem _ _ = Ok ?o, Hcart : cartesian _ _ = Ok ?p |- _ =>
            unfold py_getitem in Hold;
            destruct (positions s !! j) as [old|] eqn:Hj;
              inversion Hold; subst;
            repeat split; auto;
              [ apply length_insert
              | intros n Hn; apply list_lookup_insert_ne; congruence
              | exists o, p; repeat split; auto;
                apply list_lookup_insert_eq; eapply lookup_lt_Some; eassumption ]
        end.
      - inversion Hstep; subst s1. repeat split; auto. }
    destruct Hs1 as (Hcell1 & Hsym1 & Hmag1 & Hcon1 & Hout1 & Hlen1 &
                     Hother & Hhere).
    repeat split; try congruence.
    + intros n Hn. rewrite Hbelow by lia. apply Hother. lia.
    + intros n flag' Hn. destruct n as [|n].
      * cbn in Hn. inversion Hn; subst flag'. rewrite Nat.add_0_r.
        rewrite Hbelow by lia. exact Hhere.
      * cbn in Hn. specialize (Hflags n flag' Hn).
        replace (j + S n)%nat with (S j + n)%nat by lia.
        rewrite <- (Hother (S j + n)%nat) by lia. rewrite <- Hcell1.
        exact Hflags.
Qed.



End Geometry.


(** ** [initialize] taken apart *)

Section Selection.

Context `{F : Float} `{K : !Kernels}.

Lemma allocate_values_eq (self : Conductivity) (gps : list Z) :
  _grid_points self = Some gps ->
  _allocate_values self = (Ok tt, allocated (length gps) self).
Proof.
  intros Hg. unfold _allocate_values, allocated.
  rewrite bind_gets. erewrite bind_attr by exact Hg.
  rewrite !bind_gets, bind_modify, bind_gets.
  cbn [_read_gamma with_kappa].
  destruct (_read_gamma self); reflexivity.
Qed.

Lemma allocated_history (n : nat) (self : Conductivity)
    (c : option nat) (k : option Z) (q : option (list (list double))) :
  history (allocated n (with_grid_point_count c
             (with_sum_num_kstar k (with_qpoints q self)))) =
  history self.
Proof.
  destruct self. unfold allocated. cbn.
  match goal with
  | |- context [if ?b then _ else _] => destruct b
  end; reflexivity.
Qed.

Lemma initialize_Ok (grid_points : option (list Z))
    (self self' : Conductivity) (u : unit) :
  initialize grid_points self = (Ok u, self') ->
  exists s1 gps rows qpoints,
    select_grid_points grid_points
      (with_grid_address (Some (pp_grid_address (_pp self))) self) =
      (Ok tt, s1) /\
    _grid_points s1 = Some gps /\
    (exists address, _grid_address s1 = Some address /\
                     np_take address gps = Ok rows) /\
    (exists mesh, _mesh s1 = Some mesh /\ rows_truediv rows mesh = Ok qpoints) /\
    raises (history s1 ++ [pp_set_phonon gps]) = None /\
    self' = made_ready s1 gps qpoints.
Proof.
  intros E. unfold initialize in E.
  rewrite bind_gets, bind_modify in E.
  apply bind_Ok in E. destruct E as ([] & s1 & Hsel & E).
  apply bind_Ok in E. destruct E as (address & s & Ha & E).
  apply attr_Ok in Ha. destruct Ha as [Ha ->].
  apply bind_Ok in E. destruct E as (gps & s & Hg & E).
  apply attr_Ok in Hg. destruct Hg as [Hg ->].
  apply bind_Ok in E. destruct E as (mesh & s & Hm & E).
  apply attr_Ok in Hm. destruct Hm as [Hm ->].
  apply bind_Ok in E. destruct E as (rows & s & Hr & E).
  apply lift_Ok in Hr. destruct Hr as [Hr ->].
  apply bind_Ok in E. destruct E as (qpoints & s & Hq & E).
  apply lift_Ok in Hq. destruct Hq as [Hq ->].
  rewrite !bind_modify in E.
  erewrite bind_eq in E by (apply (allocate_values_eq _ gps); exact Hg).
  erewrite bind_attr in E by (destruct (_read_gamma s1) eqn:R; cbn; rewrite ?R; exact Hg).
  exists s1, gps, rows, qpoints.
  split; [exact Hsel |]. split; [exact Hg |].
  split; [exists address; auto |]. split; [exists mesh; auto |].
  apply bind_Ok in E. destruct E as ([] & s & Hx & E).
  pose proof (extern_Ok _ _ _ _ Hx) as ->.
  unfold extern in Hx.
  match type of Hx with
  | context [raises ?h] => destruct (raises h) eqn:Hraise; [discriminate Hx |]
  end.
  clear Hx. rewrite allocated_history in Hraise.
  apply bind_Ok in E. destruct E as (fr & s & Hfr & E).
  apply query_Ok in Hfr. destruct Hfr as [-> ->].
  apply modify_Ok in E. subst self'.
  split; [exact Hraise | reflexivity].
Qed.

End Selection.

Section InitializeMore.

Context `{F : Float} `{K : !Kernels}.

(** The fields of the instance [initialize] returns. *)
Lemma made_ready_fields (s1 : Conductivity) (gps : list Z)
    (qpoints : list (list double)) :
  let ready := made_ready s1 gps qpoints in
  let ns := length (_sigmas s1) in
  let ng := length gps in
  let nt := length (_temperatures s1) in
  let nb := (pp_number_of_atoms (_pp s1) * 3)%nat in
  (_grid_points ready = _grid_points s1 /\
   _grid_weights ready = _grid_weights s1 /\
   _grid_address ready = _grid_address s1 /\
   _qpoints ready = Some qpoints /\
   _grid_point_count ready = Some 0%nat /\
   _sum_num_kstar ready = Some 0) /\
  (_kappa ready = Some (zeros5 ns ng nt nb 6) /\
   _gamma ready =
     (if _read_gamma s1 then _gamma s1 else Some (zeros4 ns ng nt nb)) /\
   _gv ready = Some (zeros3 ng nb 3) /\
   _cv ready = Some (zeros3 ng nt nb) /\
   _gamma_iso ready = Some (zeros3 ns ng nb)) /\
  (history ready = history s1 ++ [pp_set_phonon gps] /\
   _frequencies ready =
     Some (pp_get_phonons (history s1 ++ [pp_set_phonon gps]))) /\
  (_pp ready = _pp s1 /\ _symmetry ready = _symmetry s1 /\
   _temperatures ready = _temperatures s1 /\ _sigmas ready = _sigmas s1 /\
   _no_kappa_stars ready = _no_kappa_stars s1 /\
   _log_level ready = _log_level s1 /\ _read_gamma ready = _read_gamma s1 /\
   _mesh ready = _mesh s1 /\ _mesh_divisors ready = _mesh_divisors s1 /\
   _coarse_mesh ready = _coarse_mesh s1 /\
   _coarse_mesh_shifts ready = _coarse_mesh_shifts s1 /\
   _isotope ready = _isotope s1 /\
   _mass_variances ready = _mass_variances s1).
Proof.
  destruct s1. unfold made_ready, allocated. cbn.
  match goal with
  | |- context [if ?b then _ else _] => destruct b
  end; cbn; auto 20.
Qed.

(** The selection prints nothing and calls no kernel, and leaves the
    configuration of the instance alone. *)
Lemma select_grid_points_frame (grid_points : option (list Z))
    (self0 : Conductivity) :
  stable (fun it => history it = history self0 /\
                    _sigmas it = _sigmas self0 /\
                    _temperatures it = _temperatures self0 /\
                    _pp it = _pp self0 /\
                    _read_gamma it = _read_gamma self0 /\
                    _mesh_divisors it = _mesh_divisors self0 /\
                    _coarse_mesh_shifts it = _coarse_mesh_shifts self0 /\
                    _coarse_mesh it = _coarse_mesh self0 /\
                    _mesh it = _mesh self0 /\
                    _no_kappa_stars it = _no_kappa_stars self0)
    (select_grid_points grid_points).
Proof.
  unfold select_grid_points, specified_grid_points, all_grid_points,
    automatic_sampling.
  stable_auto.
Qed.

Lemma select_grid_points_address (grid_points : option (list Z))
    (address : option (list (list Z))) :
  stable (fun it => _grid_address it = address)
    (select_grid_points grid_points).
Proof.
  unfold select_grid_points, specified_grid_points, all_grid_points,
    automatic_sampling.
  stable_auto.
Qed.

End InitializeMore.

(** Taking a successful [initialize] apart. *)
Ltac initialize_apart H :=
  match type of H with
  | fst (initialize ?gp ?self) = Ok tt =>
      let o := fresh "o" in
      let E := fresh "E" in
      destruct (initialize gp self) as [o ?self'] eqn:E;
      cbn [fst snd] in *; subst o;
      apply initialize_Ok in E;
      destruct E as (s1 & gps & rows & qpoints & Hsel & Hgps &
                     (address & Haddress & Hrows) &
                     (mesh & Hmesh & Hq) & Hraise & ->);
      pose proof (made_ready_fields s1 gps qpoints) as Hready;
      cbv zeta in Hready;
      destruct Hready as ((Rpoints & Rweights & Raddress & Rqpoints &
                           Rcount & Rkstar) &
                          (Rkappa & Rgamma & Rgv & Rcv & Riso) &
                          (Rhistory & Rfrequencies) & Rconfig)
  end.

(** ** The iterator outside its normal course *)

Section IteratorEdges.

Context `{F : Float} `{K : !Kernels} `{Sub : !Subclass}.

Lemma init_no_grid_points (pp : Interaction) (sym : Symmetry)
    (temps : list double) (sigmas : list (option double))
    (mv : option (list double)) (md : option (list Z))
    (cms : option (list bool)) (nks : bool) (log : Z)
    (self : Conductivity) :
  __init__ pp sym temps sigmas mv md cms nks log = Ok self ->
  _grid_points self = None /\ _grid_weights self = None /\
  _gamma self = None /\ _frequencies self = None.
Proof.
  unfold __init__. intros H.
  match type of H with
  | match ?m ?s0 with _ => _ end = _ =>
      assert (Hst : stable (fun it => _grid_points it = None /\
                                      _grid_weights it = None /\
                                      _gamma it = None /\
                                      _frequencies it = None) m);
      [| specialize (Hst s0); destruct (m s0) as [[u|e] s] eqn:E;
         inversion H; subst s; apply Hst; cbn; auto ]
  end.
  apply stable_bind.
  - apply set_mesh_numbers_keeps; [intros ? ? ?; assumption | intros ? ? ?; assumption ..].
  - unfold _set_isotope. stable_auto.
Qed.

(** X1: on an instance as the constructor returns it, before [initialize],
    [next] raises [TypeError] (the length of [None]) and leaves the instance
    as it was, and so does [run]; the per-point method is not called. *)
Theorem X1_next_before_initialize (pp : Interaction) (sym : Symmetry)
    (temps : list double) (sigmas : list (option double))
    (mv : option (list double)) (md : option (list Z))
    (cms : option (list bool)) (nks : bool) (log : Z)
    (self : Conductivity) :
  __init__ pp sym temps sigmas mv md cms nks log = Ok self ->
  next self = (Raise TypeError, self) /\
  forall fuel, run (S fuel) self = Some (Raise TypeError, self).
Proof.
  intros H. apply init_no_grid_points in H. destruct H as (Hg & _).
  assert (Hn : next self = (Raise TypeError, self)).
  { unfold next. rewrite bind_gets. unfold bind, attr. rewrite Hg.
    reflexivity. }
  split; [exact Hn |].
  intros fuel. unfold run, __iter__. cbn [for_in]. rewrite Hn. reflexivity.
Qed.

(** X2: a step whose per-point method raises is not counted: [next] raises
    the same exception and the counter stays where it was; [run] stops there
    with that exception, except that a [StopIteration] raised by the
    per-point method ends [run] normally, short of the last grid point. *)
Theorem X2_failed_step_not_counted :
  keeps_cursor _run_at_grid_point ->
  forall (self : Conductivity) (gps : list Z) (c : nat) (e : exn),
    get_grid_points self = Some gps ->
    get_grid_point_count self = Some c ->
    c <> length gps ->
    fst (_run_at_grid_point self) = Raise e ->
    let failed := snd (_run_at_grid_point self) in
    next self = (Raise e, failed) /\
    get_grid_point_count failed = Some c /\
    get_grid_points failed = Some gps /\
    forall fuel,
      (e <> StopIteration -> run (S fuel) self = Some (Raise e, failed)) /\
      (e = StopIteration -> run (S fuel) self = Some (Ok tt, failed)).
Proof.
  intros Hkeep self gps c e Hg Hc Hne Hfail failed.
  assert (Hn : next self = (Raise e, failed)).
  { rewrite (next_advance self gps c Hkeep Hg Hc Hne). unfold failed.
    destruct (_run_at_grid_point self) as [[u|e'] mid]; simpl in *;
      [discriminate Hfail | congruence]. }
  destruct (Hkeep self) as [Hk1 Hk2].
  split; [exact Hn |].
  split; [unfold failed, get_grid_point_count; rewrite Hk1; exact Hc |].
  split; [unfold failed, get_grid_points; rewrite Hk2; exact Hg |].
  intros fuel. unfold run, __iter__. cbn [for_in]. rewrite Hn.
  split; intros He; [destruct e; congruence | subst e; reflexivity].
Qed.

End IteratorEdges.

(** ** The three selections of [initialize] and what it allocates *)

Section InitializeBranches.

Context `{F : Float} `{K : !Kernels}.

(** X3: with the grid points given by the caller, [initialize] selects
    what [reduce_grid_points] makes of them and assigns no weights: the
    weights are those the instance had before (none on a new instance). *)
Theorem X3_specified_points_without_weights (given : list Z)
    (self : Conductivity) :
  fst (initialize (Some given) self) = Ok tt ->
  let ready := snd (initialize (Some given) self) in
  exists d,
    get_mesh_divisors self = Some d /\
    get_grid_points ready =
      Some (reduce_grid_points d (pp_grid_address (_pp self)) given
              (_coarse_mesh_shifts self)) /\
    get_grid_weights ready = get_grid_weights self.
Proof.
  intros H. cbv zeta. initialize_apart H.
  unfold select_grid_points, specified_grid_points in Hsel.
  apply bind_Ok in Hsel. destruct Hsel as (d & s & Hd & Hsel).
  apply attr_Ok in Hd. destruct Hd as [Hd ->].
  erewrite bind_attr in Hsel by reflexivity.
  rewrite bind_gets in Hsel. apply modify_Ok in Hsel. subst s1.
  exists d. split; [exact Hd |].
  unfold get_grid_points, get_grid_weights.
  rewrite Rpoints, Rweights. split; reflexivity.
Qed.

(** X4: with [no_kappa_stars] set and no grid points given, [initialize]
    takes every point of the coarse mesh, gives each the weight 1, as many
    weights as grid points, and checks no sum of weights. *)
Theorem X4_all_points_unit_weights (self : Conductivity) :
  _no_kappa_stars self = true ->
  fst (initialize None self) = Ok tt ->
  let ready := snd (initialize None self) in
  exists coarse mesh d gps,
    _coarse_mesh self = Some coarse /\
    get_mesh_numbers self = Some mesh /\
    get_mesh_divisors self = Some d /\
    gps = from_coarse_to_dense_grid_points mesh d
            (np_arange (np_prod coarse)) (get_grid_address coarse)
            (_coarse_mesh_shifts self) /\
    get_grid_points ready = Some gps /\
    get_grid_weights ready = Some (replicate (length gps) 1).
Proof.
  intros Hnks H. cbv zeta. initialize_apart H.
  unfold select_grid_points in Hsel. rewrite bind_gets in Hsel.
  cbn [_no_kappa_stars with_grid_address] in Hsel. rewrite Hnks in Hsel.
  unfold all_grid_points in Hsel.
  apply bind_Ok in Hsel. destruct Hsel as (coarse & s & Hc & Hsel).
  apply attr_Ok in Hc. destruct Hc as [Hc ->].
  apply bind_Ok in Hsel. destruct Hsel as (mesh' & s & Hm & Hsel).
  apply attr_Ok in Hm. destruct Hm as [Hm ->].
  apply bind_Ok in Hsel. destruct Hsel as (d & s & Hd & Hsel).
  apply attr_Ok in Hd. destruct Hd as [Hd ->].
  rewrite bind_gets, bind_modify in Hsel. apply modify_Ok in Hsel. subst s1.
  cbn [_coarse_mesh _mesh _mesh_divisors _grid_points with_grid_address
       with_grid_points with_grid_weights] in Hc, Hm, Hd, Hgps.
  injection Hgps as <-.
  exists coarse, mesh', d. eexists.
  split; [exact Hc |]. split; [exact Hm |]. split; [exact Hd |].
  split; [reflexivity |].
  unfold get_grid_points, get_grid_weights.
  rewrite Rpoints, Rweights. split; reflexivity.
Qed.

(** X5: unless a linewidth array was supplied, [initialize] leaves every
    result tensor newly allocated and zero, whatever the instance held
    before: kappa of shape sigmas x grid points x temperatures x bands x 6,
    gamma without the last axis, group velocities, heat capacities and
    isotope linewidths, with three bands per atom; the counter of sampled
    star members is 0. *)
Theorem X5_initialize_allocates_zeros (grid_points : option (list Z))
    (self : Conductivity) :
  _read_gamma self = false ->
  fst (initialize grid_points self) = Ok tt ->
  let ready := snd (initialize grid_points self) in
  let ns := length (_sigmas self) in
  let nt := length (_temperatures self) in
  let nb := (pp_number_of_atoms (_pp self) * 3)%nat in
  exists gps,
    get_grid_points ready = Some gps /\
    get_kappa ready = Ok (zeros5 ns (length gps) nt nb 6) /\
    get_gamma ready = Some (zeros4 ns (length gps) nt nb) /\
    get_group_velocities ready = Some (zeros3 (length gps) nb 3) /\
    get_mode_heat_capacities ready = Some (zeros3 (length gps) nt nb) /\
    _gamma_iso ready = Some (zeros3 ns (length gps) nb) /\
    get_number_of_sampling_points ready = Some 0.
Proof.
  intros Hread H. cbv zeta. initialize_apart H.
  destruct (select_grid_points_frame grid_points self
              (with_grid_address (Some (pp_grid_address (_pp self))) self)
              (conj eq_refl (conj eq_refl (conj eq_refl (conj eq_refl
                 (conj eq_refl (conj eq_refl (conj eq_refl (conj eq_refl
                    (conj eq_refl eq_refl))))))))))
    as (_ & Hsig & Htemp & Hpp & Hrg & _).
  rewrite Hsel in Hsig, Htemp, Hpp, Hrg. cbn [snd] in Hsig, Htemp, Hpp, Hrg.
  rewrite Hrg, Hread in Rgamma. rewrite Hsig, Htemp, Hpp in *.
  exists gps.
  unfold get_grid_points, get_kappa, get_gamma, get_group_velocities,
    get_mode_heat_capacities, get_number_of_sampling_points.
  rewrite Rpoints, Rkappa. auto 10.
Qed.

(** X6: a successful [initialize] prints nothing and makes exactly one
    call to a kernel, [set_phonon] on the interaction with the selected
    grid points, made after the allocation; the frequencies it stores are
    those the interaction reports after that call; the meshes, divisors,
    shifts, sigmas and temperatures of the instance are not changed. *)
Theorem X6_initialize_one_kernel_call (grid_points : option (list Z))
    (self : Conductivity) :
  fst (initialize grid_points self) = Ok tt ->
  let ready := snd (initialize grid_points self) in
  exists gps,
    get_grid_points ready = Some gps /\
    history ready = history self ++ [pp_set_phonon gps] /\
    _frequencies ready = Some (pp_get_phonons (history ready)) /\
    get_mesh_numbers ready = get_mesh_numbers self /\
    get_mesh_divisors ready = get_mesh_divisors self /\
    _coarse_mesh ready = _coarse_mesh self /\
    _coarse_mesh_shifts ready = _coarse_mesh_shifts self /\
    _sigmas ready = _sigmas self /\
    _temperatures ready = _temperatures self.
Proof.
  intros H. cbv zeta. initialize_apart H.
  destruct (select_grid_points_frame grid_points self
              (with_grid_address (Some (pp_grid_address (_pp self))) self)
              (conj eq_refl (conj eq_refl (conj eq_refl (conj eq_refl
                 (conj eq_refl (conj eq_refl (conj eq_refl (conj eq_refl
                    (conj eq_refl eq_refl))))))))))
    as (Hh & Hsig & Htemp & _ & _ & Hd & Hs & Hc & Hm & _).
  rewrite Hsel in Hh, Hsig, Htemp, Hd, Hs, Hc, Hm.
  cbn [snd] in Hh, Hsig, Htemp, Hd, Hs, Hc, Hm.
  destruct Rconfig as (_ & _ & Rt & Rs & _ & _ & _ & Rm & Rd & Rc & Rsh & _).
  exists gps.
  unfold get_grid_points, get_mesh_numbers, get_mesh_divisors.
  rewrite Rpoints, Rfrequencies, Rhistory, Rm, Rd, Rc, Rsh, Rs, Rt.
  rewrite Hh, Hsig, Htemp, Hd, Hs, Hc, Hm. auto 10.
Qed.

End InitializeBranches.

Lemma np_getitem_Ok {A : Type} (a : list A) (i : Z) (x : A) :
  np_getitem a i = Ok x ->
  in_range (length a) i /\ a !! position (length a) i = Some x.
Proof.
  unfold np_getitem, in_range, position.
  destruct (i <? 0) eqn:Hneg;
    [apply Z.ltb_lt in Hneg | apply Z.ltb_ge in Hneg];
    match goal with
    | |- context [(?p && ?q)%bool] => destruct (p && q)%bool eqn:Hb
    end; try discriminate;
    apply andb_prop in Hb; destruct Hb as [H1 H2];
    apply Z.leb_le in H1; apply Z.ltb_lt in H2;
    match goal with
    | |- context [a !! ?k] => destruct (a !! k) eqn:Hk
    end; intros H; inversion H; subst; (split; [lia | reflexivity]).
Qed.

Lemma np_getitem_out {A : Type} (a : list A) (i : Z) :
  ~ in_range (length a) i -> np_getitem a i = Raise IndexError.
Proof.
  unfold np_getitem, in_range. intros Hout.
  destruct (i <? 0) eqn:Hneg;
    [apply Z.ltb_lt in Hneg | apply Z.ltb_ge in Hneg];
    match goal with
    | |- context [(?p && ?q)%bool] => destruct (p && q)%bool eqn:Hb
    end; try reflexivity;
    apply andb_prop in Hb; destruct Hb as [H1 H2];
    apply Z.leb_le in H1; apply Z.ltb_lt in H2; lia.
Qed.

Lemma np_getitem_raises {A : Type} (a : list A) (i : Z) (e : exn) :
  np_getitem a i = Raise e -> e = IndexError.
Proof.
  unfold np_getitem.
  repeat match goal with
         | |- context [if ?b then _ else _] => destruct b
         | |- context [match ?o with Some _ => _ | None => _ end] => destruct o
         end; intros H; inversion H; reflexivity.
Qed.

Lemma np_take_Ok {A : Type} (a : list A) (idx : list Z) :
  forall rows,
    np_take a idx = Ok rows ->
    length rows = length idx /\
    forall k i,
      idx !! k = Some i ->
      in_range (length a) i /\
      rows !! k = a !! position (length a) i /\
      is_Some (rows !! k).
Proof.
  induction idx as [|i idx IH]; intros rows H; simpl in H.
  - inversion H. split; [reflexivity |]. intros k j Hk. discriminate Hk.
  - destruct (np_getitem a i) as [x|e] eqn:Hx; [| discriminate H].
    simpl in H.
    destruct (np_take a idx) as [xs|e] eqn:Hxs; [| discriminate H].
    simpl in H. inversion H; subst rows; clear H.
    destruct (IH xs eq_refl) as [Hlen Hrows].
    apply np_getitem_Ok in Hx. destruct Hx as [Hr Hx].
    split; [simpl; congruence |].
    intros [|k] j Hk; simpl in Hk.
    + inversion Hk; subst j. simpl. rewrite Hx. eauto.
    + simpl. apply Hrows, Hk.
Qed.

Lemma np_take_out {A : Type} (a : list A) (idx : list Z) :
  Exists (fun i => ~ in_range (length a) i) idx ->
  np_take a idx = Raise IndexError.
Proof.
  induction 1 as [i idx Hout | i idx Hex IH]; simpl.
  - rewrite (np_getitem_out a i Hout). reflexivity.
  - destruct (np_getitem a i) as [x|e] eqn:Hx; simpl.
    + rewrite IH. reflexivity.
    + apply np_getitem_raises in Hx. subst e. reflexivity.
Qed.

Lemma rows_truediv_Ok `{F : Float} (rows : list (list Z)) (mesh : list Z) :
  forall qs,
    rows_truediv rows mesh = Ok qs ->
    length qs = length rows /\
    forall k row,
      rows !! k = Some row ->
      exists q, np_binop truediv row mesh = Ok q /\ qs !! k = Some q.
Proof.
  induction rows as [|r rows IH]; intros qs H; simpl in H.
  - inversion H. split; [reflexivity |]. intros k row Hk. discriminate Hk.
  - destruct (np_binop truediv r mesh) as [q|e] eqn:Hq; [| discriminate H].
    simpl in H.
    destruct (rows_truediv rows mesh) as [qs'|e] eqn:Hqs; [| discriminate H].
    simpl in H. inversion H; subst qs; clear H.
    destruct (IH qs' eq_refl) as [Hlen Hrows].
    split; [simpl; congruence |].
    intros [|k] row Hk; simpl in Hk.
    + inversion Hk; subst row. exists q. auto.
    + apply Hrows, Hk.
Qed.

Lemma np_take_in {A : Type} (a : list A) (idx : list Z) :
  Forall (in_range (length a)) idx -> exists rows, np_take a idx = Ok rows.
Proof.
  induction 1 as [|i idx Hin _ IH]; simpl.
  - exists []. reflexivity.
  - destruct (np_getitem a i) as [x|e] eqn:Hx.
    + destruct IH as [rows ->]. exists (x :: rows). reflexivity.
    + exfalso. revert Hx. unfold np_getitem, in_range in *.
      destruct (i <? 0) eqn:Hneg;
        [apply Z.ltb_lt in Hneg | apply Z.ltb_ge in Hneg];
        match goal with
        | |- context [(?p && ?q)%bool] => destruct (p && q)%bool eqn:Hb
        end;
        try (apply andb_false_iff in Hb;
             destruct Hb as [Hb|Hb];
             [apply Z.leb_gt in Hb | apply Z.ltb_ge in Hb]; lia);
        match goal with
        | |- context [a !! ?k] =>
            destruct (a !! k) eqn:Hk; [discriminate |];
            apply lookup_ge_None in Hk; lia
        end.
Qed.

Section QPoints.

Context `{F : Float} `{K : !Kernels}.

(** X7: a successful [initialize] stores one q-point per selected grid
    point, in order: the address of that grid point in the address table of
    the interaction, divided component by component by the mesh numbers in
    floating point.  Every selected grid point indexes the table (a negative
    one counting from its end). *)
Theorem X7_qpoints_of_selected_points (grid_points : option (list Z))
    (self : Conductivity) :
  fst (initialize grid_points self) = Ok tt ->
  let ready := snd (initialize grid_points self) in
  let address := pp_grid_address (_pp self) in
  exists gps qpoints mesh,
    get_grid_points ready = Some gps /\
    get_qpoints ready = Ok qpoints /\
    get_mesh_numbers self = Some mesh /\
    length qpoints = length gps /\
    forall k g,
      gps !! k = Some g ->
      in_range (length address) g /\
      exists row q,
        address !! position (length address) g = Some row /\
        np_binop truediv row mesh = Ok q /\
        qpoints !! k = Some q.
Proof.
  intros H. cbv zeta. initialize_apart H.
  pose proof (select_grid_points_address grid_points
                (Some (pp_grid_address (_pp self)))
                (with_grid_address (Some (pp_grid_address (_pp self))) self)
                eq_refl) as Ha.
  rewrite Hsel in Ha. cbn [snd] in Ha.
  rewrite Haddress in Ha. injection Ha as ->.
  destruct (select_grid_points_frame grid_points self
              (with_grid_address (Some (pp_grid_address (_pp self))) self)
              (conj eq_refl (conj eq_refl (conj eq_refl (conj eq_refl
                 (conj eq_refl (conj eq_refl (conj eq_refl (conj eq_refl
                    (conj eq_refl eq_refl))))))))))
    as (_ & _ & _ & _ & _ & _ & _ & _ & Hm & _).
  rewrite Hsel in Hm. cbn [snd] in Hm.
  apply np_take_Ok in Hrows. destruct Hrows as [Hlen Hrows].
  apply rows_truediv_Ok in Hq. destruct Hq as [Hlenq Hq].
  exists gps, qpoints, mesh.
  unfold get_grid_points, get_qpoints, get_mesh_numbers.
  rewrite Rpoints, Rqpoints, <- Hm.
  split; [exact Hgps |]. split; [reflexivity |]. split; [exact Hmesh |].
  split; [congruence |].
  intros k g Hk. destruct (Hrows k g Hk) as (Hin & Hrow & [row Hsome]).
  split; [exact Hin |].
  destruct (Hq k row Hsome) as (q & Hdiv & Hqk).
  exists row, q. rewrite <- Hrow. auto.
Qed.

(** X8: when the caller's grid points, once reduced, hold an index outside
    the address table, [initialize] raises [IndexError]; by then the grid
    points and the address table are assigned, nothing is allocated and the
    counter is not reset. *)
Theorem X8_grid_point_out_of_range (given : list Z) (self : Conductivity)
    (d mesh : list Z) :
  get_mesh_divisors self = Some d ->
  get_mesh_numbers self = Some mesh ->
  let address := pp_grid_address (_pp self) in
  let gps := reduce_grid_points d address given (_coarse_mesh_shifts self) in
  Exists (fun g => ~ in_range (length address) g) gps ->
  initialize (Some given) self =
  (Raise IndexError,
   with_grid_points (Some gps) (with_grid_address (Some address) self)).
Proof.
  intros Hd Hm address gps Hout.
  unfold initialize. rewrite bind_gets, bind_modify.
  cbv beta iota. unfold specified_grid_points.
  rewrite bind_assoc. erewrite bind_attr by exact Hd.
  rewrite bind_assoc. erewrite bind_attr by reflexivity.
  rewrite bind_assoc, bind_gets, bind_modify.
  erewrite bind_attr by reflexivity.
  erewrite bind_attr by reflexivity.
  erewrite bind_attr by exact Hm.
  cbn [_coarse_mesh_shifts with_grid_address].
  fold address. fold gps.
  unfold bind at 1. unfold lift.
  rewrite (np_take_out address gps Hout). reflexivity.
Qed.

(** X9: after a successful [initialize], [get_frequencies] reads the
    frequency table at the selected grid points and changes nothing: when
    every selected point indexes the table it returns one row per point, in
    order; when one does not it raises [IndexError]. *)
Theorem X9_frequencies_at_selected_points (grid_points : option (list Z))
    (self : Conductivity) :
  fst (initialize grid_points self) = Ok tt ->
  let ready := snd (initialize grid_points self) in
  exists gps table,
    get_grid_points ready = Some gps /\
    _frequencies ready = Some table /\
    snd (get_frequencies ready) = ready /\
    (Exists (fun g => ~ in_range (length table) g) gps ->
     fst (get_frequencies ready) = Raise IndexError) /\
    (Forall (in_range (length table)) gps ->
     exists rows,
       fst (get_frequencies ready) = Ok (rows_at rows) /\
       length rows = length gps /\
       forall k g,
         gps !! k = Some g ->
         rows !! k = table !! position (length table) g).
Proof.
  intros H. cbv zeta. initialize_apart H.
  unfold get_grid_points. rewrite Rpoints, Rfrequencies.
  eexists gps, _.
  split; [exact Hgps |]. split; [reflexivity |].
  set (ready := made_ready s1 gps qpoints) in *.
  set (table := pp_get_phonons (history s1 ++ [pp_set_phonon gps])) in *.
  assert (Hget : get_frequencies ready =
                 (obind (np_take table gps) (fun rows => Ok (rows_at rows)),
                  ready)).
  { unfold get_frequencies.
    erewrite bind_attr by exact Rfrequencies.
    rewrite bind_gets, Rpoints, Hgps.
    unfold bind, lift, ret. destruct (np_take table gps); reflexivity. }
  rewrite Hget. cbn [fst snd].
  split; [reflexivity |]. split.
  - intros Hout. rewrite (np_take_out table gps Hout). reflexivity.
  - intros Hin. destruct (np_take_in table gps Hin) as [found Hrows'].
    rewrite Hrows'. exists found. split; [reflexivity |].
    apply np_take_Ok in Hrows'. destruct Hrows' as [Hlen Hat].
    split; [exact Hlen |].
    intros k g Hk. apply (Hat k g Hk).
Qed.

(** X10: on an instance as the constructor returns it, before
    [initialize], [get_frequencies] raises [TypeError], where
    [get_grid_points], [get_grid_weights], [get_gamma] and
    [get_grid_point_count] return [None]. *)
Theorem X10_accessors_before_initialize (pp : Interaction) (sym : Symmetry)
    (temps : list double) (sigmas : list (option double))
    (mv : option (list double)) (md : option (list Z))
    (cms : option (list bool)) (nks : bool) (log : Z)
    (self : Conductivity) :
  __init__ pp sym temps sigmas mv md cms nks log = Ok self ->
  get_frequencies self = (Raise TypeError, self) /\
  get_grid_points self = None /\
  get_grid_weights self = None /\
  get_gamma self = None /\
  get_grid_point_count self = None /\
  get_temperatures self = temps /\
  get_sigmas self = sigmas.
Proof.
  intros H.
  destruct (init_no_grid_points _ _ _ _ _ _ _ _ _ _ H) as (Hg & Hw & Hga & Hf).
  destruct (init_constructed _ _ _ _ _ _ _ _ _ _ H)
    as (mesh & d & coarse & Hc).
  destruct Hc as (_ & _ & _ & _ & _ & _ & _ & _ & Hcount).
  assert (Hconf : _temperatures self = temps /\ _sigmas self = sigmas).
  { revert H. unfold __init__.
    match goal with
    | |- match ?m ?s0 with _ => _ end = _ -> _ =>
        assert (Hst : stable (fun it => _temperatures it = temps /\
                                        _sigmas it = sigmas) m);
        [| specialize (Hst s0); destruct (m s0) as [[u|e] s] eqn:E;
           intros H; inversion H; subst s; apply Hst; cbn; auto ]
    end.
    apply stable_bind.
    - apply set_mesh_numbers_keeps;
        [intros ? ? ?; assumption | intros ? ? ?; assumption ..].
    - unfold _set_isotope. stable_auto. }
  unfold get_frequencies, get_grid_points, get_grid_weights, get_gamma,
    get_grid_point_count, get_temperatures, get_sigmas.
  repeat split; try tauto.
  unfold bind, attr. rewrite Hf. reflexivity.
Qed.

(** X24: [_kappa] and [_qpoints] are created by [initialize].  On an
    instance as the constructor returns it, [get_kappa] and [get_qpoints]
    raise [AttributeError]; after a successful [initialize] both return. *)
Theorem X24_attributes_created_by_initialize (pp : Interaction)
    (sym : Symmetry) (temps : list double) (sigmas : list (option double))
    (mv : option (list double)) (md : option (list Z))
    (cms : option (list bool)) (nks : bool) (log : Z)
    (self : Conductivity) :
  __init__ pp sym temps sigmas mv md cms nks log = Ok self ->
  get_kappa self = Raise AttributeError /\
  get_qpoints self = Raise AttributeError /\
  forall grid_points,
    fst (initialize grid_points self) = Ok tt ->
    exists kappa qpoints,
      get_kappa (snd (initialize grid_points self)) = Ok kappa /\
      get_qpoints (snd (initialize grid_points self)) = Ok qpoints.
Proof.
  intros H.
  assert (Hnone : _kappa self = None /\ _qpoints self = None).
  { revert H. unfold __init__.
    match goal with
    | |- match ?m ?s0 with _ => _ end = _ -> _ =>
        assert (Hst : stable (fun it => _kappa it = None /\
                                        _qpoints it = None) m);
        [| specialize (Hst s0); destruct (m s0) as [[u|e] s] eqn:E;
           intros H; inversion H; subst s; apply Hst; cbn; auto ]
    end.
    apply stable_bind.
    - apply set_mesh_numbers_keeps;
        [intros ? ? ?; assumption | intros ? ? ?; assumption ..].
    - unfold _set_isotope. stable_auto. }
  destruct Hnone as [Hnokappa Hnoqpoints]. unfold get_kappa, get_qpoints.
  rewrite Hnokappa, Hnoqpoints.
  split; [reflexivity |]. split; [reflexivity |].
  clear. intros grid_points Hok. initialize_apart Hok.
  rewrite Rkappa, Rqpoints. eauto.
Qed.

End QPoints.

(** ** The calls made for one grid point *)

Section Traces.

Context {Self E : Type}.

(** A loop whose successful iterations each keep an invariant and append to
    a log what depends on the element only. *)
Lemma for_enumerate_from_trace {A : Type} (I : Self -> Prop)
    (log : Self -> list E) (g : A -> list E)
    (body : nat -> A -> method Self unit) :
  (forall j x self u self',
     I self -> body j x self = (Ok u, self') ->
     I self' /\ log self' = log self ++ g x) ->
  forall l j self u self',
    I self ->
    for_enumerate_from j l body self = (Ok u, self') ->
    I self' /\ log self' = log self ++ flat_map g l.
Proof.
  intros Hbody. induction l as [|x l IH]; intros j self u self' HI H.
  - simpl in H. inversion H; subst. simpl. rewrite app_nil_r. auto.
  - cbn [for_enumerate_from] in H.
    apply bind_Ok in H. destruct H as (u1 & mid & H1 & H2).
    destruct (Hbody _ _ _ _ _ HI H1) as [HI1 Hlog1].
    destruct (IH _ _ _ _ HI1 H2) as [HI2 Hlog2].
    split; [exact HI2 |].
    rewrite Hlog2, Hlog1. simpl. rewrite <- app_assoc. reflexivity.
Qed.

End Traces.

Section LinewidthCalls.

Context `{F : Float} `{K : !Kernels}.

Lemma gamma_at_temperature_trace (i j k : nat) (t : double)
    (log : Z) (temps : list double)
    (self self' : Conductivity) (u : unit) :
  _log_level self = log /\ _temperatures self = temps ->
  gamma_at_temperature i j k t self = (Ok u, self') ->
  (_log_level self' = log /\ _temperatures self' = temps) /\
  history self' = history self ++ temperature_calls t.
Proof.
  unfold gamma_at_temperature. intros HI H.
  apply bind_Ok in H. destruct H as (u1 & s1 & H1 & H).
  apply extern_Ok in H1. subst s1.
  apply bind_Ok in H. destruct H as (u2 & s2 & H2 & H).
  apply extern_Ok in H2. subst s2.
  apply bind_Ok in H. destruct H as (v & s3 & H3 & H).
  apply query_Ok in H3. destruct H3 as [_ ->].
  do 2 inv_bind H. apply modify_Ok in H. subst self'.
  cbn. rewrite <- app_assoc. auto.
Qed.

Lemma gamma_at_sigma_trace (i j : nat) (sigma : option double)
    (log : Z) (temps : list double)
    (self self' : Conductivity) (u : unit) :
  _log_level self = log /\ _temperatures self = temps ->
  gamma_at_sigma i j sigma self = (Ok u, self') ->
  (_log_level self' = log /\ _temperatures self' = temps) /\
  history self' = history self ++ sigma_calls log temps sigma.
Proof.
  unfold gamma_at_sigma. intros [Hlog Htemps] H.
  rewrite bind_gets, Hlog in H.
  apply bind_Ok in H. destruct H as (u0 & s0 & H0 & H).
  assert (H0' : s0 = with_history
                       (history self ++
                        logged log (calculating_gamma_of_ph_ph (label_of sigma)))
                       self).
  { unfold when, logged in *. destruct (negb (log =? 0)).
    - unfold emit in H0. apply modify_Ok in H0. exact H0.
    - inversion H0. rewrite app_nil_r.
      match goal with
      | |- ?x = with_history _ ?x => destruct x; reflexivity
      end. }
  subst s0. clear H0.
  apply bind_Ok in H. destruct H as (u1 & s1 & H1 & H).
  apply extern_Ok in H1. subst s1.
  apply bind_Ok in H. destruct H as (u2 & s2 & H2 & H).
  assert (H2' : s2 = with_history
                       (((history self ++
                          logged log
                            (calculating_gamma_of_ph_ph (label_of sigma))) ++
                         [ise_set_sigma sigma]) ++
                        (if not_sigma sigma then [ise_set_integration_weights]
                         else []))
                       self).
  { unfold when in H2. destruct (not_sigma sigma).
    - apply extern_Ok in H2. subst s2. reflexivity.
    - inversion H2. rewrite app_nil_r. reflexivity. }
  subst s2. clear H2.
  rewrite bind_gets in H. cbn [_temperatures with_history] in H.
  rewrite Htemps in H.
  apply (for_enumerate_from_trace
           (fun it => _log_level it = log /\ _temperatures it = temps)
           history temperature_calls) in H.
  - destruct H as [HI Hh]. split; [exact HI |].
    rewrite Hh. cbn [history with_history]. unfold sigma_calls.
    rewrite <- !app_assoc. reflexivity.
  - intros j0 x s u0' s' HI Hb.
    eapply gamma_at_temperature_trace; eassumption.
  - cbn. auto.
Qed.

End LinewidthCalls.

(** ** What the linewidth loops write *)

Section Writes.

Context `{F : Float}.

Lemma np_fit_length {A : Type} (v v' : list A) (n : nat) :
  np_fit v n = Ok v' -> length v' = n.
Proof.
  unfold np_fit. destruct (decide (length v = n)) as [Hn|Hn].
  - intros H; inversion H; subst v'; exact Hn.
  - destruct v as [|x [|y v]]; intros H; inversion H.
    apply length_replicate.
Qed.

Lemma py_getitem_Ok {A : Type} (l : list A) (i : nat) (x : A) :
  py_getitem l i = Ok x -> l !! i = Some x.
Proof. unfold py_getitem. destruct (l !! i); intros H; inversion H; auto. Qed.

Lemma at_point_insert {A : Type} (t : list (list A)) (j i : nat)
    (tj : list A) (x : A) (j' i' : nat) :
  t !! j = Some tj ->
  i' <> i ->
  at_point (<[j := <[i := x]> tj]> t) j' i' = at_point t j' i'.
Proof.
  intros Hj Hi. unfold at_point.
  destruct (decide (j' = j)) as [->|Hne].
  - rewrite list_lookup_insert_eq by (eapply lookup_lt_Some; exact Hj).
    rewrite Hj. apply list_lookup_insert_ne. congruence.
  - rewrite list_lookup_insert_ne by congruence. reflexivity.
Qed.

Lemma setitem3_spec (t t' : tensor4) (j i k : nat) (v : list double) :
  setitem3 t j i k v = Ok t' ->
  shape4 t' = shape4 t /\ same_elsewhere i t' t.
Proof.
  unfold setitem3. intros H.
  destruct (py_getitem t j) as [tj|] eqn:Hj; simpl in H; [| discriminate H].
  destruct (py_getitem tj i) as [tji|] eqn:Hi; simpl in H; [| discriminate H].
  destruct (py_getitem tji k) as [row|] eqn:Hk; simpl in H; [| discriminate H].
  destruct (np_fit v (length row)) as [v'|] eqn:Hv; simpl in H; [| discriminate H].
  simpl in H. inversion H; subst t'; clear H.
  apply py_getitem_Ok in Hj, Hi, Hk. apply np_fit_length in Hv.
  split.
  - unfold shape4, tensor4. rewrite !list_fmap_insert.
    rewrite (list_insert_id (length <$> tji) k (length v'))
      by (rewrite list_lookup_fmap, Hk, Hv; reflexivity).
    rewrite (list_insert_id (fmap length <$> tj) i (length <$> tji))
      by (rewrite list_lookup_fmap, Hi; reflexivity).
    apply list_insert_id.
    rewrite list_lookup_fmap, Hj. reflexivity.
  - intros j' i' Hne. apply at_point_insert; assumption.
Qed.

Lemma setitem2_spec (t t' : tensor3) (j i : nat) (v : list double) :
  setitem2 t j i v = Ok t' ->
  shape3 t' = shape3 t /\ same_elsewhere i t' t.
Proof.
  unfold setitem2. intros H.
  destruct (py_getitem t j) as [tj|] eqn:Hj; simpl in H; [| discriminate H].
  destruct (py_getitem tj i) as [row|] eqn:Hi; simpl in H; [| discriminate H].
  destruct (np_fit v (length row)) as [v'|] eqn:Hv; simpl in H; [| discriminate H].
  simpl in H. inversion H; subst t'; clear H.
  apply py_getitem_Ok in Hj, Hi. apply np_fit_length in Hv.
  split.
  - unfold shape3, tensor3. rewrite !list_fmap_insert.
    rewrite (list_insert_id (length <$> tj) i (length v'))
      by (rewrite list_lookup_fmap, Hi, Hv; reflexivity).
    apply list_insert_id.
    rewrite list_lookup_fmap, Hj. reflexivity.
  - intros j' i' Hne. apply at_point_insert; assumption.
Qed.

End Writes.

Section LinewidthFrames.

Context `{F : Float} `{K : !Kernels}.

Lemma thermal_frame_write (i j k : nat) (v : list double)
    (self0 : Conductivity) :
  stable (thermal_frame i self0)
    (gamma <- attr _gamma ;;
     gamma' <- lift (setitem3 gamma j i k v) ;;
     modify (with_gamma (Some gamma'))).
Proof.
  intros self HI. unfold bind, attr, lift, modify.
  destruct (_gamma self) as [g|] eqn:Hg; [| exact HI].
  destruct (setitem3 g j i k v) as [g'|e] eqn:Hset; [| exact HI].
  cbn [snd]. destruct HI as (Hkept & Hiso & Hgamma).
  split; [exact Hkept |]. split; [exact Hiso |].
  cbn [_gamma with_gamma].
  destruct (_gamma self0) as [g0|].
  - destruct Hgamma as (g1 & Hg1 & Hshape & Hsame).
    rewrite Hg in Hg1. injection Hg1 as <-.
    apply setitem3_spec in Hset. destruct Hset as [Hs1 Hs2].
    exists g'. split; [reflexivity |]. split; [congruence |].
    intros j' i' Hne. rewrite (Hs2 j' i' Hne). apply Hsame, Hne.
  - rewrite Hg in Hgamma. discriminate Hgamma.
Qed.

Lemma thermal_frame_set_gamma_at_sigmas (i : nat) (self0 : Conductivity) :
  stable (thermal_frame i self0) (_set_gamma_at_sigmas i).
Proof.
  unfold _set_gamma_at_sigmas, gamma_at_sigma, gamma_at_temperature.
  repeat first [ apply thermal_frame_write | stable_step ].
Qed.

Lemma isotope_frame_write (i j : nat) (v : list double)
    (self0 : Conductivity) :
  stable (isotope_frame i self0)
    (gamma_iso <- attr _gamma_iso ;;
     gamma_iso' <- lift (setitem2 gamma_iso j i v) ;;
     modify (with_gamma_iso (Some gamma_iso'))).
Proof.
  intros self HI. unfold bind, attr, lift, modify.
  destruct (_gamma_iso self) as [g|] eqn:Hg; [| exact HI].
  destruct (setitem2 g j i v) as [g'|e] eqn:Hset; [| exact HI].
  cbn [snd]. destruct HI as (Hkept & Hgamma & Hcalls & Hiso).
  split; [exact Hkept |]. split; [exact Hgamma |]. split; [exact Hcalls |].
  cbn [_gamma_iso with_gamma_iso].
  destruct (_gamma_iso self0) as [g0|].
  - destruct Hiso as (g1 & Hg1 & Hshape & Hsame).
    rewrite Hg in Hg1. injection Hg1 as <-.
    apply setitem2_spec in Hset. destruct Hset as [Hs1 Hs2].
    exists g'. split; [reflexivity |]. split; [congruence |].
    intros j' i' Hne. rewrite (Hs2 j' i' Hne). apply Hsame, Hne.
  - rewrite Hg in Hiso. discriminate Hiso.
Qed.

Lemma isotope_frame_emit (i : nat) (self0 : Conductivity) (msg : message) :
  stable (isotope_frame i self0) (emit msg).
Proof.
  intros self (Hkept & Hgamma & Hcalls & Hiso). unfold emit, modify.
  cbn [snd]. split; [exact Hkept |]. split; [exact Hgamma |].
  split; [| exact Hiso].
  cbn [history with_history]. rewrite filter_app, Hcalls.
  rewrite filter_cons_False by (simpl; exact id). apply app_nil_r.
Qed.

Lemma isotope_frame_extern (i : nat) (self0 : Conductivity) (c : call) :
  is_ise_call c = false ->
  stable (isotope_frame i self0) (extern c).
Proof.
  intros Hc self (Hkept & Hgamma & Hcalls & Hiso). unfold extern.
  assert (Hfilter : filter is_ise_call (history self ++ [c]) =
                    filter is_ise_call (history self0)).
  { rewrite filter_app, Hcalls.
    rewrite filter_cons_False by (rewrite Hc; exact id). apply app_nil_r. }
  destruct (raises (history self ++ [c])); cbn [snd];
    (split; [exact Hkept |]; split; [exact Hgamma |];
     split; [exact Hfilter | exact Hiso]).
Qed.

Lemma isotope_frame_set_gamma_isotope_at_sigmas (i : nat)
    (self0 : Conductivity) :
  stable (isotope_frame i self0) (_set_gamma_isotope_at_sigmas i).
Proof.
  unfold _set_gamma_isotope_at_sigmas, gamma_isotope_at_sigma.
  repeat first
    [ apply isotope_frame_write
    | apply isotope_frame_emit
    | apply isotope_frame_extern; reflexivity
    | stable_step ].
Qed.

End LinewidthFrames.

Section LinewidthProperties.

Context `{F : Float} `{K : !Kernels}.

Lemma runs_of_sigma (log : Z) (temps : list double) (sigma : option double) :
  length (filter is_run (sigma_calls log temps sigma)) = length temps.
Proof.
  unfold sigma_calls, logged.
  rewrite !filter_app, !length_app.
  assert (H0 : forall l : list call,
            (forall c, In c l -> is_run c = false) ->
            length (filter is_run l) = 0%nat).
  { induction l as [|c l IH]; intros Hl; [reflexivity |].
    rewrite filter_cons_False
      by (rewrite (Hl c (or_introl eq_refl)); exact id).
    apply IH. intros c' Hc'. apply Hl. right. exact Hc'. }
  rewrite (H0 (if negb (log =? 0) then _ else _))
    by (destruct (negb (log =? 0)); intros c Hc; simpl in Hc;
        intuition (subst; reflexivity)).
  rewrite (H0 [ise_set_sigma sigma])
    by (intros c Hc; simpl in Hc; intuition (subst; reflexivity)).
  rewrite (H0 (if not_sigma sigma then _ else _))
    by (destruct (not_sigma sigma); intros c Hc; simpl in Hc;
        intuition (subst; reflexivity)).
  simpl. induction temps as [|t temps IH]; [reflexivity |].
  cbn [flat_map temperature_calls app].
  rewrite filter_cons_False by (simpl; exact id).
  rewrite filter_cons_True by (simpl; exact I).
  cbn [length]. rewrite IH. reflexivity.
Qed.

(** X11: when [_set_gamma_at_sigmas] returns, the calls it made are, for
    each sigma in order: the log line when the log level is not 0,
    [set_sigma], [set_integration_weights] when [not sigma], and for each
    temperature in order [set_temperature] followed by [run]; nothing else
    is printed or called.  The self-energy kernel is thus run once per
    sigma and temperature. *)
Theorem X11_thermal_linewidth_calls (i : nat) (self : Conductivity) :
  fst (_set_gamma_at_sigmas i self) = Ok tt ->
  let after := snd (_set_gamma_at_sigmas i self) in
  let made :=
    flat_map (sigma_calls (_log_level self) (_temperatures self))
      (_sigmas self) in
  history after = history self ++ made /\
  length (filter is_run made) =
    (length (_sigmas self) * length (_temperatures self))%nat.
Proof.
  intros H. cbv zeta.
  destruct (_set_gamma_at_sigmas i self) as [o self'] eqn:E.
  cbn [fst snd] in *. subst o. split.
  - unfold _set_gamma_at_sigmas in E. rewrite bind_gets in E.
    apply (for_enumerate_from_trace
             (fun it => _log_level it = _log_level self /\
                        _temperatures it = _temperatures self)
             history
             (sigma_calls (_log_level self) (_temperatures self))) in E.
    + apply E.
    + intros j x s u s' HI Hb.
      eapply gamma_at_sigma_trace; eassumption.
    + auto.
  - induction (_sigmas self) as [|sigma sigmas IH]; [reflexivity |].
    simpl. rewrite filter_app, length_app, runs_of_sigma, IH. reflexivity.
Qed.

(** X12: whether it returns or raises, [_set_gamma_at_sigmas] for grid
    point [i] writes the thermal linewidths of that grid point only: the
    array keeps its shape and its content at every other grid point, and
    kappa, the isotope linewidths, group velocities, heat capacities, the
    counters, the grid points and the frequencies are as before. *)
Theorem X12_thermal_linewidths_written_at_one_point (i : nat)
    (self : Conductivity) (g0 : tensor4) :
  get_gamma self = Some g0 ->
  let after := snd (_set_gamma_at_sigmas i self) in
  (exists g,
     get_gamma after = Some g /\ shape4 g = shape4 g0 /\
     forall j i', i' <> i -> at_point g j i' = at_point g0 j i') /\
  _gamma_iso after = _gamma_iso self /\
  get_kappa after = get_kappa self /\
  get_group_velocities after = get_group_velocities self /\
  get_mode_heat_capacities after = get_mode_heat_capacities self /\
  get_grid_point_count after = get_grid_point_count self /\
  get_number_of_sampling_points after = get_number_of_sampling_points self /\
  get_grid_points after = get_grid_points self.
Proof.
  intros Hg. cbv zeta. unfold get_gamma in *.
  assert (H0 : thermal_frame i self self).
  { unfold thermal_frame, results_kept. rewrite Hg.
    repeat split; try reflexivity.
    exists g0. split; [first [exact Hg | reflexivity] |].
    split; [reflexivity |].
    intros j i' _. reflexivity. }
  apply (thermal_frame_set_gamma_at_sigmas i self self) in H0.
  destruct H0 as ((Hk & Hgv & Hcv & Hc & Hn & Hp & _) & Hiso & Hgamma).
  rewrite Hg in Hgamma.
  unfold get_kappa, get_group_velocities, get_mode_heat_capacities,
    get_grid_point_count, get_number_of_sampling_points, get_grid_points.
  rewrite Hk. auto 10.
Qed.

Lemma gamma_isotope_at_sigma_trace (i j : nat) (sigma : option double)
    (log : Z) (self self' : Conductivity) (u : unit) :
  _log_level self = log ->
  gamma_isotope_at_sigma i j sigma self = (Ok u, self') ->
  _log_level self' = log /\
  history self' = history self ++ isotope_calls log i sigma.
Proof.
  unfold gamma_isotope_at_sigma. intros Hlog H.
  rewrite bind_gets, Hlog in H.
  apply bind_Ok in H. destruct H as (u0 & s0 & H0 & H).
  assert (H0' : _log_level s0 = log /\ _isotope s0 = _isotope self /\
                history s0 =
                history self ++
                logged log (calculating_gamma_of_ph_isotope (label_of sigma))).
  { unfold when, logged in *. destruct (negb (log =? 0)).
    - unfold emit in H0. apply modify_Ok in H0. subst s0. cbn. auto.
    - inversion H0. subst s0. rewrite app_nil_r. auto. }
  destruct H0' as (Hl0 & Hi0 & Hh0). clear H0.
  rewrite bind_gets in H.
  destruct (_isotope s0) as [iso|]; [| discriminate H].
  apply bind_Ok in H. destruct H as (u1 & s1 & H1 & H).
  apply extern_Ok in H1. subst s1.
  apply bind_Ok in H. destruct H as (u2 & s2 & H2 & H).
  apply extern_Ok in H2. subst s2.
  apply bind_Ok in H. destruct H as (u3 & s3 & H3 & H).
  apply extern_Ok in H3. subst s3.
  apply bind_Ok in H. destruct H as (u4 & s4 & H4 & H).
  apply extern_Ok in H4. subst s4.
  apply bind_Ok in H. destruct H as (v & s5 & H5 & H).
  apply query_Ok in H5. destruct H5 as [_ ->].
  do 2 inv_bind H. apply modify_Ok in H. subst self'.
  cbn. rewrite Hh0. unfold isotope_calls.
  rewrite <- !app_assoc. auto.
Qed.

(** X13: when [_set_gamma_isotope_at_sigmas] returns, the calls it made
    are, for each sigma in order: the log line when the log level is not 0,
    then [set_sigma], [set_phonons], [set_grid_point] with the grid point
    index and [run] on the isotope kernel; whether it returns or raises it
    calls nothing on the self-energy kernel, leaves the thermal linewidths,
    kappa and the counters alone, and writes the isotope linewidths of that
    grid point only. *)
Theorem X13_isotope_linewidths (i : nat) (self : Conductivity)
    (g0 : tensor3) :
  _gamma_iso self = Some g0 ->
  let after := snd (_set_gamma_isotope_at_sigmas i self) in
  (fst (_set_gamma_isotope_at_sigmas i self) = Ok tt ->
   history after =
   history self ++ flat_map (isotope_calls (_log_level self) i)
                     (_sigmas self)) /\
  filter is_ise_call (history after) = filter is_ise_call (history self) /\
  (exists g,
     _gamma_iso after = Some g /\ shape3 g = shape3 g0 /\
     forall j i', i' <> i -> at_point g j i' = at_point g0 j i') /\
  get_gamma after = get_gamma self /\
  get_kappa after = get_kappa self /\
  get_grid_point_count after = get_grid_point_count self /\
  get_number_of_sampling_points after = get_number_of_sampling_points self.
Proof.
  intros Hg. cbv zeta. split.
  - intros H.
    destruct (_set_gamma_isotope_at_sigmas i self) as [o self'] eqn:E.
    cbn [fst snd] in *. subst o.
    unfold _set_gamma_isotope_at_sigmas in E. rewrite bind_gets in E.
    apply (for_enumerate_from_trace
             (fun it => _log_level it = _log_level self)
             history (isotope_calls (_log_level self) i)) in E.
    + apply E.
    + intros j x s u s' HI Hb.
      eapply gamma_isotope_at_sigma_trace; eassumption.
    + reflexivity.
  - assert (H0 : isotope_frame i self self).
    { unfold isotope_frame, results_kept. rewrite Hg.
      repeat split; try reflexivity.
      exists g0. split; [first [exact Hg | reflexivity] |].
    split; [reflexivity |].
      intros j i' _. reflexivity. }
    apply (isotope_frame_set_gamma_isotope_at_sigmas i self self) in H0.
    destruct H0 as ((Hk & _ & _ & Hc & Hn & _) & Hgamma & Hcalls & Hiso).
    rewrite Hg in Hiso.
    unfold get_gamma, get_kappa, get_grid_point_count,
      get_number_of_sampling_points.
    rewrite Hk. auto 10.
Qed.

(** X14: on an instance without isotope scattering (no mass variances
    were given), [_set_gamma_isotope_at_sigmas] raises [AttributeError] at
    the first sigma, after at most its log line and before any call to a
    kernel; with no sigma at all it returns without doing anything. *)
Theorem X14_isotope_linewidths_without_isotope (i : nat)
    (self : Conductivity) :
  _isotope self = None ->
  (_sigmas self = [] ->
   _set_gamma_isotope_at_sigmas i self = (Ok tt, self)) /\
  (forall sigma rest,
     _sigmas self = sigma :: rest ->
     let after := snd (_set_gamma_isotope_at_sigmas i self) in
     fst (_set_gamma_isotope_at_sigmas i self) = Raise AttributeError /\
     history after =
     history self ++
     logged (_log_level self)
       (calculating_gamma_of_ph_isotope (label_of sigma)) /\
     _gamma_iso after = _gamma_iso self).
Proof.
  intros Hiso. split.
  - intros Hs. unfold _set_gamma_isotope_at_sigmas.
    rewrite bind_gets, Hs. reflexivity.
  - intros sigma rest Hs. cbv zeta.
    unfold _set_gamma_isotope_at_sigmas.
    rewrite bind_gets, Hs. unfold for_enumerate.
    cbn [for_enumerate_from].
    unfold gamma_isotope_at_sigma.
    rewrite bind_assoc, bind_gets, bind_assoc.
    unfold logged, when.
    destruct (negb (_log_level self =? 0)).
    + unfold emit. rewrite bind_modify, bind_assoc, bind_gets.
      cbn [_isotope with_history]. rewrite Hiso.
      unfold bind, raise. cbn [fst snd history with_history _gamma_iso].
      auto.
    + rewrite bind_ret, bind_assoc, bind_gets, Hiso.
      unfold bind, raise. cbn [fst snd]. rewrite app_nil_r. auto.
Qed.

End LinewidthProperties.

(** ** Divisor and shift lists of other lengths than three *)

Section OtherLengths.

Context `{F : Float} `{K : !Kernels}.

Lemma check_shift_unset (i : nat) (shifts : list bool) (self : Conductivity) :
  _coarse_mesh_shifts self = Some shifts ->
  shifts !! i = Some false ->
  check_shift i self = (Ok tt, self).
Proof.
  intros Hs Hi. unfold check_shift.
  erewrite bind_attr by exact Hs.
  unfold py_getitem. rewrite Hi, bind_lift. reflexivity.
Qed.

Lemma check_shift_missing (i : nat) (shifts : list bool)
    (self : Conductivity) :
  _coarse_mesh_shifts self = Some shifts ->
  shifts !! i = None ->
  check_shift i self = (Raise IndexError, self).
Proof.
  intros Hs Hi. unfold check_shift.
  erewrite bind_attr by exact Hs.
  unfold py_getitem. rewrite Hi. reflexivity.
Qed.

Lemma shift_loop_unset (self : Conductivity) :
  _coarse_mesh_shifts self = Some [false; false; false] ->
  for_enumerate (seq 0 3) (fun _ i => check_shift i) self = (Ok tt, self).
Proof.
  intros Hs. unfold for_enumerate. cbn [seq for_enumerate_from].
  erewrite bind_eq by (apply (check_shift_unset 0 _ self Hs); reflexivity).
  erewrite bind_eq by (apply (check_shift_unset 1 _ self Hs); reflexivity).
  erewrite bind_eq by (apply (check_shift_unset 2 _ self Hs); reflexivity).
  reflexivity.
Qed.

(** The constructor up to the division of the mesh by the divisors, when
    no shifts are given. *)
Lemma set_mesh_numbers_unshifted (self : Conductivity) (mesh requested : list Z) :
  pp_mesh_numbers (_pp self) = mesh ->
  (length (zip mesh requested) <= 3)%nat ->
  let d := map (fun mn => intc (effective (fst mn) (snd mn)))
               (zip mesh requested) in
  forall e,
    np_binop np_floordiv mesh d = Raise e ->
    fst (_set_mesh_numbers (Some requested) None self) = Raise e.
Proof.
  intros Hmesh Hlen d e He.
  unfold _set_mesh_numbers.
  rewrite bind_gets, bind_modify, Hmesh.
  rewrite bind_assoc, bind_modify.
  rewrite bind_assoc. erewrite bind_attr by reflexivity.
  rewrite bind_assoc. unfold for_enumerate.
  erewrite bind_eq
    by (apply (divisor_loop _ 0%nat []); [reflexivity | simpl; lia]).
  rewrite bind_assoc. erewrite bind_attr by reflexivity.
  rewrite bind_assoc, bind_modify.
  rewrite bind_assoc, bind_modify.
  erewrite bind_eq by (apply shift_loop_unset; reflexivity).
  erewrite bind_attr by reflexivity.
  erewrite bind_attr by reflexivity.
  cbn [app]. rewrite map_map. cbn [fst snd]. fold d.
  unfold bind, lift. rewrite He. reflexivity.
Qed.

Lemma init_raises (pp : Interaction) (sym : Symmetry)
    (temps : list double) (sigmas : list (option double))
    (mv : option (list double)) (md : option (list Z))
    (cms : option (list bool)) (nks : bool) (log : Z) (e : exn) :
  (forall self, _pp self = pp ->
     fst (_set_mesh_numbers md cms self) = Raise e) ->
  __init__ pp sym temps sigmas mv md cms nks log = Raise e.
Proof.
  intros H. unfold __init__.
  match goal with
  | |- match bind ?m ?k ?s0 with _ => _ end = _ =>
      specialize (H s0 eq_refl); unfold bind at 1;
      destruct (m s0) as [[u|e'] s]; cbn [fst] in H;
      [discriminate H | congruence]
  end.
Qed.

Lemma set_mesh_numbers_single (self : Conductivity) (m0 m1 m2 n : Z) :
  pp_mesh_numbers (_pp self) = [m0; m1; m2] ->
  0 < m0 < 2 ^ 31 ->
  let e := effective m0 n in
  let coarse := [np_floordiv m0 e; np_floordiv m1 e; np_floordiv m2 e] in
  _set_mesh_numbers (Some [n]) None self =
  (Ok tt,
   with_history
     (history self ++ divisor_messages 0 [(m0, n)] ++
      log_message (_log_level self) coarse)
     (with_coarse_mesh (Some coarse)
        (with_coarse_mesh_shifts (Some [false; false; false])
           (with_mesh_divisors (Some [e])
              (with_mesh (Some [m0; m1; m2]) self))))).
Proof.
  intros Hmesh H0 e coarse.
  unfold _set_mesh_numbers.
  rewrite bind_gets, bind_modify, Hmesh.
  rewrite bind_assoc, bind_modify.
  rewrite bind_assoc. erewrite bind_attr by reflexivity.
  rewrite bind_assoc. unfold for_enumerate.
  erewrite bind_eq
    by (apply (divisor_loop _ 0%nat []); [reflexivity | simpl; lia]).
  rewrite bind_assoc. erewrite bind_attr by reflexivity.
  rewrite bind_assoc, bind_modify.
  rewrite bind_assoc, bind_modify.
  cbn [app map fst snd zip zip_with].
  fold e.
  rewrite !intc_small by (apply effective_bounds; assumption).
  erewrite bind_eq by (apply shift_loop_unset; reflexivity).
  erewrite bind_attr by reflexivity.
  erewrite bind_attr by reflexivity.
  unfold np_binop. cbn [length].
  rewrite decide_False by discriminate.
  rewrite bind_lift, bind_modify, bind_gets.
  cbn [map]. fold coarse.
  unfold log_message, when.
  cbn [_log_level with_coarse_mesh with_history with_coarse_mesh_shifts
       with_mesh_divisors with_mesh].
  destruct (negb (_log_level self =? 0)).
  - rewrite bind_lift. cbn [length map]. rewrite decide_True by reflexivity.
    unfold emit, modify. cbn. rewrite <- !app_assoc. reflexivity.
  - unfold ret. cbn. rewrite <- !app_assoc, !app_nil_r. reflexivity.
Qed.

(** X15: a divisor list that has not three entries, no shifts given.
    One entry is kept or replaced by 1 against the first mesh number alone
    and then divides all three mesh numbers, rounding down; no entry or two
    entries make the constructor raise [ValueError]; of more than three
    entries only the first three are looked at. *)
Theorem X15_divisor_lists_of_other_lengths (pp : Interaction)
    (sym : Symmetry) (temps : list double) (sigmas : list (option double))
    (mv : option (list double)) (nks : bool) (log : Z) (m0 m1 m2 : Z) :
  pp_mesh_numbers pp = [m0; m1; m2] ->
  0 < m0 < 2 ^ 31 -> 0 < m1 < 2 ^ 31 -> 0 < m2 < 2 ^ 31 ->
  (forall n,
     let e := if np_mod m0 n =? 0 then n else 1 in
     exists self,
       __init__ pp sym temps sigmas mv (Some [n]) None nks log = Ok self /\
       get_mesh_divisors self = Some [e] /\
       _coarse_mesh self =
         Some [np_floordiv m0 e; np_floordiv m1 e; np_floordiv m2 e]) /\
  __init__ pp sym temps sigmas mv (Some []) None nks log =
    Raise ValueError /\
  (forall n0 n1,
     __init__ pp sym temps sigmas mv (Some [n0; n1]) None nks log =
     Raise ValueError) /\
  (forall n0 n1 n2 rest,
     __init__ pp sym temps sigmas mv (Some (n0 :: n1 :: n2 :: rest)) None
       nks log =
     __init__ pp sym temps sigmas mv (Some [n0; n1; n2]) None nks log).
Proof.
  intros Hmesh H0 H1 H2. split; [| split; [| split]].
  - intros n e. unfold __init__.
    erewrite bind_eq.
    2:{ apply (set_mesh_numbers_single _ m0 m1 m2 n); [exact Hmesh | exact H0]. }
    destruct mv; eexists; (split; [reflexivity |]); cbn; auto.
  - apply init_raises. intros self Hpp.
    apply (set_mesh_numbers_unshifted self [m0; m1; m2] []);
      [rewrite Hpp; exact Hmesh | simpl; lia | reflexivity].
  - intros n0 n1. apply init_raises. intros self Hpp.
    apply (set_mesh_numbers_unshifted self [m0; m1; m2] [n0; n1]);
      [rewrite Hpp; exact Hmesh | simpl; lia | reflexivity].
  - intros n0 n1 n2 rest. unfold __init__.
    match goal with
    | |- match bind ?m ?k ?s0 with _ => _ end = _ =>
        assert (Heq : m s0 =
                      _set_mesh_numbers (Some [n0; n1; n2]) None s0)
    end.
    { unfold _set_mesh_numbers.
      rewrite !bind_gets, !bind_modify. cbn [_pp]. rewrite Hmesh.
      rewrite !(bind_assoc (modify _)), !bind_modify.
      rewrite !(bind_assoc (attr _)).
      erewrite !bind_attr by reflexivity.
      reflexivity. }
    unfold bind at 1 7. rewrite Heq. reflexivity.
Qed.

(** X16: with three divisors given, a list of shifts with fewer than
    three flags makes the constructor raise [IndexError]. *)
Theorem X16_short_shift_list (pp : Interaction) (sym : Symmetry)
    (temps : list double) (sigmas : list (option double))
    (mv : option (list double)) (nks : bool) (log : Z)
    (m0 m1 m2 n0 n1 n2 : Z) (shifts : list bool) :
  pp_mesh_numbers pp = [m0; m1; m2] ->
  (length shifts < 3)%nat ->
  __init__ pp sym temps sigmas mv (Some [n0; n1; n2]) (Some shifts) nks log =
  Raise IndexError.
Proof.
  intros Hmesh Hlen. apply init_raises. intros self Hpp.
  unfold _set_mesh_numbers.
  rewrite bind_gets, bind_modify, Hpp, Hmesh.
  rewrite bind_assoc, bind_modify.
  rewrite bind_assoc. erewrite bind_attr by reflexivity.
  rewrite bind_assoc. unfold for_enumerate.
  erewrite bind_eq
    by (apply (divisor_loop _ 0%nat []); [reflexivity | simpl; lia]).
  rewrite bind_assoc. erewrite bind_attr by reflexivity.
  rewrite bind_assoc, bind_modify.
  rewrite bind_assoc, bind_modify.
  cbn [app map fst snd zip zip_with seq for_enumerate_from].
  destruct shifts as [|f0 [|f1 [|f2 [|f3 shifts]]]];
    try (simpl in Hlen; lia).
  - rewrite bind_assoc.
    erewrite bind_raise
      by (eapply check_shift_missing; reflexivity).
    reflexivity.
  - rewrite bind_assoc.
    erewrite bind_eq
      by (eapply (check_shift_step 0); reflexivity || (simpl; lia)).
    rewrite bind_assoc.
    erewrite bind_raise
      by (eapply check_shift_missing; reflexivity).
    reflexivity.
  - rewrite bind_assoc.
    erewrite bind_eq
      by (eapply (check_shift_step 0); reflexivity || (simpl; lia)).
    rewrite bind_assoc.
    erewrite bind_eq
      by (eapply (check_shift_step 1); reflexivity || (simpl; lia)).
    rewrite bind_assoc.
    erewrite bind_raise
      by (eapply check_shift_missing; reflexivity).
    reflexivity.
Qed.

(** X17: what the constructor prints, with three divisors given: first
    one line per axis, in order, whose divisor does not divide the mesh
    number, then one line per axis, in order, whose shift flag was set over
    an odd kept divisor, then the sampling mesh when the log level is not 0;
    nothing else, and no kernel is called.  The diagnostics do not depend on
    the log level. *)
Theorem X17_constructor_output (pp : Interaction) (sym : Symmetry)
    (temps : list double) (sigmas : list (option double))
    (mv : option (list double)) (cms : option (list bool)) (nks : bool)
    (log : Z) (m0 m1 m2 n0 n1 n2 : Z) (f0 f1 f2 : bool) :
  pp_mesh_numbers pp = [m0; m1; m2] ->
  0 < m0 < 2 ^ 31 -> 0 < m1 < 2 ^ 31 -> 0 < m2 < 2 ^ 31 ->
  match cms with
  | None => [false; false; false]
  | Some given => given
  end = [f0; f1; f2] ->
  exists self e0 e1 e2 coarse,
    __init__ pp sym temps sigmas mv (Some [n0; n1; n2]) cms nks log = Ok self /\
    get_mesh_divisors self = Some [e0; e1; e2] /\
    _coarse_mesh self = Some coarse /\
    history self =
      divisor_messages 0 [(m0, n0); (m1, n1); (m2, n2)] ++
      (shift_message 0 f0 e0 ++ shift_message 1 f1 e1 ++
       shift_message 2 f2 e2) ++
      (if log =? 0 then [] else [print (lifetime_sampling_mesh coarse)]).
Proof.
  intros Hmesh H0 H1 H2 Hcms.
  destruct (init_given pp sym temps sigmas mv cms nks log
              m0 m1 m2 n0 n1 n2 f0 f1 f2 Hmesh H0 H1 H2 Hcms)
    as (self & Hinit & _ & Hd & Hc & _ & Hh).
  exists self. do 4 eexists.
  split; [exact Hinit |]. split; [exact Hd |]. split; [exact Hc |].
  rewrite Hh. unfold log_message. destruct (log =? 0); reflexivity.
Qed.

End OtherLengths.

(** ** The geometry reader on files that are not well formed *)

Section Lines.

Context `{F : Float} `{Py : !Interpreter}.

Lemma bind_ext {Self A B : Type} (m : method Self A)
    (k k' : A -> method Self B) (s : Self) :
  (forall a s', k a s' = k' a s') -> bind m k s = bind m k' s.
Proof.
  intros H. unfold bind. destruct (m s) as [[a|e] s']; [apply H | reflexivity].
Qed.

Lemma for_lines_app (l1 l2 : list str) (s : locals) :
  for_lines (l1 ++ l2) s = (for_lines l1 ;; for_lines l2) s.
Proof.
  revert s. induction l1 as [|line l1 IH]; intros s; simpl.
  - reflexivity.
  - rewrite bind_assoc. apply bind_ext. intros _ s'. apply IH.
Qed.

Lemma read_line_ignored (line : str) (s : locals) :
  is_ignored line = true -> read_line line s = (Ok tt, s).
Proof.
  unfold is_ignored, read_line. cbv zeta.
  destruct (str_split line) as [|first rest]; [reflexivity |].
  intros H. repeat (apply andb_prop in H; destruct H as [H ?]).
  repeat match goal with
         | Hn : negb ?b = true |- _ => apply negb_true_iff in Hn; rewrite Hn
         end.
  reflexivity.
Qed.

Lemma for_lines_ignored (lines : list str) (s : locals) :
  for_lines (List.filter (fun l => negb (is_ignored l)) lines) s =
  for_lines lines s.
Proof.
  revert s. induction lines as [|line lines IH]; intros s; simpl.
  - reflexivity.
  - destruct (is_ignored line) eqn:E; simpl.
    + unfold bind. rewrite (read_line_ignored line s E). apply IH.
    + apply bind_ext. intros _ s'. apply IH.
Qed.

Lemma read_aims_without_ignored (lines : list str) :
  read_aims (List.filter (fun l => negb (is_ignored l)) lines) =
  read_aims lines.
Proof.
  unfold read_aims, read_aims_body.
  match goal with
  | |- bind _ ?k ?s = _ =>
      transitivity
        (bind (for_lines (List.filter (fun l => negb (is_ignored l)) lines))
           k s); [reflexivity |];
      unfold bind at 1; rewrite for_lines_ignored; reflexivity
  end.
Qed.

(** X19: blank lines and lines whose first field is none of
    [lattice_vector], [atom...], [initial_moment], [constrain_relaxation]
    are passed over: [read_aims] gives the same result, and the same
    exception if any, with these lines removed. *)
Theorem X19_ignored_lines (lines : list str) :
  read_aims (List.filter (fun l => negb (is_ignored l)) lines) =
  read_aims lines.
Proof. apply read_aims_without_ignored. Qed.

Lemma for_lines_stable (I : locals -> Prop) (lines : list str) :
  (forall line, In line lines -> stable I (read_line line)) ->
  stable I (for_lines lines).
Proof.
  induction lines as [|line lines IH]; intros H; simpl.
  - apply stable_ret.
  - apply stable_bind.
    + apply H. left. reflexivity.
    + intros _. apply IH. intros l Hl. apply H. right. exact Hl.
Qed.

(** A line that is no atom line leaves the variables as they are before
    the first atom, whatever becomes of it. *)
Lemma read_line_atomless (line : str) :
  is_atom line = false -> stable atomless (read_line line).
Proof.
  unfold is_atom, is_atom_line, read_line. cbv zeta.
  destruct (str_split line) as [|first rest]; [intros _; apply stable_ret |].
  intros Hatom. rewrite Hatom.
  destruct (str_eqb first (lit "lattice_vector")).
  { intros s HI. unfold bind, lift, gets, modify.
    destruct (lmap py_float (slice 1 4 (first :: rest))); exact HI. }
  destruct (str_eqb first (lit "initial_moment")).
  { intros s HI. unfold bind, lift, gets, modify.
    destruct (py_getitem (first :: rest) 1); [| exact HI].
    destruct (py_float a); [| exact HI].
    pose proof HI as (_ & _ & _ & Hm & _). rewrite Hm. exact HI. }
  destruct (str_eqb first (lit "constrain_relaxation")).
  { intros s HI. unfold bind, gets.
    pose proof HI as (_ & _ & _ & _ & _ & Hw & _). rewrite Hw. exact HI. }
  apply stable_ret.
Qed.

Lemma atomless_loop (lines : list str) (s : locals) :
  forallb (fun l => negb (is_atom l)) lines = true ->
  atomless s -> atomless (snd (for_lines lines s)).
Proof.
  intros Hall. apply for_lines_stable. intros line Hin.
  apply read_line_atomless.
  rewrite forallb_forall in Hall. specialize (Hall line Hin).
  apply negb_true_iff in Hall. exact Hall.
Qed.

Lemma atomless_start : atomless start.
Proof. repeat split. Qed.

(** The rest of [read_aims] after a loop that met no atom line. *)
Lemma read_aims_atomless (lines : list str) :
  forallb (fun l => negb (is_atom l)) lines = true ->
  forall r, fst (read_aims lines) <> Ok r.
Proof.
  intros Hall r. unfold read_aims, read_aims_body.
  pose proof (atomless_loop lines start Hall atomless_start) as HI.
  fold start. unfold bind at 1.
  destruct (for_lines lines start) as [[u|e] s]; [| discriminate].
  cbn [snd] in HI. destruct HI as (Hf & _ & _ & _ & Hc & _).
  rewrite bind_gets, Hf. unfold for_enumerate. cbn [for_enumerate_from].
  rewrite bind_ret, !bind_gets, Hc.
  rewrite decide_True by reflexivity. discriminate.
Qed.

(** X18: [read_aims] does not return on a file without an atom line: when
    it returns, some line of the file has a first field that begins with
    [atom].  On a file of blank and passed-over lines only, the empty file
    among them, it raises [TypeError]. *)
Theorem X18_no_atoms_no_result (lines : list str) :
  (forall r, fst (read_aims lines) = Ok r ->
   exists line, In line lines /\ is_atom line = true) /\
  (forallb is_ignored lines = true ->
   read_aims lines = (Raise TypeError, start)).
Proof.
  split.
  - intros r Hr.
    destruct (existsb is_atom lines) eqn:E.
    + apply existsb_exists in E. exact E.
    + exfalso. apply (read_aims_atomless lines) with (r := r); [| exact Hr].
      clear Hr. induction lines as [|l lines IH]; [reflexivity |].
      simpl in *. apply orb_false_iff in E. destruct E as [-> E].
      simpl. apply IH, E.
  - intros Hall.
    assert (Hnone : List.filter (fun l => negb (is_ignored l)) lines = []).
    { induction lines as [|l lines IH]; [reflexivity |].
      simpl in *. apply andb_prop in Hall. destruct Hall as [-> Hall].
      simpl. apply IH, Hall. }
    rewrite <- read_aims_without_ignored. rewrite Hnone. reflexivity.
Qed.

Lemma read_line_warning (line : str) (s s1 : locals) (u : unit) :
  read_line line s = (Ok u, s1) ->
  constrain_warning s1 =
  (if is_atom line then false
   else if has_keyword (lit "constrain_relaxation") line then true
   else constrain_warning s).
Proof.
  unfold is_atom, is_atom_line, has_keyword, read_line. cbv zeta.
  destruct (str_split line) as [|first rest].
  { intros H. inversion H. reflexivity. }
  destruct (str_eqb first (lit "lattice_vector")) eqn:E1.
  { apply str_eqb_eq in E1. subst first. eval_literals; cbv beta iota.
    intros H. do 2 inv_bind H. apply modify_Ok in H. subst s1. reflexivity. }
  destruct (str_eqb (take 4 first) (lit "atom")) eqn:E2.
  { intros H. apply bind_Ok in H. destruct H as (u0 & s0 & H0 & H).
    do 3 inv_bind H.
    destruct (frac s0); [| discriminate H].
    do 5 inv_bind H. apply modify_Ok in H. subst s1. reflexivity. }
  destruct (str_eqb first (lit "initial_moment")) eqn:E3.
  { apply str_eqb_eq in E3. subst first. eval_literals; cbv beta iota.
    intros H. do 4 inv_bind H. apply modify_Ok in H. subst s1. reflexivity. }
  destruct (str_eqb first (lit "constrain_relaxation")) eqn:E4.
  { intros H. inv_bind H.
    destruct (constrain_warning s); [discriminate H |].
    inv_bind H. apply bind_Ok in H. destruct H as (u1 & s2 & H1 & H).
    apply modify_Ok in H. subst s1. reflexivity. }
  intros H. inversion H. reflexivity.
Qed.

Lemma for_lines_warning (lines : list str) :
  forall (s s' : locals) (u : unit),
    for_lines lines s = (Ok u, s') ->
    constrain_warning s' = warned_from (constrain_warning s) lines.
Proof.
  induction lines as [|line lines IH]; intros s s' u H; simpl in H.
  - inversion H. reflexivity.
  - apply bind_Ok in H. destruct H as (u1 & s1 & H1 & H).
    apply read_line_warning in H1. apply IH in H.
    simpl. rewrite <- H1. exact H.
Qed.

Lemma read_line_refused (line : str) (s : locals) :
  has_keyword (lit "constrain_relaxation") line = true ->
  constrain_warning s = true ->
  read_line line s = (Raise RuntimeError, s).
Proof.
  unfold has_keyword, read_line. cbv zeta.
  destruct (str_split line) as [|first rest]; [discriminate |].
  intros Hk Hw. apply str_eqb_eq in Hk. subst first.
  eval_literals; cbv beta iota.
  rewrite bind_gets, Hw. reflexivity.
Qed.

Lemma read_aims_raises_in_loop (before after : list str) (line : str)
    (s : locals) (e : exn) (u : unit) :
  for_lines before start = (Ok u, s) ->
  read_line line s = (Raise e, s) ->
  read_aims (before ++ line :: after) = (Raise e, s).
Proof.
  intros Hb Hl. unfold read_aims, read_aims_body. fold start.
  unfold bind at 1. rewrite for_lines_app.
  unfold bind at 1. rewrite Hb. cbn [for_lines].
  unfold bind at 1. rewrite Hl. reflexivity.
Qed.

(** X20: a [constrain_relaxation] line is refused with [RuntimeError]
    unless, of the atom and [constrain_relaxation] lines before it, the
    last one is an atom line: so before the first atom, and as the second
    such line after the same atom, whatever its value and whatever stands
    between. *)
Theorem X20_constrain_relaxation_misplaced (before after : list str)
    (line : str) :
  reads_through before ->
  has_keyword (lit "constrain_relaxation") line = true ->
  warned_from true before = true ->
  fst (read_aims (before ++ line :: after)) = Raise RuntimeError.
Proof.
  unfold reads_through. intros Hb Hk Hw.
  destruct (for_lines before start) as [o s] eqn:E.
  cbn [fst] in Hb. subst o.
  pose proof (for_lines_warning before start s tt E) as Hs.
  change (constrain_warning start) with true in Hs. rewrite Hw in Hs.
  rewrite (read_aims_raises_in_loop before after line s RuntimeError tt E
             (read_line_refused line s Hk Hs)).
  reflexivity.
Qed.

(** X21: an [initial_moment] line before the first atom line makes
    [read_aims] raise [IndexError], its value being a float or missing. *)
Theorem X21_initial_moment_before_atoms (before after : list str)
    (line : str) :
  reads_through before ->
  forallb (fun l => negb (is_atom l)) before = true ->
  has_keyword (lit "initial_moment") line = true ->
  (forall value, str_split line !! 1%nat = Some value -> float value <> None) ->
  fst (read_aims (before ++ line :: after)) = Raise IndexError.
Proof.
  unfold reads_through. intros Hb Hall Hk Hvalue.
  pose proof (atomless_loop before start Hall atomless_start) as HI.
  destruct (for_lines before start) as [o s] eqn:E.
  cbn [fst snd] in Hb, HI. subst o.
  rewrite (read_aims_raises_in_loop before after line s IndexError tt E);
    [reflexivity |].
  destruct HI as (_ & _ & _ & Hm & _).
  revert Hk Hvalue. unfold has_keyword, read_line. cbv zeta.
  destruct (str_split line) as [|first rest]; [discriminate |].
  intros Hk Hvalue. apply str_eqb_eq in Hk. subst first.
  eval_literals; cbv beta iota.
  unfold py_getitem.
  destruct rest as [|value rest]; [reflexivity |].
  cbn [lookup list_lookup]. rewrite bind_lift.
  unfold py_float.
  specialize (Hvalue value eq_refl).
  destruct (float value) as [x|]; [| contradiction].
  rewrite bind_lift, bind_gets, Hm. reflexivity.
Qed.

Lemma lmap_Ok {A B : Type} (f : A -> outcome B) (l : list A) :
  forall ys, lmap f l = Ok ys -> Forall2 (fun x y => f x = Ok y) l ys.
Proof.
  induction l as [|x l IH]; intros ys H; simpl in H.
  - inversion H. constructor.
  - destruct (f x) as [y|e] eqn:Hx; simpl in H; [| discriminate H].
    destruct (lmap f l) as [ys'|e] eqn:Hl; simpl in H; [| discriminate H].
    inversion H. constructor; [exact Hx | apply IH; reflexivity].
Qed.

Lemma lmap_raises {A B : Type} (f : A -> outcome B) (l : list A) (e0 : exn) :
  (forall x e, f x = Raise e -> e = e0) ->
  forall e, lmap f l = Raise e -> e = e0.
Proof.
  intros Hf. induction l as [|x l IH]; intros e H; simpl in H.
  - discriminate H.
  - destruct (f x) as [y|e'] eqn:Hx; simpl in H.
    + destruct (lmap f l) as [ys'|e'] eqn:Hl; simpl in H; [discriminate H |].
      inversion H; subst e'. apply IH. reflexivity.
    + inversion H; subst e'. eapply Hf. exact Hx.
Qed.

Lemma py_getitem_raises {A : Type} (l : list A) (i : nat) (e : exn) :
  py_getitem l i = Raise e -> e = IndexError.
Proof.
  unfold py_getitem. destruct (l !! i); intros H; inversion H; reflexivity.
Qed.

(** With fewer than three lattice vectors the conversion of a fractional
    position fails on the missing one. *)
Lemma cartesian_short (cell : list (list double)) (pos : list double) :
  (length cell < 3)%nat -> cartesian cell pos = Raise IndexError.
Proof.
  intros Hlen. destruct (cartesian cell pos) as [xyz|e] eqn:E.
  - exfalso. unfold cartesian in E. apply lmap_Ok in E.
    cbn [seq] in E.
    apply Forall2_cons_inv_l in E. destruct E as (x0 & rest & H0 & _ & _).
    cbv beta in H0.
    match type of H0 with
    | obind ?m _ = _ => destruct m as [terms|e] eqn:Ht
    end; simpl in H0; [| discriminate H0].
    apply lmap_Ok in Ht.
    assert (Hcell : forall l, (l < 3)%nat -> is_Some (cell !! l)).
    { intros l Hl.
      assert (Hin : In l [0; 1; 2]%nat) by (simpl; lia).
      clear -Ht Hin. induction Ht as [|x y xs ys Hxy _ IH]; [destruct Hin |].
      destruct Hin as [<-|Hin]; [| apply IH, Hin].
      destruct (py_getitem pos x) as [p|]; simpl in Hxy; [| discriminate].
      unfold py_getitem in Hxy at 1.
      destruct (cell !! x); [eauto | discriminate]. }
    destruct (Hcell (length cell)) as [v Hv]; [exact Hlen |].
    apply lookup_lt_Some in Hv. lia.
  - f_equal. unfold cartesian in E.
    eapply lmap_raises in E; [exact E |].
    intros i e' Hi.
    match type of Hi with
    | obind ?m _ = _ => destruct m as [terms|e''] eqn:Ht
    end; simpl in Hi; [discriminate Hi |].
    inversion Hi; subst e''.
    eapply lmap_raises in Ht; [exact Ht |].
    intros l e'' Hl.
    destruct (py_getitem pos l) as [p|e1] eqn:H1; simpl in Hl;
      [| inversion Hl; subst; eapply py_getitem_raises; exact H1].
    destruct (py_getitem cell l) as [vec|e1] eqn:H2; simpl in Hl;
      [| inversion Hl; subst; eapply py_getitem_raises; exact H2].
    destruct (py_getitem vec i) as [c|e1] eqn:H3; simpl in Hl;
      [discriminate Hl | inversion Hl; subst; eapply py_getitem_raises; exact H3].
Qed.

Lemma convert_short (flags : list bool) :
  forall (j : nat) (s : locals),
    (length (cell s) < 3)%nat ->
    (j + length flags <= length (positions s))%nat ->
    In true flags ->
    fst (for_enumerate_from j flags convert s) = Raise IndexError.
Proof.
  induction flags as [|flag flags IH]; intros j s Hcell Hlen Hin.
  - destruct Hin.
  - cbn [for_enumerate_from]. simpl in Hlen.
    destruct flag.
    + unfold bind at 1. unfold convert at 1.
      rewrite !bind_gets.
      destruct (positions s !! j) as [old|] eqn:Hold.
      * unfold py_getitem. rewrite Hold, bind_lift.
        rewrite (cartesian_short (cell s) old Hcell). reflexivity.
      * apply lookup_ge_None in Hold. lia.
    + destruct Hin as [Hin|Hin]; [discriminate Hin |].
      unfold convert at 1. rewrite bind_ret.
      apply IH; [exact Hcell | lia | exact Hin].
Qed.

Lemma read_line_cell (line : str) (s s1 : locals) (u : unit) :
  read_line line s = (Ok u, s1) ->
  length (cell s1) =
  (length (cell s) +
   (if has_keyword (lit "lattice_vector") line then 1 else 0))%nat.
Proof.
  unfold has_keyword, read_line. cbv zeta.
  destruct (str_split line) as [|first rest].
  { intros H. inversion H. lia. }
  destruct (str_eqb first (lit "lattice_vector")) eqn:E1.
  { intros H. do 2 inv_bind H. apply modify_Ok in H. subst s1.
    cbn. rewrite length_app. reflexivity. }
  destruct (str_eqb (take 4 first) (lit "atom")) eqn:E2.
  { intros H. apply bind_Ok in H. destruct H as (u0 & s0 & H0 & H).
    assert (Hc : cell s0 = cell s).
    { destruct (str_eqb first (lit "atom"));
        [apply modify_Ok in H0; subst s0; reflexivity |].
      destruct (str_eqb first (lit "atom_frac"));
        [apply modify_Ok in H0; subst s0; reflexivity |].
      inversion H0. reflexivity. }
    do 3 inv_bind H.
    destruct (frac s0); [| discriminate H].
    do 5 inv_bind H. apply modify_Ok in H. subst s1.
    cbn. rewrite Hc. lia. }
  destruct (str_eqb first (lit "initial_moment")) eqn:E3.
  { intros H. do 4 inv_bind H. apply modify_Ok in H. subst s1. cbn. lia. }
  destruct (str_eqb first (lit "constrain_relaxation")) eqn:E4.
  { intros H. inv_bind H.
    destruct (constrain_warning s); [discriminate H |].
    inv_bind H. apply bind_Ok in H. destruct H as (u1 & s2 & H1 & H).
    apply modify_Ok in H. subst s1. cbn.
    destruct (str_eqb a (lit ".true.")).
    - do 2 inv_bind H1. apply modify_Ok in H1. subst s2. cbn. lia.
    - inversion H1. lia. }
  intros H. inversion H. lia.
Qed.

Lemma for_lines_cell (lines : list str) :
  forall (s s' : locals) (u : unit),
    for_lines lines s = (Ok u, s') ->
    length (cell s') =
    (length (cell s) +
     length (List.filter (has_keyword (lit "lattice_vector")) lines))%nat.
Proof.
  induction lines as [|line lines IH]; intros s s' u H; simpl in H.
  - inversion H. simpl. lia.
  - apply bind_Ok in H. destruct H as (u1 & s1 & H1 & H).
    apply read_line_cell in H1. apply IH in H. simpl.
    destruct (has_keyword (lit "lattice_vector") line); simpl; lia.
Qed.

Lemma atom_frac_entry (lines : list str) (line : str) :
  In line lines ->
  has_keyword (lit "atom_frac") line = true ->
  exists e, In e (atom_entries (map str_split lines)) /\
            entry_keyword e = lit "atom_frac".
Proof.
  intros Hin Hk. induction lines as [|l lines IH]; [destruct Hin |].
  simpl. destruct Hin as [->|Hin].
  - unfold has_keyword in Hk.
    destruct (str_split line) as [|first rest]; [discriminate Hk |].
    apply str_eqb_eq in Hk. subst first. cbn [is_atom_line].
    eval_literals; cbv beta iota.
    eexists. split; [left; reflexivity | reflexivity].
  - destruct (IH Hin) as (e & He & Hke).
    destruct (is_atom_line (str_split l)); exists e; simpl; auto.
Qed.

(** X23: a file with an [atom_frac] line and fewer than three
    [lattice_vector] lines makes [read_aims] raise [IndexError], after the
    loop over the lines, when the first fractional position is converted. *)
Theorem X23_fractional_atom_without_cell (lines : list str) :
  reads_through lines ->
  (exists line, In line lines /\ has_keyword (lit "atom_frac") line = true) ->
  (length (List.filter (has_keyword (lit "lattice_vector")) lines) < 3)%nat ->
  fst (read_aims lines) = Raise IndexError.
Proof.
  unfold reads_through. intros Hread (line & Hin & Hk) Hcell.
  destruct (for_lines lines start) as [o s] eqn:E.
  cbn [fst] in Hread. subst o.
  pose proof (for_lines_cell lines start s tt E) as Hc.
  change (length (cell start)) with 0%nat in Hc.
  destruct (for_lines_Ok lines start s tt E)
    as (flags & given & Hf & Hp & _ & _ & Hflags & Hgiven).
  change (is_frac start) with (@nil bool) in Hf.
  change (positions start) with (@nil (list double)) in Hp.
  rewrite app_nil_l in Hf, Hp.
  destruct (atom_frac_entry lines line Hin Hk) as (e & He & Hke).
  assert (Htrue : In true flags).
  { clear -Hflags He Hke.
    induction Hflags as [|e' flag es fs Hfl _ IH]; [destruct He |].
    destruct He as [->|He]; [| right; apply IH, He].
    left. destruct Hfl as [_ Hfl]. apply Hfl, Hke. }
  unfold read_aims, read_aims_body. fold start.
  unfold bind at 1. rewrite E.
  rewrite bind_gets, Hf. unfold for_enumerate.
  unfold bind at 1.
  pose proof (convert_short flags 0 s) as Hconv.
  destruct (for_enumerate_from 0 flags convert s) as [o s'].
  cbn [fst] in Hconv. rewrite Hconv; [reflexivity | lia | | exact Htrue].
  rewrite Hp. apply Forall2_length in Hflags, Hgiven. simpl. lia.
Qed.

End Lines.

(** ** Magnetic moments *)

Section Moments.

Context `{F : Float} `{Py : !Interpreter}.

Lemma read_line_magmoms (line : str) (s s1 : locals) (u : unit) :
  read_line line s = (Ok u, s1) ->
  let fields := str_split line in
  if is_atom_line fields then magmoms s1 = magmoms s ++ [None]
  else magmoms s1 = set_last (magmoms s) (moment_field fields) /\
       parses (moment_field fields).
Proof.
  unfold is_atom_line, moment_field, read_line. cbv zeta.
  destruct (str_split line) as [|first rest].
  { intros H. inversion H. simpl. auto. }
  destruct (str_eqb first (lit "lattice_vector")) eqn:E1.
  { apply str_eqb_eq in E1. subst first. eval_literals; cbv beta iota.
    intros H. do 2 inv_bind H. apply modify_Ok in H. subst s1.
    eval_literals; cbv beta iota. destruct rest; simpl; auto. }
  destruct (str_eqb (take 4 first) (lit "atom")) eqn:E2.
  { intros H. apply bind_Ok in H. destruct H as (u0 & s0 & H0 & H).
    assert (Hm : magmoms s0 = magmoms s).
    { destruct (str_eqb first (lit "atom"));
        [apply modify_Ok in H0; subst s0; reflexivity |].
      destruct (str_eqb first (lit "atom_frac"));
        [apply modify_Ok in H0; subst s0; reflexivity |].
      inversion H0. reflexivity. }
    do 3 inv_bind H.
    destruct (frac s0); [| discriminate H].
    do 5 inv_bind H. apply modify_Ok in H. subst s1.
    cbn. rewrite Hm. reflexivity. }
  destruct (str_eqb first (lit "initial_moment")) eqn:E3.
  { intros H.
    apply bind_Ok in H. destruct H as (field & s0 & H0 & H).
    apply lift_Ok in H0. destruct H0 as [H0 ->].
    apply bind_Ok in H. destruct H as (moment & s0 & HM & H).
    apply lift_Ok in HM. destruct HM as [HM ->].
    rewrite bind_gets in H.
    apply bind_Ok in H. destruct H as (magmoms' & s0 & HL & H).
    apply lift_Ok in HL. destruct HL as [HL ->].
    apply modify_Ok in H. subst s1.
    unfold py_getitem in H0.
    destruct rest as [|value rest]; [discriminate H0 |].
    cbn in H0. inversion H0; subst field.
    unfold py_float in HM.
    destruct (float value) as [x|] eqn:Hx; [| discriminate HM].
    inversion HM; subst moment.
    unfold setitem_last in HL.
    destruct (magmoms s) eqn:Hms; [discriminate HL |].
    inversion HL; subst magmoms'.
    cbn. rewrite Hx. split; [reflexivity | eauto]. }
  destruct (str_eqb first (lit "constrain_relaxation")) eqn:E4.
  { intros H. inv_bind H.
    destruct (constrain_warning s); [discriminate H |].
    inv_bind H. apply bind_Ok in H. destruct H as (u1 & s2 & H1 & H).
    apply modify_Ok in H. subst s1.
    assert (Hm : magmoms s2 = magmoms s).
    { destruct (str_eqb a (lit ".true.")).
      - do 2 inv_bind H1. apply modify_Ok in H1. subst s2. reflexivity.
      - inversion H1. reflexivity. }
    cbn. rewrite Hm. destruct rest; simpl; auto. }
  intros H. inversion H. destruct rest; simpl; auto.
Qed.

Lemma last_moment_acc (acc : option str) (lines : list (list str)) :
  last_moment acc lines =
  match last_moment None lines with
  | Some value => Some value
  | None => acc
  end.
Proof.
  revert acc. induction lines as [|fields lines IH]; intros acc; simpl.
  - reflexivity.
  - rewrite IH. rewrite (IH (match moment_field fields with
                             | Some value => Some value
                             | None => None
                             end)).
    destruct (last_moment None lines); [reflexivity |].
    destruct (moment_field fields); reflexivity.
Qed.

Lemma last_moment_parses (lines : list (list str)) :
  Forall (fun fields => parses (moment_field fields)) lines ->
  parses (last_moment None lines).
Proof.
  intros H. induction H as [|fields lines Hf _ IH]; simpl; [exact I |].
  rewrite last_moment_acc.
  destruct (last_moment None lines); [exact IH |].
  destruct (moment_field fields); [exact Hf | exact I].
Qed.

Lemma set_last_twice (l : list (option double)) (a b : option str) :
  set_last (set_last l a) b =
  set_last l (match b with Some value => Some value | None => a end).
Proof.
  destruct b as [vb|]; [| reflexivity].
  destruct a as [va|]; [| reflexivity].
  simpl. rewrite length_insert. apply list_insert_insert_eq.
Qed.

Lemma set_last_snoc (l : list (option double)) (field : option str) :
  set_last (l ++ [None]) field = l ++ [moment_of field].
Proof.
  destruct field as [value|]; [| reflexivity].
  simpl. rewrite length_app. simpl.
  replace (pred (length l + 1)) with (length l) by lia.
  rewrite insert_app_r_alt by lia.
  rewrite Nat.sub_diag. reflexivity.
Qed.

(** The moments after the loop: one per atom line, that of its last
    [initial_moment] follower, and every value read was a float. *)
Lemma for_lines_magmoms (lines : list str) :
  forall (s s' : locals) (u : unit),
    for_lines lines s = (Ok u, s') ->
    let file := map str_split lines in
    magmoms s' =
      set_last (magmoms s) (last_moment None (followers file)) ++
      map moment_of (atom_moments file) /\
    Forall (fun fields => parses (moment_field fields)) (followers file) /\
    Forall parses (atom_moments file).
Proof.
  induction lines as [|line lines IH]; intros s s' u H; simpl in H.
  - inversion H. simpl. rewrite app_nil_r. auto.
  - apply bind_Ok in H. destruct H as (u1 & s1 & H1 & H).
    apply read_line_magmoms in H1. cbv zeta in H1.
    destruct (IH _ _ _ H) as (Hm & Hfol & Hat). clear IH H.
    cbn [map followers atom_moments].
    destruct (is_atom_line (str_split line)).
    + rewrite Hm, H1, set_last_snoc. cbn [last_moment set_last map].
      rewrite <- app_assoc. cbn [app].
      split; [reflexivity |]. split; [constructor |].
      constructor; [apply last_moment_parses; exact Hfol | exact Hat].
    + destruct H1 as [H1 Hp].
      rewrite Hm, H1, set_last_twice. cbn [last_moment].
      rewrite (last_moment_acc (match moment_field _ with
                                | Some value => Some value
                                | None => None
                                end)).
      split.
      * f_equal. f_equal.
        destruct (last_moment None _); [reflexivity |].
        destruct (moment_field (str_split line)); reflexivity.
      * split; [constructor; assumption | exact Hat].
Qed.

Lemma all_floats_None (l : list (option double)) :
  In None l -> all_floats l = None.
Proof.
  induction l as [|o l IH]; intros H; [destruct H |].
  destruct o as [x|]; [| reflexivity].
  destruct H as [H|H]; [discriminate H |].
  simpl. rewrite (IH H). reflexivity.
Qed.

Lemma all_floats_Some (l : list (option double)) (ms : list double) :
  all_floats l = Some ms <-> l = map Some ms.
Proof.
  revert ms. induction l as [|o l IH]; intros ms; simpl.
  - split; intros H.
    + injection H as <-. reflexivity.
    + destruct ms; [reflexivity | discriminate H].
  - destruct o as [x|].
    + destruct (all_floats l) as [xs|] eqn:E.
      * split; intros H.
        -- injection H as <-. simpl. f_equal. apply IH. reflexivity.
        -- destruct ms as [|m ms]; [discriminate H |].
           simpl in H. injection H as Hx Hl. subst m.
           apply (proj2 (IH ms)) in Hl. injection Hl as ->. reflexivity.
      * split; intros H; [discriminate H |].
        destruct ms as [|m ms]; [discriminate H |].
        simpl in H. injection H as Hx Hl.
        apply (proj2 (IH ms)) in Hl. discriminate Hl.
    + split; intros H; [discriminate H |].
      destruct ms; discriminate H.
Qed.

Lemma select_map_fst {A B : Type} (f : A -> B) (l : list A)
    (mask : list bool) :
  select (map f l) mask = map f (select l mask).
Proof.
  revert mask. induction l as [|x l IH]; intros [|b mask]; simpl;
    try reflexivity.
  destruct b; simpl; rewrite IH; reflexivity.
Qed.

Lemma atom_moments_length (file : list (list str)) :
  length (atom_moments file) = length (atom_entries file).
Proof.
  induction file as [|fields file IH]; [reflexivity |]. simpl.
  destruct (is_atom_line fields); simpl; auto.
Qed.

(** X22: magnetic moments.  When [read_aims] returns, the moment of an
    atom is the value of the last [initial_moment] line between its atom
    line and the next.  If some atom has none, neither structure carries
    moments; otherwise the second structure carries the moments of all
    atoms, in order, and the first those of the atoms that are not
    constrained. *)
Theorem X22_magnetic_moments (lines : list str) (atoms all_atoms : Atoms)
    (constrained : list bool) :
  fst (read_aims lines) = Ok (atoms, all_atoms, constrained) ->
  let fields := atom_moments (map str_split lines) in
  length fields = length constrained /\
  (In None fields ->
   atoms_magmoms all_atoms = None /\ atoms_magmoms atoms = None) /\
  (~ In None fields ->
   exists moments,
     Forall2 (fun field moment =>
                exists value, field = Some value /\ float value = Some moment)
       fields moments /\
     atoms_magmoms all_atoms = Some moments /\
     atoms_magmoms atoms = Some (select moments (map negb constrained))).
Proof.
  intros H. unfold read_aims in H. cbv zeta.
  set (fields := atom_moments (map str_split lines)).
  match type of H with
  | fst ?r = _ => destruct r as [o st] eqn:E
  end.
  simpl in H. subst o. unfold read_aims_body in E.
  apply bind_Ok in E. destruct E as (u1 & s1 & Hlines & E).
  inv_bind E.
  apply bind_Ok in E. destruct E as (u2 & s2 & Hconv & E).
  do 4 inv_bind E.
  apply bind_Ok in E. destruct E as (u3 & s3 & Hnonempty & E).
  assert (s3 = s2).
  { destruct (decide (constraints s2 = [])); inversion Hnonempty; auto. }
  subst s3. clear Hnonempty.
  apply bind_Ok in E. destruct E as (u4 & s4 & Hprint & E).
  inv_bind E.
  destruct (for_lines_Ok lines _ _ _ Hlines)
    as (flags & given & Hf & _ & _ & Hc & _ & _).
  destruct (for_lines_magmoms lines _ _ _ Hlines) as (Hm & _ & Hparse).
  cbv zeta in Hm. fold fields in Hm, Hparse.
  assert (Hnil : forall b, mark_last [] b = []) by (intros []; reflexivity).
  assert (Hnil' : forall o, set_last [] o = [])
    by (intros []; reflexivity).
  cbn [is_frac constraints magmoms app] in Hf, Hc, Hm.
  rewrite Hnil in Hc. rewrite Hnil' in Hm. cbn [app] in Hc, Hm.
  unfold for_enumerate in Hconv. rewrite Hf in Hconv.
  destruct (convert_loop flags 0 s1 s2 u2 Hconv)
    as (_ & _ & Hmag & Hcon & _).
  rewrite Hmag, Hm in E. rewrite Hcon, Hc in E.
  assert (Hlen : length fields =
                 length (map entry_marked
                           (atom_entries (map str_split lines)))).
  { unfold fields. rewrite length_map. apply atom_moments_length. }
  destruct (all_floats (map moment_of fields)) as [ms|] eqn:Hall.
  - inversion E; subst atoms all_atoms constrained; clear E.
    cbn [atoms_magmoms]. split; [exact Hlen |].
    apply all_floats_Some in Hall.
    assert (Hms : Forall2 (fun field moment =>
                     exists value, field = Some value /\
                                   float value = Some moment) fields ms).
    { clear -Hall. revert ms Hall.
      induction fields as [|field fields IH]; intros [|m ms] Hall;
        try discriminate Hall; [constructor |].
      simpl in Hall. injection Hall as Hm Hall.
      constructor; [| apply IH, Hall].
      destruct field as [value|]; [| discriminate Hm].
      exists value. auto. }
    split.
    + intros Hnone. exfalso. clear -Hms Hnone.
      induction Hms as [|field m fs ms (v & -> & _) _ IH]; [destruct Hnone |].
      destruct Hnone as [Hn|Hn]; [discriminate Hn | apply IH, Hn].
    + intros _. exists ms. split; [exact Hms |]. split; [reflexivity |].
      rewrite Hall, select_map_fst. apply all_floats_Some. reflexivity.
  - inversion E; subst atoms all_atoms constrained; clear E.
    cbn [atoms_magmoms]. split; [exact Hlen |]. split; [auto |].
    intros Hnone. exfalso.
    assert (Hsome : exists ms, map moment_of fields = map Some ms).
    { clear -Hnone Hparse.
      induction Hparse as [|field fs Hp _ IH]; [exists []; reflexivity |].
      destruct IH as [ms IH]; [intros Hin; apply Hnone; right; exact Hin |].
      destruct field as [value|]; [| exfalso; apply Hnone; left; reflexivity].
      destruct Hp as [x Hx]. exists (x :: ms). simpl. rewrite Hx, IH.
      reflexivity. }
    destruct Hsome as [ms Hsome]. apply all_floats_Some in Hsome.
    congruence.
Qed.

End Moments.

Lemma X1_next_before_initialize_witness :
  __init__ (F := integer_float) cube identity_only [0; 300] [None] None None
    None false 0 = Ok cube_instance /\
  next (Sub := spec_subclass) cube_instance = (Raise TypeError, cube_instance).
Proof.
  assert (Hinit : __init__ (F := integer_float) cube identity_only [0; 300]
                    [None] None None None false 0 = Ok cube_instance)
    by reflexivity.
  split; [exact Hinit |].
  apply (X1_next_before_initialize (Sub := spec_subclass) _ _ _ _ _ _ _ _ _ _
           Hinit).
Defined.

Lemma X2_failed_step_not_counted_witness :
  (get_grid_points cube_ready = Some [0; 1] /\
   get_grid_point_count cube_ready = Some 0%nat /\
   fst (_run_at_grid_point (Subclass := failing_subclass) cube_ready) =
   Raise ValueError) /\
  next (Sub := failing_subclass) cube_ready =
  (Raise ValueError,
   snd (_run_at_grid_point (Subclass := failing_subclass) cube_ready)).
Proof.
  assert (Hg : get_grid_points cube_ready = Some [0; 1]) by reflexivity.
  assert (Hc : get_grid_point_count cube_ready = Some 0%nat) by reflexivity.
  assert (Hf : fst (_run_at_grid_point (Subclass := failing_subclass)
                      cube_ready) = Raise ValueError) by reflexivity.
  assert (Hkeep : keeps_cursor
                    (_run_at_grid_point (Subclass := failing_subclass)))
    by (intros self; split; reflexivity).
  assert (Hne : 0%nat <> length [0; 1]) by (cbn [length]; lia).
  split; [auto |].
  exact (proj1 (X2_failed_step_not_counted (Sub := failing_subclass) Hkeep
                  cube_ready [0; 1] 0%nat ValueError Hg Hc Hne Hf)).
Defined.

Lemma X3_specified_points_without_weights_witness :
  fst (initialize (Some [0; 1]) cube_instance) = Ok tt /\
  get_grid_weights (snd (initialize (Some [0; 1]) cube_instance)) = None.
Proof.
  assert (Hok : fst (initialize (Some [0; 1]) cube_instance) = Ok tt)
    by reflexivity.
  split; [exact Hok |].
  destruct (X3_specified_points_without_weights [0; 1] cube_instance Hok)
    as (d & _ & _ & Hw).
  exact Hw.
Defined.

Lemma X4_all_points_unit_weights_witness :
  (_no_kappa_stars cube_all_points = true /\
   fst (initialize None cube_all_points) = Ok tt) /\
  exists gps,
    get_grid_points (snd (initialize None cube_all_points)) = Some gps /\
    get_grid_weights (snd (initialize None cube_all_points)) =
    Some (replicate (length gps) 1).
Proof.
  assert (Hok : fst (initialize None cube_all_points) = Ok tt)
    by reflexivity.
  split; [split; [reflexivity | exact Hok] |].
  destruct (X4_all_points_unit_weights cube_all_points eq_refl Hok)
    as (coarse & mesh & d & gps & _ & _ & _ & _ & Hg & Hw).
  exists gps. split; assumption.
Defined.

Lemma X5_initialize_allocates_zeros_witness :
  (_read_gamma cube_instance = false /\
   fst (initialize None cube_instance) = Ok tt) /\
  exists gps,
    get_grid_points cube_ready = Some gps /\
    get_gamma cube_ready = Some (zeros4 1 (length gps) 2 3).
Proof.
  assert (Hok : fst (initialize None cube_instance) = Ok tt) by reflexivity.
  split; [split; [reflexivity | exact Hok] |].
  destruct (X5_initialize_allocates_zeros None cube_instance eq_refl Hok)
    as (gps & Hg & _ & Hgamma & _).
  exists gps. split; assumption.
Defined.

Lemma X6_initialize_one_kernel_call_witness :
  fst (initialize None cube_instance) = Ok tt /\
  exists gps, history cube_ready = history cube_instance ++ [pp_set_phonon gps].
Proof.
  assert (Hok : fst (initialize None cube_instance) = Ok tt) by reflexivity.
  split; [exact Hok |].
  destruct (X6_initialize_one_kernel_call None cube_instance Hok)
    as (gps & _ & Hh & _).
  exists gps. exact Hh.
Defined.

Lemma X7_qpoints_of_selected_points_witness :
  fst (initialize None cube_instance) = Ok tt /\
  exists gps qpoints,
    get_grid_points cube_ready = Some gps /\
    get_qpoints cube_ready = Ok qpoints /\
    length qpoints = length gps.
Proof.
  assert (Hok : fst (initialize None cube_instance) = Ok tt) by reflexivity.
  split; [exact Hok |].
  destruct (X7_qpoints_of_selected_points None cube_instance Hok)
    as (gps & qpoints & mesh & Hg & Hq & _ & Hlen & _).
  exists gps, qpoints. auto.
Defined.

Lemma X8_grid_point_out_of_range_witness :
  (get_mesh_divisors cube_instance = Some [1; 1; 1] /\
   get_mesh_numbers cube_instance = Some [2; 2; 2] /\
   Exists (fun g => ~ in_range 8 g) [9]) /\
  fst (initialize (Some [9]) cube_instance) = Raise IndexError.
Proof.
  assert (Hout : Exists (fun g => ~ in_range 8 g) [9])
    by (constructor; unfold in_range; lia).
  split; [auto |].
  pose proof (X8_grid_point_out_of_range (K := quiet_kernels) [9]
                cube_instance [1; 1; 1] [2; 2; 2] eq_refl eq_refl) as H.
  cbv zeta in H. rewrite (H Hout). reflexivity.
Defined.

Lemma X9_frequencies_at_selected_points_witness :
  fst (initialize None cube_instance) = Ok tt /\
  snd (get_frequencies cube_ready) = cube_ready.
Proof.
  assert (Hok : fst (initialize None cube_instance) = Ok tt) by reflexivity.
  split; [exact Hok |].
  destruct (X9_frequencies_at_selected_points None cube_instance Hok)
    as (gps & table & _ & _ & Hsame & _).
  exact Hsame.
Defined.

Lemma X10_accessors_before_initialize_witness :
  __init__ (F := integer_float) cube identity_only [0; 300] [None] None None
    None false 0 = Ok cube_instance /\
  get_frequencies cube_instance = (Raise TypeError, cube_instance).
Proof.
  assert (Hinit : __init__ (F := integer_float) cube identity_only [0; 300]
                    [None] None None None false 0 = Ok cube_instance)
    by reflexivity.
  split; [exact Hinit |].
  apply (X10_accessors_before_initialize _ _ _ _ _ _ _ _ _ _ Hinit).
Defined.

Lemma X24_attributes_created_by_initialize_witness :
  __init__ (F := integer_float) cube identity_only [0; 300] [None] None None
    None false 0 = Ok cube_instance /\
  get_kappa cube_instance = Raise AttributeError /\
  get_qpoints cube_instance = Raise AttributeError.
Proof.
  assert (Hinit : __init__ (F := integer_float) cube identity_only [0; 300]
                    [None] None None None false 0 = Ok cube_instance)
    by reflexivity.
  split; [exact Hinit |].
  destruct (X24_attributes_created_by_initialize (K := quiet_kernels)
              _ _ _ _ _ _ _ _ _ _ Hinit) as (Hk & Hq & _).
  split; assumption.
Defined.

Lemma X11_thermal_linewidth_calls_witness :
  fst (_set_gamma_at_sigmas 0 cube_ready) = Ok tt /\
  history (snd (_set_gamma_at_sigmas 0 cube_ready)) =
  history cube_ready ++
  [ise_set_sigma None; ise_set_integration_weights;
   ise_set_temperature 0; ise_run; ise_set_temperature 300; ise_run].
Proof.
  assert (Hok : fst (_set_gamma_at_sigmas 0 cube_ready) = Ok tt)
    by reflexivity.
  split; [exact Hok |].
  exact (proj1 (X11_thermal_linewidth_calls 0 cube_ready Hok)).
Defined.

Lemma X12_thermal_linewidths_written_at_one_point_witness :
  get_gamma cube_ready = Some (zeros4 1 2 2 3) /\
  get_kappa (snd (_set_gamma_at_sigmas 0 cube_ready)) = get_kappa cube_ready.
Proof.
  assert (Hg : get_gamma cube_ready = Some (zeros4 1 2 2 3)) by reflexivity.
  split; [exact Hg |].
  destruct (X12_thermal_linewidths_written_at_one_point 0 cube_ready
              (zeros4 1 2 2 3) Hg) as (_ & _ & Hk & _).
  exact Hk.
Defined.

Lemma X13_isotope_linewidths_witness :
  _gamma_iso cube_ready = Some (zeros3 1 2 3) /\
  get_gamma (snd (_set_gamma_isotope_at_sigmas 0 cube_ready)) =
  get_gamma cube_ready.
Proof.
  assert (Hg : _gamma_iso cube_ready = Some (zeros3 1 2 3)) by reflexivity.
  split; [exact Hg |].
  destruct (X13_isotope_linewidths 0 cube_ready (zeros3 1 2 3) Hg)
    as (_ & _ & _ & Hgamma & _).
  exact Hgamma.
Defined.

Lemma X14_isotope_linewidths_without_isotope_witness :
  (_isotope cube_ready = None /\ _sigmas cube_ready = [None]) /\
  fst (_set_gamma_isotope_at_sigmas 0 cube_ready) = Raise AttributeError.
Proof.
  assert (Hi : _isotope cube_ready = None) by reflexivity.
  assert (Hs : _sigmas cube_ready = [None]) by reflexivity.
  split; [split; assumption |].
  destruct (X14_isotope_linewidths_without_isotope 0 cube_ready Hi)
    as [_ Hraise].
  exact (proj1 (Hraise None [] Hs)).
Defined.

Lemma X15_divisor_lists_of_other_lengths_witness :
  (pp_mesh_numbers cube = [2; 2; 2] /\ 0 < 2 < 2 ^ 31) /\
  __init__ (F := integer_float) cube identity_only
    [0; 300] [None] None (Some [2; 2]) None false 0 = Raise ValueError.
Proof.
  assert (Hb : 0 < 2 < 2 ^ 31) by lia.
  split; [split; [reflexivity | exact Hb] |].
  destruct (X15_divisor_lists_of_other_lengths (F := integer_float)
              cube identity_only [0; 300] [None] None
              false 0 2 2 2 eq_refl Hb Hb Hb) as (_ & _ & Htwo & _).
  exact (Htwo 2 2).
Defined.

Lemma X16_short_shift_list_witness :
  (pp_mesh_numbers cube = [2; 2; 2] /\ (length [true] < 3)%nat) /\
  __init__ (F := integer_float) cube identity_only
    [0; 300] [None] None (Some [2; 2; 2]) (Some [true]) false 0 =
  Raise IndexError.
Proof.
  assert (Hl : (length [true] < 3)%nat) by (cbn [length]; lia).
  split; [split; [reflexivity | exact Hl] |].
  exact (X16_short_shift_list (F := integer_float) cube
           identity_only [0; 300] [None] None false 0 2 2 2 2 2 2 [true]
           eq_refl Hl).
Defined.

Lemma X17_constructor_output_witness :
  (pp_mesh_numbers cube = [2; 2; 2] /\ 0 < 2 < 2 ^ 31) /\
  exists self,
    __init__ (F := integer_float) cube identity_only
      [0; 300] [None] None (Some [2; 3; 1]) (Some [true; true; false])
      false 0 = Ok self /\
    history self =
    [print (not_dividable "second" 2 3); print (can_not_be_shifted "second")].
Proof.
  assert (Hb : 0 < 2 < 2 ^ 31) by lia.
  split; [split; [reflexivity | exact Hb] |].
  destruct (X17_constructor_output (F := integer_float)
              cube identity_only [0; 300] [None] None
              (Some [true; true; false]) false 0 2 2 2 2 3 1
              true true false eq_refl Hb Hb Hb eq_refl)
    as (self & e0 & e1 & e2 & coarse & Hinit & Hd & _ & Hh).
  exists self. split; [exact Hinit |].
  assert (He : Some [e0; e1; e2] = Some [2; 1; 1]).
  { rewrite <- Hd. unfold get_mesh_divisors.
    revert Hinit. clear. intros Hinit.
    assert (Hc : __init__ (F := integer_float) cube
                   identity_only [0; 300] [None] None (Some [2; 3; 1])
                   (Some [true; true; false]) false 0 =
                 Ok (mkConductivity (F := integer_float) cube identity_only
                       [0; 300] [None] false 0 None None None None None false
                       None None None None None (Some [2; 2; 2])
                       (Some [2; 1; 1]) (Some [1; 2; 2])
                       (Some [true; false; false]) None None None None
                       [print (not_dividable "second" 2 3);
                        print (can_not_be_shifted "second")]))
      by reflexivity.
    rewrite Hc in Hinit. injection Hinit as <-. reflexivity. }
  injection He as -> -> ->. exact Hh.
Defined.

Lemma X20_constrain_relaxation_misplaced_witness :
  (reads_through (F := integer_float) (Py := python2)
     (map lit ["atom 0 0 0 H"; "constrain_relaxation .true."]) /\
   has_keyword (Py := python2) (lit "constrain_relaxation")
     (lit "constrain_relaxation .false.") = true /\
   warned_from (Py := python2) true
     (map lit ["atom 0 0 0 H"; "constrain_relaxation .true."]) = true) /\
  fst (read_aims (F := integer_float) (Py := python2)
         (map lit ["atom 0 0 0 H"; "constrain_relaxation .true.";
                   "constrain_relaxation .false."; "atom 1 1 1 O"])) =
  Raise RuntimeError.
Proof.
  assert (Hr : reads_through (F := integer_float) (Py := python2)
                 (map lit ["atom 0 0 0 H"; "constrain_relaxation .true."]))
    by reflexivity.
  split; [split; [exact Hr | split; reflexivity] |].
  exact (X20_constrain_relaxation_misplaced (F := integer_float)
           (Py := python2)
           (map lit ["atom 0 0 0 H"; "constrain_relaxation .true."])
           (map lit ["atom 1 1 1 O"]) (lit "constrain_relaxation .false.") Hr
           eq_refl eq_refl).
Defined.

Lemma X21_initial_moment_before_atoms_witness :
  (reads_through (F := integer_float) (Py := python3)
     (map lit ["lattice_vector 1 0 0"]) /\
   has_keyword (Py := python3) (lit "initial_moment")
     (lit "initial_moment 1") = true) /\
  fst (read_aims (F := integer_float) (Py := python3)
         (map lit ["lattice_vector 1 0 0"; "initial_moment 1";
                   "atom 1 1 1 O"])) =
  Raise IndexError.
Proof.
  assert (Hr : reads_through (F := integer_float) (Py := python3)
                 (map lit ["lattice_vector 1 0 0"])) by reflexivity.
  split; [split; [exact Hr | reflexivity] |].
  apply (X21_initial_moment_before_atoms (F := integer_float)
           (Py := python3) (map lit ["lattice_vector 1 0 0"])
           (map lit ["atom 1 1 1 O"]) (lit "initial_moment 1") Hr eq_refl
           eq_refl).
  intros value Hvalue.
  change (Some (lit "1") = Some value) in Hvalue. injection Hvalue as <-.
  discriminate.
Defined.

Lemma X22_magnetic_moments_witness :
  fst (read_aims (F := integer_float) (Py := python3) moments_in) =
  Ok (mkAtoms [[1; 0; 0]] (map lit ["H"]) [[0; 0; 0]] (Some [1]),
      mkAtoms [[1; 0; 0]] (map lit ["H"; "O"]) [[0; 0; 0]; [1; 1; 1]]
        (Some [1; 3]),
      [false; true]) /\
  length (atom_moments (map (str_split (Py := python3)) moments_in)) =
  length [false; true] /\
  exists moments,
    Forall2 (fun field moment =>
               exists value,
                 field = Some value /\
                 float (Float := integer_float) value = Some moment)
      (atom_moments (map (str_split (Py := python3)) moments_in)) moments /\
    Some [1; 3] = Some moments /\
    Some [1] = Some (select moments (map negb [false; true])).
Proof.
  assert (Hok :
    fst (read_aims (F := integer_float) (Py := python3) moments_in) =
    Ok (mkAtoms [[1; 0; 0]] (map lit ["H"]) [[0; 0; 0]] (Some [1]),
        mkAtoms [[1; 0; 0]] (map lit ["H"; "O"]) [[0; 0; 0]; [1; 1; 1]]
          (Some [1; 3]),
        [false; true])) by reflexivity.
  split; [exact Hok |].
  destruct (X22_magnetic_moments (F := integer_float) (Py := python3)
              moments_in _ _ _ Hok) as (Hlen & _ & Hall).
  split; [exact Hlen |].
  apply Hall. intros Hin.
  change (In None [Some (lit "1"); Some (lit "3")]) in Hin.
  destruct Hin as [Hin | [Hin | []]]; discriminate Hin.
Defined.

Lemma X23_fractional_atom_without_cell_witness :
  (reads_through (F := integer_float) (Py := python3)
     (map lit ["lattice_vector 1 0 0"; "atom_frac 0 0 0 H"]) /\
   has_keyword (Py := python3) (lit "atom_frac") (lit "atom_frac 0 0 0 H") =
   true) /\
  fst (read_aims (F := integer_float) (Py := python3)
         (map lit ["lattice_vector 1 0 0"; "atom_frac 0 0 0 H"])) =
  Raise IndexError.
Proof.
  assert (Hr : reads_through (F := integer_float) (Py := python3)
                 (map lit ["lattice_vector 1 0 0"; "atom_frac 0 0 0 H"]))
    by reflexivity.
  split; [split; [exact Hr | reflexivity] |].
  apply (X23_fractional_atom_without_cell (F := integer_float)
           (Py := python3) _ Hr).
  - exists (lit "atom_frac 0 0 0 H"). split; [right; left; reflexivity |].
    reflexivity.
  - assert (Hc : length (List.filter
                           (has_keyword (Py := python3)
                              (lit "lattice_vector"))
                           (map lit ["lattice_vector 1 0 0";
                                     "atom_frac 0 0 0 H"])) = 1%nat)
      by reflexivity.
    rewrite Hc. lia.
Defined.

(** ** Splitting written text into fields *)

Section Splitting.

Context `{Py : Interpreter}.

Lemma forallb_weaken {A : Type} (p q : A -> bool) (s : list A) :
  (forall c, p c = true -> q c = true) ->
  forallb p s = true -> forallb q s = true.
Proof.
  intros Hpq. rewrite !forallb_forall. intros H c Hc. apply Hpq, H, Hc.
Qed.

Lemma no_space_no_newline (s : str) :
  usual_white_space -> no_space s = true -> no_newline s = true.
Proof.
  intros (_ & Hlf & Hcr & _). apply forallb_weaken. intros c Hc.
  apply negb_true_iff in Hc. apply andb_true_intro.
  split; apply negb_true_iff, N.eqb_neq; intros ->; congruence.
Qed.

Lemma blanks_no_newline (s : str) : blanks s = true -> no_newline s = true.
Proof.
  apply forallb_weaken. intros c Hc. apply N.eqb_eq in Hc. subst c.
  reflexivity.
Qed.

Lemma printable_word (s : str) :
  usual_white_space -> s <> [] -> printable s = true -> word s.
Proof.
  intros (_ & _ & _ & H) Hne Hs. split; [exact Hne |].
  revert Hs. apply forallb_weaken. intros c Hc.
  rewrite (H c Hc). reflexivity.
Qed.

Lemma split_from_word (t w : str) :
  no_space t = true ->
  split_from w t =
  match w ++ t with
  | [] => []
  | s => [s]
  end.
Proof.
  revert w. induction t as [|c t IH]; intros w H; cbn [split_from].
  - rewrite app_nil_r. destruct w; reflexivity.
  - unfold no_space in H. cbn [forallb] in H.
    apply andb_prop in H. destruct H as [Hc Ht].
    apply negb_true_iff in Hc. rewrite Hc.
    rewrite (IH _ Ht), <- app_assoc. reflexivity.
Qed.

Lemma split_from_app_space (a : str) (c : char) (b w : str) :
  is_space c = true ->
  split_from w (a ++ c :: b) = split_from w a ++ split_from [] b.
Proof.
  intros Hc. revert w. induction a as [|x a IH]; intros w.
  - cbn [app split_from]. rewrite Hc. destruct w; reflexivity.
  - cbn [app split_from]. destruct (is_space x).
    + destruct w; rewrite IH; reflexivity.
    + apply IH.
Qed.

Lemma split_from_blanks (pad rest : str) :
  is_space 32%N = true -> blanks pad = true ->
  split_from [] (pad ++ rest) = split_from [] rest.
Proof.
  intros Hblank. induction pad as [|c pad IH]; [reflexivity |].
  unfold blanks. cbn [forallb].
  intros H. apply andb_prop in H. destruct H as [Hc Hp].
  apply N.eqb_eq in Hc. subst c.
  cbn [app split_from]. rewrite Hblank. apply IH, Hp.
Qed.

(** A padded word followed by white space is the first field. *)
Lemma str_split_field (pad t : str) (c : char) (rest : str) :
  is_space 32%N = true -> blanks pad = true -> word t -> is_space c = true ->
  str_split ((pad ++ t) ++ c :: rest) = t :: str_split rest.
Proof.
  intros Hblank Hp [Hne Ht] Hc. unfold str_split.
  rewrite <- app_assoc, split_from_blanks by assumption.
  rewrite split_from_app_space by exact Hc.
  rewrite (split_from_word t [] Ht). cbn [app].
  destruct t; [contradiction | reflexivity].
Qed.

Lemma str_split_keyword (k : str) (c : char) (rest : str) :
  word k -> is_space c = true ->
  str_split (k ++ c :: rest) = k :: str_split rest.
Proof.
  intros [Hne Hk] Hc. unfold str_split.
  rewrite split_from_app_space by exact Hc.
  rewrite (split_from_word k [] Hk). cbn [app].
  destruct k; [contradiction | reflexivity].
Qed.

Lemma str_split_LF : usual_white_space -> str_split LF = [].
Proof.
  intros (_ & Hlf & _). unfold str_split, LF. cbn [split_from].
  rewrite Hlf. reflexivity.
Qed.

End Splitting.

Lemma python2_usual_white_space : usual_white_space (Py := python2).
Proof.
  split; [reflexivity |]. split; [reflexivity |]. split; [reflexivity |].
  intros c Hc. apply andb_prop in Hc. destruct Hc as [Hlo Hhi].
  apply N.leb_le in Hlo, Hhi. cbn [is_space python2].
  apply orb_false_iff. split.
  - apply andb_false_iff. right. apply N.leb_gt. lia.
  - apply N.eqb_neq. lia.
Qed.

Lemma python3_usual_white_space : usual_white_space (Py := python3).
Proof.
  split; [reflexivity |]. split; [reflexivity |]. split; [reflexivity |].
  intros c Hc. apply andb_prop in Hc. destruct Hc as [Hlo Hhi].
  apply N.leb_le in Hlo, Hhi. cbn [is_space python3].
  repeat (apply orb_false_iff; split);
    first [ apply andb_false_iff; right; apply N.leb_gt; lia
          | apply andb_false_iff; left; apply N.leb_gt; lia
          | apply N.eqb_neq; lia ].
Qed.

(** ** What [write_aims] writes *)

Section WriteLayout.

Context `{F : Float} `{P : !Printf}.

Lemma write_vec_eq (vec : list double) (lines : str) :
  length vec = 3%nat ->
  write_vec vec lines = Ok (lines ++ lattice_vector_line vec).
Proof.
  destruct vec as [|x [|y [|z [|w vec]]]]; try discriminate.
  intros _. unfold write_vec, three_floats, lattice_vector_line, floats_text.
  cbn [obind fold_right]. rewrite <- !app_assoc, ?app_nil_l. reflexivity.
Qed.

Lemma for_vecs_eq (cell : list (list double)) :
  Forall (fun vec => length vec = 3%nat) cell ->
  forall lines,
    for_vecs cell lines = Ok (lines ++ concat (map lattice_vector_line cell)).
Proof.
  induction 1 as [|vec cell Hvec _ IH]; intros lines.
  - cbn [for_vecs map concat]. rewrite app_nil_r. reflexivity.
  - cbn [for_vecs]. rewrite (write_vec_eq vec lines Hvec). cbn [obind].
    rewrite IH. cbn [map concat]. rewrite <- app_assoc. reflexivity.
Qed.

Ltac normal_text :=
  unfold block_of, atom_block, atom_line, initial_moment_line,
    constrain_relaxation_line, lattice_vector_line, floats_text,
    three_floats;
  cbn [fold_right obind concat app];
  rewrite <- ?app_assoc, ?app_nil_r, ?app_nil_l;
  reflexivity.

Lemma write_atom_eq (atoms : PhonopyAtoms) (constraints : option (list bool))
    (n : nat) (d : list double * str * option double * bool)
    (lines : str) :
  atom_data atoms constraints n = Some d ->
  write_atom atoms constraints n lines = Ok (lines ++ concat (block_of d)).
Proof.
  unfold atom_data, write_atom, py_getitem.
  destruct (get_positions atoms !! n) as [pos|]; [| discriminate].
  destruct (get_chemical_symbols atoms !! n) as [sym|]; [| discriminate].
  cbn [obind].
  destruct (get_magnetic_moments atoms) as [magmoms|].
  - destruct (magmoms !! n) as [moment|]; [| discriminate].
    cbn [option_map].
    destruct constraints as [constraints|].
    + destruct (constraints !! n) as [constrained|]; [| discriminate].
      destruct (decide (length pos = 3%nat)) as [Hlen|]; [| discriminate].
      intros H. injection H as <-.
      destruct pos as [|x [|y [|z [|w pos]]]]; try discriminate Hlen.
      destruct constrained; normal_text.
    + destruct (decide (length pos = 3%nat)) as [Hlen|]; [| discriminate].
      intros H. injection H as <-.
      destruct pos as [|x [|y [|z [|w pos]]]]; try discriminate Hlen.
      normal_text.
  - destruct constraints as [constraints|].
    + destruct (constraints !! n) as [constrained|]; [| discriminate].
      destruct (decide (length pos = 3%nat)) as [Hlen|]; [| discriminate].
      intros H. injection H as <-.
      destruct pos as [|x [|y [|z [|w pos]]]]; try discriminate Hlen.
      destruct constrained; normal_text.
    + destruct (decide (length pos = 3%nat)) as [Hlen|]; [| discriminate].
      intros H. injection H as <-.
      destruct pos as [|x [|y [|z [|w pos]]]]; try discriminate Hlen.
      normal_text.
Qed.

Lemma for_atoms_eq (atoms : PhonopyAtoms) (constraints : option (list bool))
    (range : list nat) :
  forall ds lines,
    all_data atoms constraints range = Some ds ->
    for_atoms atoms constraints range lines =
    Ok (lines ++ concat (flat_map block_of ds)).
Proof.
  induction range as [|n range IH]; intros ds lines H; cbn [all_data] in H.
  - injection H as <-. cbn [for_atoms flat_map concat].
    rewrite app_nil_r. reflexivity.
  - destruct (atom_data atoms constraints n) as [d|] eqn:Hd; [| discriminate H].
    destruct (all_data atoms constraints range) as [ds'|]; [| discriminate H].
    injection H as <-. cbn [for_atoms].
    rewrite (write_atom_eq atoms constraints n d lines Hd). cbn [obind].
    rewrite (IH ds' _ eq_refl). cbn [flat_map].
    rewrite concat_app, <- app_assoc. reflexivity.
Qed.

Lemma write_aims_eq (atoms : PhonopyAtoms) (constraints : option (list bool))
    (ds : list (list double * str * option double * bool)) :
  Forall (fun vec => length vec = 3%nat) (get_cell atoms) ->
  all_data atoms constraints (seq 0 (get_number_of_atoms atoms)) = Some ds ->
  write_aims atoms constraints = Ok (concat (file_lines (get_cell atoms) ds)).
Proof.
  intros Hcell Hds. unfold write_aims. cbv zeta.
  rewrite (for_vecs_eq _ Hcell). cbn [obind].
  rewrite (for_atoms_eq atoms constraints _ ds _ Hds).
  unfold file_lines. rewrite !concat_app.
  unfold header_lines. cbn [concat].
  change (lit "") with (@nil N).
  rewrite <- ?app_assoc, ?app_nil_r, ?app_nil_l. reflexivity.
Qed.

Lemma floats_text_no_newline (vec : list double) :
  Forall (fun x => no_newline (format_16_16f x) = true) vec ->
  no_newline (floats_text vec) = true.
Proof.
  induction 1 as [|x vec Hx _ IH]; [reflexivity |].
  cbn [floats_text fold_right]. fold (floats_text vec).
  unfold no_newline in *. rewrite !forallb_app, Hx, IH. reflexivity.
Qed.

Lemma lattice_vector_line_is_line (vec : list double) :
  Forall (fun x => no_newline (format_16_16f x) = true) vec ->
  is_line (lattice_vector_line vec).
Proof.
  intros H. exists (lit "lattice_vector " ++ floats_text vec). split.
  - unfold lattice_vector_line. rewrite <- app_assoc. reflexivity.
  - pose proof (floats_text_no_newline vec H) as Hf.
    unfold no_newline in *. rewrite forallb_app, Hf. reflexivity.
Qed.

Lemma block_of_is_line (d : list double * str * option double * bool) :
  clean d -> Forall is_line (block_of d).
Proof.
  destruct d as [[[pos sym] moment] constrained].
  intros (Hpos & Hsym & Hmoment). unfold block_of, atom_block.
  constructor.
  - exists (lit "atom " ++ floats_text pos ++ sym ++ lit " "). split.
    + unfold atom_line. rewrite <- !app_assoc. reflexivity.
    + pose proof (floats_text_no_newline pos Hpos) as Hf.
      unfold no_newline in *. rewrite !forallb_app, Hf, Hsym. reflexivity.
  - apply Forall_app. split.
    + destruct moment as [m|]; constructor; [| constructor].
      exists (lit "initial_moment " ++ format_16_6f m). split.
      * unfold initial_moment_line. rewrite <- app_assoc. reflexivity.
      * unfold no_newline in *. rewrite forallb_app, Hmoment. reflexivity.
    + destruct constrained; constructor; [| constructor].
      exists (lit "constrain_relaxation .true."). split; reflexivity.
Qed.

Lemma file_lines_are_lines (rows : list (list double))
    (ds : list (list double * str * option double * bool)) :
  Forall (Forall (fun x => no_newline (format_16_16f x) = true)) rows ->
  Forall clean ds ->
  Forall is_line (file_lines rows ds).
Proof.
  intros Hrows Hds. unfold file_lines.
  apply Forall_app. split.
  - unfold header_lines. repeat constructor.
    + exists (lit "# geometry.in for FHI-aims "). split; reflexivity.
    + exists (lit "# | generated by phonopy.FHIaims.write_aims() ").
      split; reflexivity.
  - apply Forall_app. split.
    + induction Hrows as [|vec rows Hv _ IH]; [constructor |].
      cbn [map]. constructor; [apply lattice_vector_line_is_line, Hv | exact IH].
    + induction Hds as [|d ds Hd _ IH]; [constructor |].
      cbn [flat_map]. apply Forall_app. split;
        [apply block_of_is_line, Hd | exact IH].
Qed.

(** X25: the file [write_aims] writes.  For a cell of rows of three
    numbers and atoms whose data the object holds (a position of three
    numbers, a symbol, a moment when there are moments, a flag when
    constraints are given), the text written is these lines one after the
    other: the two comment lines, one [lattice_vector] line per row, then
    for each atom in order its [atom] line, its [initial_moment] line when
    there are moments, and [constrain_relaxation .true.] when it is
    constrained.  When no formatted number and no symbol holds a line
    break, each of them is one line of the file: it ends with its only
    line feed. *)
Theorem X25_written_lines (atoms : PhonopyAtoms)
    (constraints : option (list bool))
    (ds : list (list double * str * option double * bool)) :
  Forall (fun vec => length vec = 3%nat) (get_cell atoms) ->
  all_data atoms constraints (seq 0 (get_number_of_atoms atoms)) = Some ds ->
  write_aims atoms constraints =
    Ok (concat (file_lines (get_cell atoms) ds)) /\
  (Forall (Forall (fun x => no_newline (format_16_16f x) = true))
     (get_cell atoms) ->
   Forall clean ds ->
   Forall is_line (file_lines (get_cell atoms) ds)).
Proof.
  intros Hcell Hds. split.
  - apply write_aims_eq; assumption.
  - apply file_lines_are_lines.
Qed.

End WriteLayout.

(** ** Reading back what [write_aims] wrote *)

Section RoundTrip.

Context `{F : Float} `{Py : !Interpreter} `{P : !Printf}.

Lemma tokens_exist (format : double -> str) (vec : list double) :
  Forall (survives format) vec ->
  exists ts, Forall2 (token format) vec ts.
Proof.
  induction 1 as [|x vec [t Ht] _ [ts IH]].
  - exists []. constructor.
  - exists (t :: ts). constructor; assumption.
Qed.

Lemma floats_text_fields (vec : list double) (ts : list str) (rest : str) :
  usual_white_space ->
  Forall2 (token format_16_16f) vec ts ->
  str_split (floats_text vec ++ rest) = ts ++ str_split rest.
Proof.
  intros Hws.
  induction 1 as [|x t vec ts (pad & E & Hp & Hw & _) _ IH].
  - reflexivity.
  - unfold floats_text. cbn [fold_right]. fold (floats_text vec).
    rewrite E, <- !app_assoc.
    change (lit " ") with [32%N]. cbn [app].
    rewrite (app_assoc pad t).
    rewrite str_split_field by (assumption || apply Hws).
    rewrite IH. reflexivity.
Qed.

Lemma lmap_tokens (format : double -> str) (vec : list double)
    (ts : list str) :
  Forall2 (token format) vec ts -> lmap py_float ts = Ok vec.
Proof.
  induction 1 as [|x t vec ts (pad & _ & _ & _ & Hf) _ IH].
  - reflexivity.
  - cbn [lmap]. unfold py_float at 1. rewrite Hf. cbn [obind].
    rewrite IH. reflexivity.
Qed.

Lemma slice_fields (k : str) (ts more : list str) :
  length ts = 3%nat -> slice 1 4 (k :: ts ++ more) = ts.
Proof.
  intros H. unfold slice. cbn [drop Nat.sub].
  apply take_app_length'. symmetry. exact H.
Qed.

Lemma getitem_fields (k : str) (ts : list str) (sym : str) :
  length ts = 3%nat -> py_getitem (k :: ts ++ [sym]) 4 = Ok sym.
Proof.
  intros H. destruct ts as [|a [|b [|c [|d ts]]]]; try discriminate H.
  reflexivity.
Qed.

Lemma setitem_last_snoc {A : Type} (l : list A) (old v : A) :
  setitem_last (l ++ [old]) v = Ok (l ++ [v]).
Proof.
  unfold setitem_last.
  destruct (l ++ [old]) as [|a l'] eqn:E.
  { destruct l; discriminate E. }
  rewrite <- E. f_equal.
  rewrite length_app. cbn [length].
  replace (Nat.pred (length l + 1)) with (length l + 0)%nat by lia.
  rewrite insert_app_r. reflexivity.
Qed.

(** The comment lines are passed over. *)
Lemma header_ignored (line : str) :
  usual_white_space -> In line header_lines -> is_ignored line = true.
Proof.
  intros Hws Hin.
  assert (Hsplit : exists rest,
            str_split line = lit "#" :: rest).
  { destruct Hin as [<- | [<- | []]].
    - exists (str_split (lit "geometry.in for FHI-aims " ++ LF)).
      change (lit "# geometry.in for FHI-aims " ++ LF)
        with (lit "#" ++ 32%N :: (lit "geometry.in for FHI-aims " ++ LF)).
      apply str_split_keyword; [| apply Hws].
      apply printable_word; [exact Hws | discriminate | reflexivity].
    - exists (str_split
                (lit "| generated by phonopy.FHIaims.write_aims() " ++ LF)).
      change (lit "# | generated by phonopy.FHIaims.write_aims() " ++ LF)
        with (lit "#" ++ 32%N ::
              (lit "| generated by phonopy.FHIaims.write_aims() " ++ LF)).
      apply str_split_keyword; [| apply Hws].
      apply printable_word; [exact Hws | discriminate | reflexivity]. }
  destruct Hsplit as [rest Hsplit]. unfold is_ignored. rewrite Hsplit.
  reflexivity.
Qed.

(** What each written line does to the local variables of [read_aims]. *)
Lemma read_lattice_vector_line (vec : list double) (s : locals) :
  usual_white_space ->
  length vec = 3%nat -> Forall (survives format_16_16f) vec ->
  read_line (lattice_vector_line vec) s =
  (Ok tt, bind_cell (cell s ++ [vec]) s).
Proof.
  intros Hws Hlen Hvec. destruct (tokens_exist _ _ Hvec) as [ts Hts].
  assert (Hfields : str_split (lattice_vector_line vec) =
                    lit "lattice_vector" :: ts ++ []).
  { unfold lattice_vector_line.
    change (lit "lattice_vector " ++ floats_text vec ++ LF)
      with (lit "lattice_vector" ++ 32%N :: (floats_text vec ++ LF)).
    rewrite str_split_keyword;
      [| apply printable_word; [exact Hws | discriminate | reflexivity]
       | apply Hws].
    rewrite (floats_text_fields vec ts LF Hws Hts), (str_split_LF Hws).
    reflexivity. }
  unfold read_line. rewrite Hfields. cbv zeta.
  eval_literals. cbv iota.
  rewrite slice_fields
    by (rewrite <- (Forall2_length _ _ _ Hts); exact Hlen).
  rewrite (lmap_tokens _ _ _ Hts).
  reflexivity.
Qed.

Lemma read_atom_line (pos : list double) (sym : str) (s : locals) :
  usual_white_space ->
  length pos = 3%nat -> Forall (survives format_16_16f) pos -> word sym ->
  read_line (atom_line pos sym) s =
  (Ok tt,
   mkLocals (cell s) (is_frac s ++ [false]) (positions s ++ [pos])
     (symbols s ++ [sym]) (magmoms s ++ [None]) (constraints s ++ [false])
     false (Some false) (stdout s)).
Proof.
  intros Hws Hlen Hpos Hsym. destruct (tokens_exist _ _ Hpos) as [ts Hts].
  assert (Hfields : str_split (atom_line pos sym) =
                    lit "atom" :: ts ++ [sym]).
  { unfold atom_line.
    change (lit "atom " ++ floats_text pos ++ sym ++ lit " " ++ LF)
      with (lit "atom" ++ 32%N :: (floats_text pos ++ sym ++ 32%N :: LF)).
    rewrite str_split_keyword;
      [| apply printable_word; [exact Hws | discriminate | reflexivity]
       | apply Hws].
    rewrite (floats_text_fields pos ts _ Hws Hts).
    rewrite str_split_keyword by (assumption || apply Hws).
    rewrite (str_split_LF Hws). reflexivity. }
  assert (Hl : length ts = 3%nat)
    by (rewrite <- (Forall2_length _ _ _ Hts); exact Hlen).
  unfold read_line. rewrite Hfields. cbv zeta.
  eval_literals. cbv iota.
  rewrite slice_fields by exact Hl.
  rewrite (lmap_tokens _ _ _ Hts).
  rewrite (getitem_fields _ _ _ Hl).
  reflexivity.
Qed.

Lemma read_initial_moment_line (m : double) (s : locals)
    (before : list (option double)) (old : option double) :
  usual_white_space ->
  survives format_16_6f m -> magmoms s = before ++ [old] ->
  read_line (initial_moment_line m) s =
  (Ok tt, bind_magmoms (before ++ [Some m]) s).
Proof.
  intros Hws (t & pad & E & Hp & Hw & Hf) Hm.
  assert (Hfields : str_split (initial_moment_line m) =
                    [lit "initial_moment"; t]).
  { unfold initial_moment_line. rewrite E.
    change (lit "initial_moment " ++ (pad ++ t) ++ LF)
      with (lit "initial_moment" ++ 32%N :: ((pad ++ t) ++ 10%N :: [])).
    rewrite str_split_keyword;
      [| apply printable_word; [exact Hws | discriminate | reflexivity]
       | apply Hws].
    rewrite str_split_field by (assumption || apply Hws).
    reflexivity. }
  unfold read_line. rewrite Hfields. cbv zeta.
  eval_literals. cbv iota.
  unfold bind, lift, gets, modify, py_getitem, py_float.
  cbn [lookup list_lookup].
  rewrite Hf, Hm, setitem_last_snoc. reflexivity.
Qed.

Lemma read_constrain_relaxation_line (s : locals) (before : list bool)
    (old : bool) :
  usual_white_space ->
  constrain_warning s = false -> constraints s = before ++ [old] ->
  read_line constrain_relaxation_line s =
  (Ok tt,
   bind_constrain_warning true (bind_constraints (before ++ [true]) s)).
Proof.
  intros Hws Hw Hc.
  assert (Hfields : str_split constrain_relaxation_line =
                    [lit "constrain_relaxation"; lit ".true."]).
  { unfold constrain_relaxation_line.
    change (lit "constrain_relaxation .true." ++ LF)
      with (lit "constrain_relaxation" ++ 32%N :: (lit ".true." ++ 10%N :: [])).
    rewrite str_split_keyword;
      [| apply printable_word; [exact Hws | discriminate | reflexivity]
       | apply Hws].
    rewrite str_split_keyword;
      [| apply printable_word; [exact Hws | discriminate | reflexivity]
       | apply Hws].
    reflexivity. }
  unfold read_line. rewrite Hfields. cbv zeta.
  eval_literals. cbv iota.
  unfold bind, lift, gets, modify, py_getitem.
  cbn [lookup list_lookup].
  rewrite Hw. eval_literals. cbv beta iota.
  rewrite Hc, setitem_last_snoc. reflexivity.
Qed.

(** The lines of one atom. *)
Lemma read_atom_block (pos : list double) (sym : str)
    (moment : option double) (constrained : bool) (rest : list str)
    (s : locals) :
  usual_white_space ->
  length pos = 3%nat -> Forall (survives format_16_16f) pos -> word sym ->
  match moment with
  | Some m => survives format_16_6f m
  | None => True
  end ->
  for_lines (atom_block pos sym moment constrained ++ rest) s =
  for_lines rest
    (mkLocals (cell s) (is_frac s ++ [false]) (positions s ++ [pos])
       (symbols s ++ [sym]) (magmoms s ++ [moment])
       (constraints s ++ [constrained]) constrained (Some false) (stdout s)).
Proof.
  intros Hws Hlen Hpos Hsym Hmoment.
  unfold atom_block. cbn [app for_lines].
  unfold bind at 1. rewrite (read_atom_line pos sym s Hws Hlen Hpos Hsym).
  destruct moment as [m|]; cbn [app for_lines].
  - unfold bind at 1.
    erewrite read_initial_moment_line;
      [| exact Hws | exact Hmoment | reflexivity].
    destruct constrained; cbn [app for_lines].
    + unfold bind at 1.
      erewrite read_constrain_relaxation_line;
        [| exact Hws | reflexivity ..].
      reflexivity.
    + reflexivity.
  - destruct constrained; cbn [app for_lines].
    + unfold bind at 1.
      erewrite read_constrain_relaxation_line;
        [| exact Hws | reflexivity ..].
      reflexivity.
    + reflexivity.
Qed.

Lemma read_blocks (ds : list (list double * str * option double * bool))
    (rest : list str) :
  usual_white_space ->
  Forall readable ds ->
  forall s,
    for_lines (flat_map block_of ds ++ rest) s =
    for_lines rest (after_atoms ds s).
Proof.
  intros Hws. induction 1 as [|[[[pos sym] moment] constrained] ds
                    (Hlen & Hpos & Hsym & Hmoment) _ IH]; intros s.
  - reflexivity.
  - cbn [flat_map block_of]. rewrite <- app_assoc.
    rewrite read_atom_block by assumption.
    rewrite IH. reflexivity.
Qed.

Lemma read_lattice_vectors (rows : list (list double)) (rest : list str) :
  usual_white_space ->
  Forall (fun vec => length vec = 3%nat /\
                     Forall (survives format_16_16f) vec) rows ->
  forall s,
    for_lines (map lattice_vector_line rows ++ rest) s =
    for_lines rest (bind_cell (cell s ++ rows) s).
Proof.
  intros Hws. induction 1 as [|vec rows [Hlen Hvec] _ IH]; intros s.
  - cbn [map app]. rewrite app_nil_r. destruct s; reflexivity.
  - cbn [map app for_lines]. unfold bind at 1.
    rewrite (read_lattice_vector_line vec s Hws Hlen Hvec).
    rewrite IH. cbn [cell bind_cell]. rewrite <- app_assoc. reflexivity.
Qed.

Lemma after_atoms_fields
    (ds : list (list double * str * option double * bool)) :
  forall s,
    cell (after_atoms ds s) = cell s /\
    is_frac (after_atoms ds s) = is_frac s ++ map (fun _ => false) ds /\
    positions (after_atoms ds s) =
      positions s ++ map (fun d => fst (fst (fst d))) ds /\
    symbols (after_atoms ds s) =
      symbols s ++ map (fun d => snd (fst (fst d))) ds /\
    magmoms (after_atoms ds s) = magmoms s ++ map (fun d => snd (fst d)) ds /\
    constraints (after_atoms ds s) = constraints s ++ map snd ds.
Proof.
  induction ds as [|[[[pos sym] moment] constrained] ds IH]; intros s.
  - cbn [after_atoms fold_left map]. rewrite !app_nil_r. repeat split.
  - change (after_atoms ((pos, sym, moment, constrained) :: ds) s)
      with (after_atoms ds (after_atom s (pos, sym, moment, constrained))).
    destruct (IH (after_atom s (pos, sym, moment, constrained)))
      as (Hc & Hf & Hp & Hs & Hm & Hk).
    rewrite Hc, Hf, Hp, Hs, Hm, Hk.
    cbn [after_atom cell is_frac positions symbols magmoms constraints map
         fst snd].
    rewrite <- !app_assoc. repeat split.
Qed.

(** The loop of [read_aims] over a written file. *)
Lemma read_file_lines (rows : list (list double))
    (ds : list (list double * str * option double * bool)) :
  Forall (fun vec => length vec = 3%nat /\
                     Forall (survives format_16_16f) vec) rows ->
  Forall readable ds ->
  usual_white_space ->
  for_lines (file_lines rows ds) start =
  (Ok tt, after_atoms ds (bind_cell rows start)).
Proof.
  intros Hrows Hds Hws. unfold file_lines.
  pose proof (header_ignored) as Hheader.
  unfold header_lines in *.
  cbn [app for_lines]. unfold bind at 1.
  rewrite read_line_ignored by (apply Hheader; [exact Hws | left; reflexivity]).
  unfold bind at 1.
  rewrite read_line_ignored
    by (apply Hheader; [exact Hws | right; left; reflexivity]).
  rewrite (read_lattice_vectors rows _ Hws Hrows).
  rewrite <- (app_nil_r (flat_map block_of ds)).
  rewrite (read_blocks ds [] Hws Hds).
  reflexivity.
Qed.

Lemma convert_nothing (flags : list bool) :
  Forall (fun b => b = false) flags ->
  forall j s, for_enumerate_from j flags convert s = (Ok tt, s).
Proof.
  induction 1 as [|b flags -> _ IH]; intros j s.
  - reflexivity.
  - cbn [for_enumerate_from]. unfold bind, convert, ret. apply IH.
Qed.

Lemma all_floats_of_floats (ms : list double) :
  all_floats (map Some ms) = Some ms.
Proof.
  induction ms as [|m ms IH]; [reflexivity |].
  cbn [map all_floats]. rewrite IH. reflexivity.
Qed.

Lemma select_Some (ms : list double) (mask : list bool) :
  select (map Some ms) mask = map Some (select ms mask).
Proof.
  revert mask. induction ms as [|m ms IH]; intros [|b mask];
    try reflexivity.
  cbn [map select]. destruct b; cbn [map]; rewrite IH; reflexivity.
Qed.

Lemma all_data_each (atoms : PhonopyAtoms) (flags : option (list bool))
    (range : list nat) :
  forall ds,
    all_data atoms flags range = Some ds ->
    Forall2 (fun n d => atom_data atoms flags n = Some d) range ds.
Proof.
  induction range as [|n range IH]; intros ds H; cbn [all_data] in H.
  - injection H as <-. constructor.
  - destruct (atom_data atoms flags n) as [d|] eqn:Hd; [| discriminate H].
    destruct (all_data atoms flags range) as [ds'|]; [| discriminate H].
    injection H as <-. constructor; [exact Hd | apply IH; reflexivity].
Qed.

Lemma all_data_total (atoms : PhonopyAtoms) (flags : option (list bool))
    (range : list nat) :
  Forall (fun n => is_Some (atom_data atoms flags n)) range ->
  exists ds, all_data atoms flags range = Some ds.
Proof.
  induction 1 as [|n range [d Hd] _ [ds IH]].
  - exists []. reflexivity.
  - exists (d :: ds). cbn [all_data]. rewrite Hd, IH. reflexivity.
Qed.

Lemma map_of_data {D A : Type} (R : nat -> D -> Prop) (f : D -> A)
    (l : list A) (N : nat) (ds : list D) :
  Forall2 R (seq 0 N) ds -> length l = N ->
  (forall i d, (i < N)%nat -> R i d -> l !! i = Some (f d)) ->
  map f ds = l.
Proof.
  intros HR Hlen Hl.
  pose proof (Forall2_length _ _ _ HR) as Hn. rewrite length_seq in Hn.
  apply list_eq. intros i. rewrite list_lookup_fmap.
  destruct (decide (i < N)%nat) as [Hi|Hi].
  - destruct (Forall2_lookup_l _ _ _ i i HR) as (d & Hd & Hr).
    { apply lookup_seq. split; [reflexivity | exact Hi]. }
    rewrite Hd. cbn. symmetry. apply Hl; assumption.
  - rewrite (proj2 (lookup_ge_None ds i)) by lia.
    rewrite (proj2 (lookup_ge_None l i)) by lia. reflexivity.
Qed.

Lemma data_property {D : Type} (R : nat -> D -> Prop) (Q : D -> Prop)
    (N : nat) (ds : list D) :
  Forall2 R (seq 0 N) ds ->
  (forall i d, (i < N)%nat -> R i d -> Q d) ->
  Forall Q ds.
Proof.
  intros HR HQ. apply Forall_lookup. intros i d Hd.
  destruct (Forall2_lookup_r _ _ _ i d HR Hd) as (n & Hn & Hr).
  apply lookup_seq in Hn. destruct Hn as [-> Hi].
  apply (HQ i d Hi Hr).
Qed.

Lemma atom_data_Some (atoms : PhonopyAtoms) (flags : option (list bool))
    (n : nat) (pos : list double) (sym : str) (moment : option double)
    (constrained : bool) :
  atom_data atoms flags n = Some (pos, sym, moment, constrained) ->
  get_positions atoms !! n = Some pos /\
  get_chemical_symbols atoms !! n = Some sym /\
  match get_magnetic_moments atoms with
  | Some ms => exists m, ms !! n = Some m /\ moment = Some m
  | None => moment = None
  end /\
  match flags with
  | Some cs => cs !! n = Some constrained
  | None => constrained = false
  end /\
  length pos = 3%nat.
Proof.
  unfold atom_data.
  destruct (get_positions atoms !! n) as [pos'|]; [| discriminate].
  destruct (get_chemical_symbols atoms !! n) as [sym'|]; [| discriminate].
  destruct (get_magnetic_moments atoms) as [ms|].
  - destruct (ms !! n) as [m|]; cbn [option_map]; [| discriminate].
    destruct flags as [cs|].
    + destruct (cs !! n) as [c|]; [| discriminate].
      destruct (decide (length pos' = 3%nat)); [| discriminate].
      intros H. injection H as -> -> <- ->. eauto 10.
    + destruct (decide (length pos' = 3%nat)); [| discriminate].
      intros H. injection H as -> -> <- <-. eauto 10.
  - destruct flags as [cs|].
    + destruct (cs !! n) as [c|]; [| discriminate].
      destruct (decide (length pos' = 3%nat)); [| discriminate].
      intros H. injection H as -> -> <- ->. eauto 10.
    + destruct (decide (length pos' = 3%nat)); [| discriminate].
      intros H. injection H as -> -> <- <-. eauto 10.
Qed.

Lemma survives_no_newline (format : double -> str) (x : double) :
  usual_white_space -> survives format x -> no_newline (format x) = true.
Proof.
  intros Hws (t & pad & E & Hp & [_ Hw] & _). rewrite E.
  unfold no_newline. rewrite forallb_app. apply andb_true_intro. split.
  - apply (blanks_no_newline pad Hp).
  - apply (no_space_no_newline t Hws Hw).
Qed.

Lemma readable_clean (d : list double * str * option double * bool) :
  usual_white_space -> readable d -> clean d.
Proof.
  destruct d as [[[pos sym] moment] constrained].
  intros Hws (_ & Hpos & [_ Hsym] & Hmoment). repeat split.
  - eapply Forall_impl; [exact Hpos |]. intros x.
    apply survives_no_newline, Hws.
  - apply (no_space_no_newline sym Hws Hsym).
  - destruct moment as [m|];
      [apply survives_no_newline; assumption | exact I].
Qed.

(** [read_aims] after its loop, when no atom is fractional and there is an
    atom. *)
Lemma read_aims_after_loop (lines : list str) (s1 : locals) :
  for_lines lines start = (Ok tt, s1) ->
  Forall (fun b => b = false) (is_frac s1) ->
  constraints s1 <> [] ->
  fst (read_aims lines) =
  Ok (let keep := map negb (constraints s1) in
      match all_floats (magmoms s1) with
      | None =>
          (mkAtoms (cell s1) (select (symbols s1) keep)
             (select (positions s1) keep) None,
           mkAtoms (cell s1) (symbols s1) (positions s1) None,
           constraints s1)
      | Some _ =>
          (mkAtoms (cell s1) (select (symbols s1) keep)
             (select (positions s1) keep)
             (all_floats (select (magmoms s1) keep)),
           mkAtoms (cell s1) (symbols s1) (positions s1)
             (all_floats (magmoms s1)),
           constraints s1)
      end).
Proof.
  intros Hloop Hfrac Hne. unfold read_aims, read_aims_body.
  change (mkLocals [] [] [] [] [] [] true None []) with start.
  rewrite (bind_eq _ _ _ _ _ Hloop). rewrite bind_gets.
  unfold for_enumerate.
  rewrite (bind_eq _ _ _ _ _ (convert_nothing _ Hfrac 0%nat s1)).
  rewrite !bind_gets.
  destruct (decide (constraints s1 = [])) as [E|_]; [contradiction |].
  rewrite bind_ret. cbv zeta.
  unfold when. destruct (existsb (fun c => c) (constraints s1)).
  - rewrite bind_modify, bind_gets.
    destruct (all_floats (magmoms s1)); reflexivity.
  - rewrite bind_ret, bind_gets.
    destruct (all_floats (magmoms s1)); reflexivity.
Qed.

Lemma atom_data_there (atoms : PhonopyAtoms) (flags : option (list bool))
    (n : nat) :
  (n < length (get_positions atoms))%nat ->
  (n < length (get_chemical_symbols atoms))%nat ->
  match get_magnetic_moments atoms with
  | Some ms => (n < length ms)%nat
  | None => True
  end ->
  match flags with
  | Some cs => (n < length cs)%nat
  | None => True
  end ->
  Forall (fun pos => length pos = 3%nat) (get_positions atoms) ->
  is_Some (atom_data atoms flags n).
Proof.
  intros Hp Hs Hm Hc H3. unfold atom_data.
  destruct (lookup_lt_is_Some_2 _ _ Hp) as [pos Epos].
  destruct (lookup_lt_is_Some_2 _ _ Hs) as [sym Esym].
  rewrite Epos, Esym.
  pose proof (Forall_lookup_1 _ _ _ _ H3 Epos) as Hlen. cbv beta in Hlen.
  destruct (get_magnetic_moments atoms) as [ms|];
    [destruct (lookup_lt_is_Some_2 _ _ Hm) as [m Em]; rewrite Em;
     cbn [option_map] |];
    (destruct flags as [cs|];
     [destruct (lookup_lt_is_Some_2 _ _ Hc) as [c Ec]; rewrite Ec |]);
    (destruct (decide (length pos = 3%nat)); [eauto | contradiction]).
Qed.

(** X26: a geometry written by [write_aims] is read back by [read_aims],
    under an interpreter with the usual white space.  For an object with
    at least one atom, as many positions and symbols (and moments and
    flags, when there are any) as atoms, rows and positions of three
    numbers that survive ["%16.16f"], moments that survive ["%16.6f"] and
    symbols that are words, [write_aims] writes lines, each ending with its
    only line feed, and [read_aims] on these lines returns the object's
    cell, symbols, positions and moments as [all_atoms], the flags given
    (all false when none were) as [constraints], and as [atoms] the
    unconstrained atoms among them. *)
Theorem X26_written_file_read_back (atoms : PhonopyAtoms)
    (given : option (list bool)) :
  let N := get_number_of_atoms atoms in
  let flags := default (replicate N false) given in
  let keep := map negb flags in
  usual_white_space ->
  (0 < N)%nat ->
  length (get_positions atoms) = N ->
  length (get_chemical_symbols atoms) = N ->
  length flags = N ->
  match get_magnetic_moments atoms with
  | Some ms => length ms = N /\ Forall (survives format_16_6f) ms
  | None => True
  end ->
  Forall triple (get_cell atoms) ->
  Forall triple (get_positions atoms) ->
  Forall word (get_chemical_symbols atoms) ->
  exists lines,
    write_aims atoms given = Ok (concat lines) /\
    Forall is_line lines /\
    fst (read_aims lines) =
    Ok (mkAtoms (get_cell atoms) (select (get_chemical_symbols atoms) keep)
          (select (get_positions atoms) keep)
          (option_map (fun ms => select ms keep) (get_magnetic_moments atoms)),
        mkAtoms (get_cell atoms) (get_chemical_symbols atoms)
          (get_positions atoms) (get_magnetic_moments atoms),
        flags).
Proof.
  intros N flags keep Hws HN Hpos Hsym Hflags Hmag Hcell Htriple Hword.
  assert (H3 : Forall (fun pos => length pos = 3%nat) (get_positions atoms)).
  { eapply Forall_impl; [exact Htriple |]. intros pos [H _]. exact H. }
  destruct (all_data_total atoms given (seq 0 N)) as [ds Hds].
  { apply Forall_forall. intros n Hn. apply elem_of_seq in Hn.
    apply atom_data_there; try lia; try exact H3.
    - destruct (get_magnetic_moments atoms); [destruct Hmag; lia | exact I].
    - subst flags. destruct given as [cs|]; [cbn in Hflags; lia | exact I]. }
  pose proof (all_data_each _ _ _ _ Hds) as HR.
  assert (Hreadable : Forall readable ds).
  { apply (data_property _ _ N ds HR).
    intros i [[[pos sym] moment] constrained] Hi Hd.
    apply atom_data_Some in Hd.
    destruct Hd as (Ep & Es & Em & _ & Hlen).
    destruct (Forall_lookup_1 _ _ _ _ Htriple Ep) as [_ Hsurv].
    pose proof (Forall_lookup_1 _ _ _ _ Hword Es) as Hw.
    repeat split; try assumption; try apply Hw.
    destruct (get_magnetic_moments atoms) as [ms|].
    - destruct Em as (m & Em & ->). destruct Hmag as [_ Hmag].
      apply (Forall_lookup_1 _ _ _ _ Hmag Em).
    - subst moment. exact I. }
  exists (file_lines (get_cell atoms) ds). split.
  { apply write_aims_eq; [| exact Hds].
    eapply Forall_impl; [exact Hcell |]. intros vec [H _]. exact H. }
  split.
  { apply file_lines_are_lines.
    - eapply Forall_impl; [exact Hcell |]. intros vec [_ H].
      eapply Forall_impl; [exact H |]. intros x.
      apply survives_no_newline, Hws.
    - eapply Forall_impl; [exact Hreadable |].
      intros d. apply readable_clean, Hws. }
  pose proof (read_file_lines (get_cell atoms) ds Hcell Hreadable Hws)
    as Hloop.
  destruct (after_atoms_fields ds (bind_cell (get_cell atoms) start))
    as (Ec & Ef & Ep & Es & Em & Ek).
  cbn [bind_cell start cell is_frac positions symbols magmoms constraints app]
    in Ec, Ef, Ep, Es, Em, Ek.
  assert (Kp : map (fun d => fst (fst (fst d))) ds = get_positions atoms).
  { apply (map_of_data _ _ _ N ds HR Hpos).
    intros i [[[pos sym] moment] constrained] _ Hd.
    apply atom_data_Some in Hd. apply Hd. }
  assert (Ks : map (fun d => snd (fst (fst d))) ds
               = get_chemical_symbols atoms).
  { apply (map_of_data _ _ _ N ds HR Hsym).
    intros i [[[pos sym] moment] constrained] _ Hd.
    apply atom_data_Some in Hd. apply Hd. }
  assert (Kk : map snd ds = flags).
  { apply (map_of_data _ _ _ N ds HR Hflags).
    intros i [[[pos sym] moment] constrained] Hi Hd.
    apply atom_data_Some in Hd. destruct Hd as (_ & _ & _ & Hc & _).
    subst flags. destruct given as [cs|]; cbn [default snd].
    - exact Hc.
    - subst constrained. apply lookup_replicate_2. exact Hi. }
  rewrite Kp in Ep. rewrite Ks in Es. rewrite Kk in Ek.
  rewrite (read_aims_after_loop _ _ Hloop).
  2:{ rewrite Ef. apply Forall_fmap, Forall_true. reflexivity. }
  2:{ rewrite Ek. intros E. rewrite E in Hflags. cbn in Hflags. lia. }
  cbv zeta. rewrite Ec, Ep, Es, Ek, Em. fold keep.
  destruct (get_magnetic_moments atoms) as [ms|] eqn:Emag.
  - destruct Hmag as [Hlen _].
    assert (Km : map (fun d => snd (fst d)) ds = map Some ms).
    { apply (map_of_data _ _ _ N ds HR).
      - rewrite length_map. exact Hlen.
      - intros i [[[pos sym] moment] constrained] _ Hd.
        apply atom_data_Some in Hd. rewrite Emag in Hd.
        destruct Hd as (_ & _ & (m & Hm & ->) & _).
        rewrite list_lookup_fmap, Hm. reflexivity. }
    rewrite Km, all_floats_of_floats, select_Some, all_floats_of_floats.
    reflexivity.
  - assert (Km : all_floats (map (fun d => snd (fst d)) ds) = None).
    { pose proof (Forall2_length _ _ _ HR) as Hn. rewrite length_seq in Hn.
      destruct ds as [|[[[pos sym] moment] constrained] ds'];
        [cbn in Hn; lia |].
      destruct (Forall2_lookup_r _ _ _ 0%nat _ HR eq_refl) as (n & _ & Hd).
      apply atom_data_Some in Hd. rewrite Emag in Hd.
      destruct Hd as (_ & _ & -> & _). reflexivity. }
    rewrite Km. reflexivity.
Qed.

End RoundTrip.

(** ** What [write_aims] refuses *)

Section WriteErrors.

Context `{F : Float} `{P : !Printf}.

Lemma three_floats_Ok (vec : list double) :
  length vec = 3%nat -> exists floats, three_floats vec = Ok floats.
Proof.
  destruct vec as [|x [|y [|z [|w vec]]]]; try discriminate.
  intros _. eexists. reflexivity.
Qed.

Lemma three_floats_raises (vec : list double) :
  length vec <> 3%nat -> three_floats vec = Raise TypeError.
Proof.
  destruct vec as [|x [|y [|z [|w vec]]]]; try reflexivity.
  intros H. contradiction H. reflexivity.
Qed.

Lemma for_vecs_raises (rows : list (list double)) :
  Exists (fun vec => length vec <> 3%nat) rows ->
  forall lines, for_vecs rows lines = Raise TypeError.
Proof.
  induction 1 as [vec rows Hvec | vec rows _ IH]; intros lines;
    cbn [for_vecs]; unfold write_vec.
  - rewrite (three_floats_raises vec Hvec). reflexivity.
  - destruct (decide (length vec = 3%nat)) as [Hlen|Hlen].
    + destruct (three_floats_Ok vec Hlen) as [floats ->]. cbn [obind].
      apply IH.
    + rewrite (three_floats_raises vec Hlen). reflexivity.
Qed.

Lemma for_atoms_app (atoms : PhonopyAtoms) (flags : option (list bool))
    (r1 r2 : list nat) :
  forall lines,
    for_atoms atoms flags (r1 ++ r2) lines =
    obind (for_atoms atoms flags r1 lines) (for_atoms atoms flags r2).
Proof.
  induction r1 as [|n r1 IH]; intros lines; cbn [app for_atoms].
  - reflexivity.
  - destruct (write_atom atoms flags n lines) as [lines'|e]; cbn [obind].
    + apply IH.
    + reflexivity.
Qed.

(** X27: a cell with a row that does not hold three numbers.
    [write_aims] raises [TypeError], whatever the atoms are. *)
Theorem X27_cell_row_not_of_three (atoms : PhonopyAtoms)
    (given : option (list bool)) :
  Exists (fun vec => length vec <> 3%nat) (get_cell atoms) ->
  write_aims atoms given = Raise TypeError.
Proof.
  intros H. unfold write_aims. cbv zeta.
  rewrite (for_vecs_raises _ H). reflexivity.
Qed.

(** X28: fewer flags than atoms.  With a cell and positions of three
    numbers each, and a position, a symbol and (when there are moments) a
    moment for every atom, a list of constraints shorter than the number of
    atoms makes [write_aims] raise [IndexError]. *)
Theorem X28_fewer_flags_than_atoms (atoms : PhonopyAtoms)
    (flags : list bool) :
  let N := get_number_of_atoms atoms in
  Forall (fun vec => length vec = 3%nat) (get_cell atoms) ->
  Forall (fun pos => length pos = 3%nat) (get_positions atoms) ->
  length (get_positions atoms) = N ->
  length (get_chemical_symbols atoms) = N ->
  match get_magnetic_moments atoms with
  | Some ms => length ms = N
  | None => True
  end ->
  (length flags < N)%nat ->
  write_aims atoms (Some flags) = Raise IndexError.
Proof.
  intros N Hcell H3 Hpos Hsym Hmag Hshort.
  unfold write_aims. cbv zeta. fold N.
  rewrite (for_vecs_eq _ Hcell). cbn [obind].
  replace N with (length flags + S (N - S (length flags)))%nat by lia.
  rewrite seq_app. cbn [seq]. rewrite for_atoms_app.
  destruct (all_data_total atoms (Some flags) (seq 0 (length flags)))
    as [ds Hds].
  { apply Forall_forall. intros n Hn. apply elem_of_seq in Hn.
    apply atom_data_there; try lia; try exact H3.
    destruct (get_magnetic_moments atoms); [lia | exact I]. }
  rewrite (for_atoms_eq atoms (Some flags) _ ds _ Hds). cbn [obind for_atoms].
  unfold write_atom at 1, py_getitem.
  destruct (lookup_lt_is_Some_2 (get_positions atoms) (length flags))
    as [pos Epos]; [lia |].
  destruct (lookup_lt_is_Some_2 (get_chemical_symbols atoms) (length flags))
    as [sym Esym]; [lia |].
  cbn [Nat.add]. rewrite Epos, Esym. cbn [obind].
  destruct (three_floats_Ok pos (Forall_lookup_1 _ _ _ _ H3 Epos))
    as [floats ->].
  cbn [obind]. cbv zeta.
  rewrite (proj2 (lookup_ge_None flags (length flags))) by lia.
  destruct (get_magnetic_moments atoms) as [ms|].
  - destruct (lookup_lt_is_Some_2 ms (length flags)) as [m Em]; [lia |].
    rewrite Em. reflexivity.
  - reflexivity.
Qed.

End WriteErrors.

Lemma X25_written_lines_witness :
  (Forall (fun vec => length vec = 3%nat) (get_cell written) /\
   all_data written (Some [false; true]) (seq 0 2) =
   Some [([0; 0; 0], lit "H", Some 1, false);
         ([1; 2; 3], lit "O", Some (-2), true)]) /\
  write_aims written (Some [false; true]) =
  Ok (concat
        (map (fun line => lit line ++ LF)
           ["# geometry.in for FHI-aims ";
            "# | generated by phonopy.FHIaims.write_aims() ";
            "lattice_vector 1 0 0 "; "lattice_vector 0 2 0 ";
            "lattice_vector 0 0 3 "; "atom 0 0 0 H "; "initial_moment   1";
            "atom 1 2 3 O "; "initial_moment   -2";
            "constrain_relaxation .true."])).
Proof.
  assert (Hcell : Forall (fun vec => length vec = 3%nat) (get_cell written))
    by (repeat constructor).
  assert (Hds : all_data written (Some [false; true]) (seq 0 2) =
                Some [([0; 0; 0], lit "H", Some 1, false);
                      ([1; 2; 3], lit "O", Some (-2), true)])
    by reflexivity.
  split; [split; assumption |].
  rewrite (proj1 (X25_written_lines written (Some [false; true]) _
                    Hcell Hds)).
  reflexivity.
Defined.

Ltac survive_with t pad :=
  exists t, pad;
  split; [reflexivity |];
  split; [reflexivity |];
  split; [split; [discriminate | reflexivity] | reflexivity].

Lemma X26_written_file_read_back_witness :
  (usual_white_space (Py := python3) /\
   Forall (triple (Py := python3)) (get_cell written) /\
   Forall (triple (Py := python3)) (get_positions written) /\
   Forall (word (Py := python3)) (get_chemical_symbols written)) /\
  exists lines,
    write_aims written (Some [false; true]) = Ok (concat lines) /\
    Forall is_line lines /\
    fst (read_aims (Py := python3) lines) =
    Ok (mkAtoms [[1; 0; 0]; [0; 2; 0]; [0; 0; 3]] (map lit ["H"])
          [[0; 0; 0]] (Some [1]),
        mkAtoms [[1; 0; 0]; [0; 2; 0]; [0; 0; 3]] (map lit ["H"; "O"])
          [[0; 0; 0]; [1; 2; 3]] (Some [1; -2]),
        [false; true]).
Proof.
  assert (S0 : survives (Py := python3) format_16_16f 0)
    by survive_with (lit "0") (@nil N).
  assert (S1 : survives (Py := python3) format_16_16f 1)
    by survive_with (lit "1") (@nil N).
  assert (S2 : survives (Py := python3) format_16_16f 2)
    by survive_with (lit "2") (@nil N).
  assert (S3 : survives (Py := python3) format_16_16f 3)
    by survive_with (lit "3") (@nil N).
  assert (M1 : survives (Py := python3) format_16_6f 1)
    by survive_with (lit "1") (lit "  ").
  assert (M2 : survives (Py := python3) format_16_6f (-2))
    by survive_with (lit "-2") (lit "  ").
  assert (Hcell : Forall (triple (Py := python3)) (get_cell written))
    by (repeat (constructor;
                [split; [reflexivity | repeat constructor; assumption] |]);
        constructor).
  assert (Hpos : Forall (triple (Py := python3)) (get_positions written))
    by (repeat (constructor;
                [split; [reflexivity | repeat constructor; assumption] |]);
        constructor).
  assert (Hsym : Forall (word (Py := python3)) (get_chemical_symbols written))
    by (repeat (constructor; [split; [discriminate | reflexivity] |]);
        constructor).
  split; [repeat split; first [apply python3_usual_white_space | assumption] |].
  apply (X26_written_file_read_back (Py := python3) written
           (Some [false; true]) python3_usual_white_space);
    try assumption; try reflexivity.
  - cbn. lia.
  - split; [reflexivity |]. repeat constructor; assumption.
Defined.

Lemma X27_cell_row_not_of_three_witness :
  Exists (fun vec => length vec <> 3%nat) [[1; 0]; [0; 2; 0]] /\
  write_aims
    (mkPhonopyAtoms (F := integer_float) [[1; 0]; [0; 2; 0]] 1 [[0; 0; 0]]
       (map lit ["H"]) None)
    None = Raise TypeError.
Proof.
  assert (H : Exists (fun vec : list Z => length vec <> 3%nat)
                [[1; 0]; [0; 2; 0]])
    by (left; discriminate).
  split; [exact H |].
  apply (X27_cell_row_not_of_three
           (mkPhonopyAtoms (F := integer_float) [[1; 0]; [0; 2; 0]] 1
              [[0; 0; 0]] (map lit ["H"]) None) None H).
Defined.

Lemma X28_fewer_flags_than_atoms_witness :
  (length [false] < get_number_of_atoms written)%nat /\
  write_aims written (Some [false]) = Raise IndexError.
Proof.
  split; [cbn; lia |].
  apply (X28_fewer_flags_than_atoms written [false]);
    try reflexivity; try (repeat constructor).
Defined.
